(** * Bifrost core: request routing engine (core/bifrost.go)

    A shallow embedding of the dispatcher, the plugin pipeline, the
    provider worker, the credential selector and the queue hand-over of
    [UpdateProviderConcurrency], followed by the properties stated about
    them.

    Conventions.
    - Go pointers that are compared with [nil] are [option]s.
    - Go [int] is a 64-bit integer: a [Z] with the wrap-around written out
      ([wrap64]); [float64] is Rocq's primitive binary64 [float].
    - A goroutine that parks forever on a [select] is the result [Blocked];
      a run-time panic is the result [Crashed].
    - Calls to plugins and adapters are recorded in a log of [Event]s, which
      is threaded through the functions that perform them.
    - A function that is given a pointer to a [context.Context] takes the
      context and returns the context it leaves behind the pointer. *)

From Stdlib Require Import ZArith List String Ascii Bool Lia Floats.
Import ListNotations.

Open Scope string_scope.
Open Scope list_scope.
Open Scope Z_scope.

(* ================================================================= *)
(** ** Machine integers and strings *)

Definition wrap64 (z : Z) : Z := (z + 2 ^ 63) mod 2 ^ 64 - 2 ^ 63.

(** Go's conversion [int(f)] of a [float64]: truncation toward zero.  Where
    the value does not fit, the language leaves the result to the
    implementation; this is amd64, which yields the smallest integer. *)
Definition int_of_float64 (f : float) : Z :=
  match Prim2SF f with
  | S754_zero _ => 0
  | S754_finite s m e =>
      let mag := if 0 <=? e then Z.shiftl (Zpos m) e else Z.shiftr (Zpos m) (- e) in
      let v := if s then - mag else mag in
      if (- 2 ^ 63 <=? v) && (v <? 2 ^ 63) then v else - 2 ^ 63
  | S754_infinity _ => - 2 ^ 63
  | S754_nan => - 2 ^ 63
  end.

(** [len(s)] of a slice as a Go [int]. *)
Definition len {A : Type} (l : list A) : Z := Z.of_nat (List.length l).

(** [slices.Contains] on a slice of strings. *)
Definition slices_Contains (l : list string) (s : string) : bool :=
  existsb (String.eqb s) l.

Definition bytes_of (s : string) : list N :=
  map N_of_ascii (list_ascii_of_string s).

Definition isAsciiSpace (b : N) : bool :=
  ((9 <=? b) && (b <=? 13) || (b =? 32))%N.

(** [allSpace bs] holds when the bytes [bs] are the UTF-8 encoding of a
    sequence of white-space code points ([unicode.IsSpace]): the six ASCII
    ones, U+0085, U+00A0, U+1680, U+2000..U+200A, U+2028, U+2029, U+202F,
    U+205F and U+3000.  Anything else, malformed UTF-8 included, is not
    white space. *)
Fixpoint allSpace (bs : list N) : bool :=
  match bs with
  | [] => true
  | b :: r =>
      if isAsciiSpace b then allSpace r
      else
        match r with
        | [] => false
        | b2 :: r2 =>
            if (b =? 194)%N then
              if ((b2 =? 133) || (b2 =? 160))%N then allSpace r2 else false
            else
              match r2 with
              | [] => false
              | b3 :: r3 =>
                  if ((b =? 225) && (b2 =? 154) && (b3 =? 128))%N then allSpace r3
                  else if ((b =? 226) && (b2 =? 128)
                           && (((128 <=? b3) && (b3 <=? 138))
                               || (b3 =? 168) || (b3 =? 169) || (b3 =? 175)))%N
                       then allSpace r3
                  else if ((b =? 226) && (b2 =? 129) && (b3 =? 159))%N then allSpace r3
                  else if ((b =? 227) && (b2 =? 128) && (b3 =? 128))%N then allSpace r3
                  else false
              end
        end
  end.

(** The test [strings.TrimSpace(s) != ""]: trimming leaves something exactly
    when [s] is not made of white space only. *)
Definition TrimSpace_nonempty (s : string) : bool := negb (allSpace (bytes_of s)).

(* ================================================================= *)
(** ** Contexts *)

(** A [context.Context], as far as the core looks at it: its cancellation
    token, observed at the instants at which a [select] looks at it. *)
Record Context := { Done : nat -> bool }.

(** [context.Background()] *)
Definition backgroundCtx : Context := {| Done := fun _ => false |}.

(* ================================================================= *)
(** ** The schemas package, as far as core/bifrost.go uses it *)

Module schemas.

Definition ModelProvider := string.

(** Modelled from the spec: the provider tags are the canonical lowercase
    names of the providers (core/schemas is not part of the sources). *)
Definition OpenAI : ModelProvider := "openai".
Definition Anthropic : ModelProvider := "anthropic".
Definition Vertex : ModelProvider := "vertex".
Definition Ollama : ModelProvider := "ollama".

(** Modelled from the spec: the error type of a cancelled request is
    [request_cancelled]. *)
Definition RequestCancelled : string := "request_cancelled".

Record Key := {
  Value : string;
  Models : list string;
  Weight : float
}.

Record ErrorField := {
  Type_ : option string;
  Message : string;
  Cause : option string        (* the field [Error error] *)
}.

Record BifrostError := {
  IsBifrostError : bool;
  StatusCode : option Z;
  Error : ErrorField;
  AllowFallbacks : option bool;
  Provider : ModelProvider      (* the zero value is the empty tag *)
}.

Definition setProvider (e : BifrostError) (p : ModelProvider) : BifrostError :=
  {| IsBifrostError := IsBifrostError e; StatusCode := StatusCode e;
     Error := Error e; AllowFallbacks := AllowFallbacks e; Provider := p |}.

Record NetworkConfig := { MaxRetries : Z }.

Record ConcurrencyAndBufferSize := { Concurrency : Z; BufferSize : Z }.

Record ProviderConfig := {
  networkConfig : NetworkConfig;
  concurrencyAndBufferSize : ConcurrencyAndBufferSize
}.

(** The account interface: both look-ups return a value or an error. *)
Record Account := {
  GetConfigForProvider : ModelProvider -> string + ProviderConfig;
  GetKeysForProvider : ModelProvider -> string + list Key
}.

Record Fallback := { FallbackProvider : ModelProvider; FallbackModel : string }.

(** The typed input: one optional field per kind of request.  The payloads
    themselves are opaque to the core. *)
Record RequestInput := {
  TextCompletionInput : option string;
  ChatCompletionInput : option (list string);
  EmbeddingInput : option string;
  SpeechInput : option string;
  TranscriptionInput : option string
}.

Record ModelParameters := { Tools : list string }.

Record BifrostRequest := {
  ReqProvider : ModelProvider;
  Model : string;
  Input : RequestInput;
  Params : option ModelParameters;
  Fallbacks : list Fallback
}.

Record BifrostResponse := { ID : string }.

(** One element of a stream, and the stream handed to the caller. *)
Record BifrostStream := {
  StreamResponse : option BifrostResponse;
  StreamError : option BifrostError
}.
Definition StreamChan := list BifrostStream.

Record PluginShortCircuit := {
  Response : option BifrostResponse;
  ShortCircuitError : option BifrostError      (* the field [Error] *)
}.

(** A plugin.  Each hook is given a pointer to the context of the request,
    which it may replace, and also returns a plain [error], which the
    pipeline only collects. *)
Record Plugin := {
  GetName : string;
  PreHook : Context -> option BifrostRequest ->
            Context * option BifrostRequest * option PluginShortCircuit * option string;
  PostHook : Context -> option BifrostResponse -> option BifrostError ->
             Context * option BifrostResponse * option BifrostError * option string
}.

End schemas.
Import schemas.

(** A function that returns, fails with an [error], or panics. *)
Inductive result (A : Type) : Type :=
| Ok (a : A)
| Err (msg : string)
| Panic (msg : string).
Arguments Ok {A} a.
Arguments Err {A} msg.
Arguments Panic {A} msg.

(* ================================================================= *)
(** ** Credential selector *)

(** [Intn] of math/rand: panics unless [n > 0], else a value of [0, n).
    [src] stands for the state of the freshly seeded source; every value of
    the range is the result for some [src]. *)
Definition Intn (src : Z) (n : Z) : option Z :=
  if n <=? 0 then None else Some (src mod n).

(** [int(key.Weight * 100)] *)
Definition scaledWeight (key : Key) : Z := int_of_float64 (Weight key * 100)%float.

(** The condition of the filter loop of [selectKeyFromProviderForModel]. *)
Definition keySupportsModel (providerKey : ModelProvider) (model : string) (key : Key) : bool :=
  (slices_Contains (Models key) model
     && (TrimSpace_nonempty (Value key) || String.eqb providerKey Vertex))
  || (len (Models key) =? 0).

Definition supportedKeysFor (providerKey : ModelProvider) (model : string)
    (keys : list Key) : list Key :=
  filter (keySupportsModel providerKey model) keys.

Definition totalWeightOf (supportedKeys : list Key) : Z :=
  fold_left (fun totalWeight key => wrap64 (totalWeight + scaledWeight key)) supportedKeys 0.

(** The selection loop; [None] when it runs off the end of the slice. *)
Fixpoint walkWeights (supportedKeys : list Key) (randomValue currentWeight : Z) : option Key :=
  match supportedKeys with
  | [] => None
  | key :: rest =>
      let currentWeight := wrap64 (currentWeight + scaledWeight key) in
      if randomValue <? currentWeight then Some key
      else walkWeights rest randomValue currentWeight
  end.

Definition noKeysForProvider (providerKey : ModelProvider) : string :=
  ("no keys found for provider: " ++ providerKey)%string.

Definition noKeysForModel (model : string) : string :=
  ("no keys found that support model: " ++ model)%string.

Definition selectKeyFromProviderForModel (account : Account) (src : Z)
    (providerKey : ModelProvider) (model : string) : result Key :=
  match GetKeysForProvider account providerKey with
  | inl err => Err err
  | inr keys =>
      if len keys =? 0 then Err (noKeysForProvider providerKey)
      else
        let supportedKeys := supportedKeysFor providerKey model keys in
        match supportedKeys with
        | [] => Err (noKeysForModel model)
        | [key] => Ok key
        | first :: _ =>
            match Intn src (totalWeightOf supportedKeys) with
            | None => Panic "invalid argument to Intn"
            | Some randomValue =>
                match walkWeights supportedKeys randomValue 0 with
                | Some key => Ok key
                | None => Ok first       (* fall back to the first key *)
                end
            end
        end
  end.

(* ================================================================= *)
(** ** Requests, events and outcomes *)

Inductive RequestType : Type :=
| TextCompletionRequest
| ChatCompletionRequest
| ChatCompletionStreamRequest
| EmbeddingRequest
| SpeechRequest
| SpeechStreamRequest
| TranscriptionRequest
| TranscriptionStreamRequest.

Definition RequestType_eqb (a b : RequestType) : bool :=
  match a, b with
  | TextCompletionRequest, TextCompletionRequest
  | ChatCompletionRequest, ChatCompletionRequest
  | ChatCompletionStreamRequest, ChatCompletionStreamRequest
  | EmbeddingRequest, EmbeddingRequest
  | SpeechRequest, SpeechRequest
  | SpeechStreamRequest, SpeechStreamRequest
  | TranscriptionRequest, TranscriptionRequest
  | TranscriptionStreamRequest, TranscriptionStreamRequest => true
  | _, _ => false
  end.

(** Modelled from the spec: [isStreamRequestType] (core/utils.go is not part
    of the sources) holds of the three streaming kinds. *)
Definition isStreamRequestType (t : RequestType) : bool :=
  match t with
  | ChatCompletionStreamRequest | SpeechStreamRequest | TranscriptionStreamRequest => true
  | _ => false
  end.

(** What the log records, oldest first.  Plugins are named by their position
    in the registration order. *)
Inductive Event : Type :=
| EvMCPTools                                        (* tool descriptors merged *)
| EvPreHook (i : nat)
| EvShortCircuit (i : nat)                          (* pre-hook [i] short-circuited *)
| EvPostHook (i : nat)
| EvEnqueue (p : ModelProvider)                     (* message sent on the queue *)
| EvAdapterCall (p : ModelProvider) (model : string)
| EvSleep (attempt : Z).                            (* back-off before a retry *)

Definition Log := list Event.

Definition preHooksOf (l : Log) : list nat :=
  flat_map (fun e => match e with EvPreHook i => [i] | _ => [] end) l.

Definition postHooksOf (l : Log) : list nat :=
  flat_map (fun e => match e with EvPostHook i => [i] | _ => [] end) l.

Definition adapterCallsOf (p : ModelProvider) (l : Log) : nat :=
  List.length (filter (fun e => match e with
                                | EvAdapterCall q _ => String.eqb p q
                                | _ => false
                                end) l).

Definition isEnqueue (e : Event) : bool :=
  match e with EvEnqueue _ => true | _ => false end.

Definition isShortCircuit (e : Event) : bool :=
  match e with EvShortCircuit _ => true | _ => false end.

(** How a call of the dispatcher ends: it returns a (response, error) pair,
    it never returns, or the process dies. *)
Inductive outcome (R : Type) : Type :=
| Returned (resp : option R) (err : option BifrostError)
| Blocked
| Crashed (msg : string).
Arguments Returned {R} resp err.
Arguments Blocked {R}.
Arguments Crashed {R} msg.

(** Modelled from the spec: the two error constructors of core/utils.go (not
    part of the sources) build infrastructural errors, [IsBifrostError] set,
    with the given message and, for [newBifrostError], the cause. *)
Definition newBifrostError (err : string) : BifrostError :=
  {| IsBifrostError := true; StatusCode := None;
     Error := {| Type_ := None; Message := err; Cause := Some err |};
     AllowFallbacks := None; Provider := "" |}.

Definition newBifrostErrorFromMsg (message : string) : BifrostError :=
  {| IsBifrostError := true; StatusCode := None;
     Error := {| Type_ := None; Message := message; Cause := None |};
     AllowFallbacks := None; Provider := "" |}.

(** The literal [schemas.BifrostError{IsBifrostError: false, Error: ...}]. *)
Definition plainError (message : string) (cause : option string) : BifrostError :=
  {| IsBifrostError := false; StatusCode := None;
     Error := {| Type_ := None; Message := message; Cause := cause |};
     AllowFallbacks := None; Provider := "" |}.

(* ================================================================= *)
(** ** Plugin pipeline *)

Record PluginPipeline := {
  plugins : list Plugin;
  executedPreHooks : Z;
  preHookErrors : list string;
  postHookErrors : list string
}.

Definition notePreHook (p : PluginPipeline) (err : option string) (i : nat) : PluginPipeline :=
  {| plugins := plugins p;
     executedPreHooks := Z.of_nat i + 1;
     preHookErrors := match err with
                      | Some e => preHookErrors p ++ [e]
                      | None => preHookErrors p
                      end;
     postHookErrors := postHookErrors p |}.

Definition notePostHook (p : PluginPipeline) (err : option string) : PluginPipeline :=
  {| plugins := plugins p;
     executedPreHooks := executedPreHooks p;
     preHookErrors := preHookErrors p;
     postHookErrors := match err with
                       | Some e => postHookErrors p ++ [e]
                       | None => postHookErrors p
                       end |}.

(** The loop of [RunPreHooks] from plugin [i] on; [rest] is [p.plugins[i:]]. *)
Fixpoint preHooksFrom (rest : list Plugin) (i : nat) (p : PluginPipeline)
    (ctx : Context) (req : option BifrostRequest) (log : Log)
    : (Context * option BifrostRequest * option PluginShortCircuit * Z)
      * PluginPipeline * Log :=
  match rest with
  | [] => ((ctx, req, None, executedPreHooks p), p, log)
  | plugin :: rest' =>
      let '(ctx', req', shortCircuit, err) := PreHook plugin ctx req in
      let p' := notePreHook p err i in
      let log' := log ++ [EvPreHook i] in
      match shortCircuit with
      | Some sc =>
          ((ctx', req', Some sc, executedPreHooks p'), p', log' ++ [EvShortCircuit i])
      | None => preHooksFrom rest' (S i) p' ctx' req' log'
      end
  end.

(** [RunPreHooks]: the context as the hooks leave it, the request, the
    short-circuit and the count; the pipeline; the log. *)
Definition RunPreHooks (p : PluginPipeline) (ctx : Context)
    (req : option BifrostRequest) (log : Log) :=
  preHooksFrom (plugins p) 0 p ctx req log.

(** The loop of [RunPostHooks]: [i] runs from [n - 1] down to [0]. *)
Fixpoint postHooksDown (n : nat) (p : PluginPipeline) (ctx : Context)
    (resp : option BifrostResponse) (bifrostErr : option BifrostError) (log : Log)
    : Context * option BifrostResponse * option BifrostError * PluginPipeline * Log :=
  match n with
  | O => (ctx, resp, bifrostErr, p, log)
  | S i =>
      match nth_error (plugins p) i with
      | Some plugin =>
          let '(ctx', resp', bifrostErr', err) := PostHook plugin ctx resp bifrostErr in
          postHooksDown i (notePostHook p err) ctx' resp' bifrostErr'
                        (log ++ [EvPostHook i])
      | None => postHooksDown i p ctx resp bifrostErr log   (* excluded by the clamp *)
      end
  end.

(** The bounds check at the head of [RunPostHooks]. *)
Definition clampCount (p : PluginPipeline) (count : Z) : nat :=
  let count := if count <? 0 then 0 else count in
  let count := if count >? len (plugins p) then len (plugins p) else count in
  Z.to_nat count.

Definition isNil {A : Type} (o : option A) : bool :=
  match o with None => true | Some _ => false end.

(** The test of the final logic: no status code, no type, no message, no
    cause. *)
Definition isEmptyError (e : BifrostError) : bool :=
  isNil (StatusCode e) && isNil (Type_ (Error e))
  && String.eqb (Message (Error e)) "" && isNil (Cause (Error e)).

(** The final logic of [RunPostHooks]. *)
Definition reconcile (resp : option BifrostResponse) (bifrostErr : option BifrostError)
    : option BifrostResponse * option BifrostError :=
  match bifrostErr with
  | Some e =>
      match resp with
      | Some r => if isEmptyError e then (Some r, None) else (resp, Some e)
      | None => (resp, Some e)
      end
  | None => (resp, None)
  end.

(** [RunPostHooks]: the context as the hooks leave it, the response and
    the error; the pipeline; the log. *)
Definition RunPostHooks (p : PluginPipeline) (ctx : Context)
    (resp : option BifrostResponse) (bifrostErr : option BifrostError)
    (count : Z) (log : Log)
    : (Context * option BifrostResponse * option BifrostError) * PluginPipeline * Log :=
  let '(ctx', resp', bifrostErr', p', log') :=
    postHooksDown (clampCount p count) p ctx resp bifrostErr log in
  ((ctx', fst (reconcile resp' bifrostErr'), snd (reconcile resp' bifrostErr')),
   p', log').

(* ================================================================= *)
(** ** Provider adapters, queues and the engine *)

(** The post-hook runner handed to a streaming adapter; it too is given a
    pointer to a context. *)
Definition PostHookRunner : Type :=
  Context -> option BifrostResponse -> option BifrostError -> Log ->
  (Context * option BifrostResponse * option BifrostError) * Log.

(** An operation of an adapter.  The first argument is the number of calls
    the adapter has served before, so that an adapter may answer its calls
    differently; then the context of the message; the request carries the
    model, the input and the parameters. *)
Definition Operation : Type :=
  nat -> Context -> BifrostRequest -> Key ->
  option BifrostResponse * option BifrostError.

(** A streaming operation yields the elements the adapter produces, before
    the post-hook runner has seen them, or the error of setting the stream
    up. *)
Definition StreamOperation : Type :=
  nat -> Context -> BifrostRequest -> Key ->
  option StreamChan * option BifrostError.

(** The interface [schemas.Provider] of an adapter. *)
Record Adapter := {
  GetProviderKey : ModelProvider;
  TextCompletion : Operation;
  ChatCompletion : Operation;
  Embedding : Operation;
  Speech : Operation;
  Transcription : Operation;
  ChatCompletionStream : StreamOperation;
  SpeechStream : StreamOperation;
  TranscriptionStream : StreamOperation
}.

(** A provider's queue as one request meets it.  Instant [0] is the first
    [select] of the admission, instants [1 .. horizon] are the moments at
    which a parked sender is looked at again, [publishInstant] is the moment
    at which the worker publishes the outcome.  [pickSend] is the run-time's
    choice where a send and [ctx.Done()] are ready together.  [workers] is
    the number of goroutines that receive from the queue: [prepareProvider]
    and [UpdateProviderConcurrency] store a queue before they construct the
    adapter and start the workers, so a stored queue may have none. *)
Record Queue := {
  hasSpace : nat -> bool;
  pickSend : nat -> bool;
  horizon : nat;
  publishInstant : nat;
  workers : nat;
  adapter : Adapter;          (* the instance the workers of the queue call *)
  randSrc : Z                  (* state of the worker's random source *)
}.

Record MCPManager := {
  addMCPToolsToBifrostRequest : BifrostRequest -> BifrostRequest
}.

Record Bifrost := {
  account : Account;
  bifrostPlugins : list Plugin;
  mcpManager : option MCPManager;
  dropExcessRequests : bool;
  (** what [getProviderQueue] returns for a provider: its queue, created on
      demand, or the error of the creation *)
  getProviderQueue : ModelProvider -> string + Queue
}.

Record ChannelMessage := {
  msgRequest : BifrostRequest;       (* the embedded request *)
  msgContext : Context;
  msgType : RequestType
}.

(** What the worker leaves on the channels of a message. *)
Inductive Delivery : Type :=
| OnResponse (result : option BifrostResponse)
| OnResponseStream (stream : option StreamChan)
| OnErr (e : BifrostError)
| NotDelivered                       (* the send was abandoned *)
| WorkerPanic (msg : string).

Definition retryableStatusCodes (code : Z) : bool :=
  (code =? 500) || (code =? 502) || (code =? 503) || (code =? 504) || (code =? 429).

Definition isRequestCancelled (e : BifrostError) : bool :=
  match Type_ (Error e) with
  | Some t => String.eqb t RequestCancelled
  | None => false
  end.

Definition RequestType_string (t : RequestType) : string :=
  match t with
  | TextCompletionRequest => "text_completion"
  | ChatCompletionRequest => "chat_completion"
  | ChatCompletionStreamRequest => "chat_completion_stream"
  | EmbeddingRequest => "embedding"
  | SpeechRequest => "speech"
  | SpeechStreamRequest => "speech_stream"
  | TranscriptionRequest => "transcription"
  | TranscriptionStreamRequest => "transcription_stream"
  end.

Definition unsupportedRequestType (reqType : RequestType) : BifrostError :=
  plainError ("unsupported request type: " ++ RequestType_string reqType)%string None.

Definition nilDereference : string := "invalid memory address or nil pointer dereference".

(** [handleProviderRequest]; [inl] is the panic of dereferencing a missing
    input. *)
Definition handleProviderRequest (provider : Adapter) (req : ChannelMessage)
    (key : Key) (reqType : RequestType) (log : Log)
    : string + (option BifrostResponse * option BifrostError) * Log :=
  let r := msgRequest req in
  let n := adapterCallsOf (GetProviderKey provider) log in
  let log' := log ++ [EvAdapterCall (GetProviderKey provider) (Model r)] in
  match reqType with
  | TextCompletionRequest =>
      match TextCompletionInput (Input r) with
      | Some _ => inr (TextCompletion provider n (msgContext req) r key, log')
      | None => inl nilDereference
      end
  | ChatCompletionRequest =>
      match ChatCompletionInput (Input r) with
      | Some _ => inr (ChatCompletion provider n (msgContext req) r key, log')
      | None => inl nilDereference
      end
  | EmbeddingRequest => inr (Embedding provider n (msgContext req) r key, log')
  | SpeechRequest => inr (Speech provider n (msgContext req) r key, log')
  | TranscriptionRequest => inr (Transcription provider n (msgContext req) r key, log')
  | _ => inr ((None, Some (unsupportedRequestType reqType)), log)
  end.

(** Modelled from the spec: a streaming adapter invokes the post-hook runner
    exactly once per element of the stream, in order (the adapters' streaming
    code is not part of the sources). *)
Fixpoint throughRunner (postHookRunner : PostHookRunner) (ctx : Context)
    (elements : StreamChan) (log : Log) : StreamChan * Log :=
  match elements with
  | [] => ([], log)
  | element :: rest =>
      let '((ctx, resp, err), log) :=
        postHookRunner ctx (StreamResponse element) (StreamError element) log in
      let '(rest', log) := throughRunner postHookRunner ctx rest log in
      ({| StreamResponse := resp; StreamError := err |} :: rest', log)
  end.

Definition streamed (postHookRunner : PostHookRunner) (ctx : Context)
    (out : option StreamChan * option BifrostError) (log : Log)
    : (option StreamChan * option BifrostError) * Log :=
  match fst out with
  | Some elements =>
      let '(elements', log) := throughRunner postHookRunner ctx elements log in
      ((Some elements', snd out), log)
  | None => (out, log)
  end.

(** [handleProviderStreamRequest] *)
Definition handleProviderStreamRequest (provider : Adapter) (req : ChannelMessage)
    (key : Key) (postHookRunner : PostHookRunner) (reqType : RequestType) (log : Log)
    : string + (option StreamChan * option BifrostError) * Log :=
  let r := msgRequest req in
  let n := adapterCallsOf (GetProviderKey provider) log in
  let log' := log ++ [EvAdapterCall (GetProviderKey provider) (Model r)] in
  match reqType with
  | ChatCompletionStreamRequest =>
      match ChatCompletionInput (Input r) with
      | Some _ =>
          inr (streamed postHookRunner (msgContext req)
                        (ChatCompletionStream provider n (msgContext req) r key) log')
      | None => inl nilDereference
      end
  | SpeechStreamRequest =>
      inr (streamed postHookRunner (msgContext req)
                    (SpeechStream provider n (msgContext req) r key) log')
  | TranscriptionStreamRequest =>
      inr (streamed postHookRunner (msgContext req)
                    (TranscriptionStream provider n (msgContext req) r key) log')
  | _ => inr ((None, Some (unsupportedRequestType reqType)), log)
  end.

(** [getPluginPipeline]: a pipeline from the pool, reset. *)
Definition getPluginPipeline (bifrost : Bifrost) : PluginPipeline :=
  {| plugins := bifrostPlugins bifrost; executedPreHooks := 0;
     preHookErrors := []; postHookErrors := [] |}.

(** The variables of the retry loop of [requestWorker]. *)
Record Attempt := {
  attempts : Z;
  result_ : option BifrostResponse;
  stream : option StreamChan;
  bifrostError : option BifrostError
}.

(** The last test of the loop body: true when the loop is left. *)
Definition successfulOrFinal (bifrostError : option BifrostError) : bool :=
  match bifrostError with
  | None => true
  | Some e =>
      IsBifrostError e
      || match StatusCode e with
         | Some code => negb (retryableStatusCodes code)
         | None => false
         end
      || isRequestCancelled e
  end.

(** The idiom [if bifrostErr != nil { return nil, bifrostErr }; return resp, nil]. *)
Definition errorWins {R : Type} (r : option R * option BifrostError)
    : option R * option BifrostError :=
  match snd r with
  | Some e => (None, Some e)
  | None => (fst r, None)
  end.

(* ================================================================= *)
(** ** Queue admission *)

Inductive Admission : Type :=
| Sent                    (* the message is on the queue *)
| CancelledWaiting        (* [ctx.Done()] won *)
| DroppedFull             (* queue full and drop-excess set *)
| Parked.                 (* still waiting when the observation ends *)

(** One look of [select { case queue <- msg: ...; case <-ctx.Done(): ... }]
    at instant [t]; [None] when neither case is ready. *)
Definition sendOrDone (queue : Queue) (ctx : Context) (t : nat) : option Admission :=
  match hasSpace queue t, Done ctx t with
  | true, true => Some (if pickSend queue t then Sent else CancelledWaiting)
  | true, false => Some Sent
  | false, true => Some CancelledWaiting
  | false, false => None
  end.

(** The inner, blocking [select]: parked until a case becomes ready. *)
Fixpoint waitForQueue (queue : Queue) (ctx : Context) (t fuel : nat) : Admission :=
  match fuel with
  | O => Parked
  | S fuel' =>
      match sendOrDone queue ctx t with
      | Some a => a
      | None => waitForQueue queue ctx (S t) fuel'
      end
  end.

(** The admission [select] of [tryRequest] and [tryStreamRequest]. *)
Definition admission (dropExcess : bool) (queue : Queue) (ctx : Context) : Admission :=
  match sendOrDone queue ctx 0 with
  | Some a => a
  | None =>                                             (* default: *)
      if dropExcess then DroppedFull
      else waitForQueue queue ctx 1 (horizon queue)
  end.

Definition errCancelledWaiting : BifrostError :=
  newBifrostErrorFromMsg "request cancelled while waiting for queue space".

Definition errQueueFull : BifrostError :=
  newBifrostErrorFromMsg "request dropped: queue is full".

Definition errNilAfterHooks : BifrostError :=
  newBifrostErrorFromMsg "bifrost request after plugin hooks cannot be nil".

(* ================================================================= *)
(** ** The worker, the dispatcher and the fallback cascade *)

Section Core.

(** Two helpers of core/utils.go, which is not part of the sources. *)
Variable providerRequiresKey : ModelProvider -> bool.
Variable validateRequest : BifrostRequest -> option BifrostError.

(** The retry loop of [requestWorker].  [fuel] bounds the iterations; the
    loop is started with [MaxRetries + 1] of it, which the loop condition
    never lets it use up. *)
Fixpoint retryLoop (fuel : nat) (provider : Adapter) (req : ChannelMessage)
    (key : Key) (postHookRunner : PostHookRunner) (maxRetries : Z)
    (st : Attempt) (log : Log) : string + Attempt * Log :=
  match fuel with
  | O => inr (st, log)
  | S fuel' =>
      if attempts st <=? maxRetries then
        let log := if attempts st >? 0
                   then log ++ [EvSleep (attempts st - 1)] else log in
        if isStreamRequestType (msgType req) then
          match handleProviderStreamRequest provider req key postHookRunner
                  (msgType req) log with
          | inl panic => inl panic
          | inr ((stream', bifrostError'), log) =>
              let st := {| attempts := attempts st; result_ := result_ st;
                           stream := stream'; bifrostError := bifrostError' |} in
              if match bifrostError' with
                 | Some e => negb (IsBifrostError e)
                 | None => false
                 end
              then inr (st, log)                      (* break *)
              else if successfulOrFinal bifrostError' then inr (st, log)
              else retryLoop fuel' provider req key postHookRunner maxRetries
                     {| attempts := attempts st + 1; result_ := result_ st;
                        stream := stream st; bifrostError := bifrostError st |} log
          end
        else
          match handleProviderRequest provider req key (msgType req) log with
          | inl panic => inl panic
          | inr ((result', bifrostError'), log) =>
              let st := {| attempts := attempts st; result_ := result';
                           stream := stream st; bifrostError := bifrostError' |} in
              if negb (isNil bifrostError') then inr (st, log)   (* break *)
              else if successfulOrFinal bifrostError' then inr (st, log)
              else retryLoop fuel' provider req key postHookRunner maxRetries
                     {| attempts := attempts st + 1; result_ := result_ st;
                        stream := stream st; bifrostError := bifrostError st |} log
          end
      else inr (st, log)
  end.

(** Publishing an outcome: a [select] between the send on the message's
    channel, the cancellation token of the message, and a timer of five
    seconds.  The channel is the one [getChannelMessage] put into the
    message, with its one slot free, and only this worker sends on it: the
    send is ready when the [select] is entered and the timer, started then,
    is not; so the choice is between the send and the token. *)
Definition publish (queue : Queue) (req : ChannelMessage) (d : Delivery) : Delivery :=
  if Done (msgContext req) (publishInstant queue)
     && negb (pickSend queue (publishInstant queue))
  then NotDelivered else d.

(** The runner a worker builds for a streaming request. *)
Definition workerPostHookRunner (bifrost : Bifrost) : PostHookRunner :=
  fun ctx result err log =>
    let '((ctx', resp, bifrostErr), _, log') :=
      RunPostHooks (getPluginPipeline bifrost) ctx result err
                   (len (bifrostPlugins bifrost)) log in
    ((ctx', fst (errorWins (resp, bifrostErr)), snd (errorWins (resp, bifrostErr))),
     log').

(** One turn of the loop of [requestWorker]: the message [req] has been
    taken from the queue. *)
Definition requestWorker (bifrost : Bifrost) (queue : Queue) (req : ChannelMessage)
    (log : Log) : Delivery * Log :=
  let provider := adapter queue in
  let selected :=
    if providerRequiresKey (GetProviderKey provider)
    then selectKeyFromProviderForModel (account bifrost) (randSrc queue)
           (GetProviderKey provider) (Model (msgRequest req))
    else Ok {| Value := ""; Models := []; Weight := 0 |} in
  match selected with
  | Panic msg => (WorkerPanic msg, log)
  | Err err => (OnErr (plainError err (Some err)), log)
  | Ok key =>
      match GetConfigForProvider (account bifrost) (GetProviderKey provider) with
      | inl err => (OnErr (plainError err (Some err)), log)
      | inr config =>
          let maxRetries := MaxRetries (networkConfig config) in
          match retryLoop (Z.to_nat (maxRetries + 1)) provider req key
                  (workerPostHookRunner bifrost) maxRetries
                  {| attempts := 0; result_ := None; stream := None;
                     bifrostError := None |} log with
          | inl panic => (WorkerPanic panic, log)
          | inr (st, log) =>
              match bifrostError st with
              | Some e => (publish queue req (OnErr e), log)
              | None =>
                  if isStreamRequestType (msgType req)
                  then (publish queue req (OnResponseStream (stream st)), log)
                  else (publish queue req (OnResponse (result_ st)), log)
              end
          end
      end
  end.

(** What the dispatcher does with a short-circuit: the arguments of the
    post-hooks, or [None] when it goes on to the queue. *)
Definition shortCircuitArgs (shortCircuit : option PluginShortCircuit)
    : option (option BifrostResponse * option BifrostError) :=
  match shortCircuit with
  | Some sc =>
      match Response sc with
      | Some r => Some (Some r, None)
      | None =>
          match ShortCircuitError sc with
          | Some e => Some (None, Some e)
          | None => None
          end
      end
  | None => None
  end.

(** The tool augmentation step of [tryRequest] ... *)
Definition addTools_tryRequest (bifrost : Bifrost) (requestType : RequestType)
    (req : BifrostRequest) (log : Log) : BifrostRequest * Log :=
  if negb (RequestType_eqb requestType EmbeddingRequest)
     && negb (RequestType_eqb requestType SpeechRequest)
     && negb (isNil (mcpManager bifrost))
  then match mcpManager bifrost with
       | Some manager => (addMCPToolsToBifrostRequest manager req, log ++ [EvMCPTools])
       | None => (req, log)
       end
  else (req, log).

(** ... and of [tryStreamRequest]. *)
Definition addTools_tryStreamRequest (bifrost : Bifrost) (requestType : RequestType)
    (req : BifrostRequest) (log : Log) : BifrostRequest * Log :=
  if negb (RequestType_eqb requestType SpeechStreamRequest)
     && negb (RequestType_eqb requestType TranscriptionStreamRequest)
     && negb (isNil (mcpManager bifrost))
  then match mcpManager bifrost with
       | Some manager => (addMCPToolsToBifrostRequest manager req, log ++ [EvMCPTools])
       | None => (req, log)
       end
  else (req, log).

Definition returned {R : Type} (r : option R * option BifrostError) : outcome R :=
  Returned (fst r) (snd r).

Definition tryRequest (bifrost : Bifrost) (req : BifrostRequest) (ctx : option Context)
    (requestType : RequestType) (log : Log) : outcome BifrostResponse * Log :=
  match getProviderQueue bifrost (ReqProvider req) with
  | inl err => (Returned None (Some (newBifrostError err)), log)
  | inr queue =>
      let ctx := match ctx with Some c => c | None => backgroundCtx end in
      let '(req', log) := addTools_tryRequest bifrost requestType req log in
      let pipeline := getPluginPipeline bifrost in
      let '((ctx, preReq, shortCircuit, preCount), pipeline, log) :=
        RunPreHooks pipeline ctx (Some req') log in
      match shortCircuitArgs shortCircuit with
      | Some (scResp, scErr) =>
          let '((_, resp, bifrostErr), _, log) :=
            RunPostHooks pipeline ctx scResp scErr preCount log in
          (returned (errorWins (resp, bifrostErr)), log)
      | None =>
          match preReq with
          | None => (Returned None (Some errNilAfterHooks), log)
          | Some preReq =>
              let msg := {| msgRequest := preReq; msgContext := ctx;
                            msgType := requestType |} in
              match admission (dropExcessRequests bifrost) queue ctx with
              | CancelledWaiting => (Returned None (Some errCancelledWaiting), log)
              | DroppedFull => (Returned None (Some errQueueFull), log)
              | Parked => (Blocked, log)
              | Sent =>
                  let log := log ++ [EvEnqueue (ReqProvider req)] in
                  match workers queue with
                  | O => (Blocked, log)            (* nobody takes the message *)
                  | S _ =>
                      let '(delivery, log) := requestWorker bifrost queue msg log in
                      match delivery with
                      | OnResponse result =>
                          let '((_, resp, bifrostErr), _, log) :=
                            RunPostHooks pipeline ctx result None
                                         (len (bifrostPlugins bifrost)) log in
                          (returned (errorWins (resp, bifrostErr)), log)
                      | OnErr e =>
                          let '((_, resp, bifrostErr), _, log) :=
                            RunPostHooks pipeline ctx None (Some e)
                                         (len (bifrostPlugins bifrost)) log in
                          (returned (errorWins (resp, bifrostErr)), log)
                      | OnResponseStream _ => (Blocked, log)   (* nobody listens *)
                      | NotDelivered => (Blocked, log)
                      | WorkerPanic msg => (Crashed msg, log)
                      end
                  end
              end
          end
      end
  end.

(** Modelled from the spec: [newBifrostMessageChan] (core/utils.go is not
    part of the sources) wraps the response of a short-circuit in a stream
    of one element. *)
Definition newBifrostMessageChan (resp : option BifrostResponse) : StreamChan :=
  [ {| StreamResponse := resp; StreamError := None |} ].

Definition tryStreamRequest (bifrost : Bifrost) (req : BifrostRequest)
    (ctx : option Context) (requestType : RequestType) (log : Log)
    : outcome StreamChan * Log :=
  match getProviderQueue bifrost (ReqProvider req) with
  | inl err => (Returned None (Some (newBifrostError err)), log)
  | inr queue =>
      let ctx := match ctx with Some c => c | None => backgroundCtx end in
      let '(req', log) := addTools_tryStreamRequest bifrost requestType req log in
      let pipeline := getPluginPipeline bifrost in
      let '((ctx, preReq, shortCircuit, preCount), pipeline, log) :=
        RunPreHooks pipeline ctx (Some req') log in
      match shortCircuitArgs shortCircuit with
      | Some (scResp, scErr) =>
          let '((_, resp, bifrostErr), _, log) :=
            RunPostHooks pipeline ctx scResp scErr preCount log in
          match bifrostErr with
          | Some e => (Returned None (Some e), log)
          | None => (Returned (Some (newBifrostMessageChan resp)) None, log)
          end
      | None =>
          match preReq with
          | None => (Returned None (Some errNilAfterHooks), log)
          | Some preReq =>
              let msg := {| msgRequest := preReq; msgContext := ctx;
                            msgType := requestType |} in
              match admission (dropExcessRequests bifrost) queue ctx with
              | CancelledWaiting => (Returned None (Some errCancelledWaiting), log)
              | DroppedFull => (Returned None (Some errQueueFull), log)
              | Parked => (Blocked, log)
              | Sent =>
                  let log := log ++ [EvEnqueue (ReqProvider req)] in
                  match workers queue with
                  | O => (Blocked, log)            (* nobody takes the message *)
                  | S _ =>
                      let '(delivery, log) := requestWorker bifrost queue msg log in
                      match delivery with
                      | OnResponseStream stream => (Returned stream None, log)
                      | OnErr e => (Returned None (Some e), log)
                      | OnResponse _ => (Blocked, log)         (* nobody listens *)
                      | NotDelivered => (Blocked, log)
                      | WorkerPanic msg => (Crashed msg, log)
                      end
                  end
              end
          end
      end
  end.

(** [shouldTryFallbacks], with the error as the call leaves it: the three
    refusals stamp the primary provider on it. *)
Definition shouldTryFallbacks (req : BifrostRequest) (primaryErr : option BifrostError)
    : bool * option BifrostError :=
  match primaryErr with
  | None => (false, None)
  | Some e =>
      if isRequestCancelled e
      then (false, Some (setProvider e (ReqProvider req)))
      else if match AllowFallbacks e with Some allow => negb allow | None => false end
      then (false, Some (setProvider e (ReqProvider req)))
      else if len (Fallbacks req) =? 0
      then (false, Some (setProvider e (ReqProvider req)))
      else (true, Some e)
  end.

Definition prepareFallbackRequest (bifrost : Bifrost) (req : BifrostRequest)
    (fallback : Fallback) : option BifrostRequest :=
  match GetConfigForProvider (account bifrost) (FallbackProvider fallback) with
  | inl _ => None
  | inr _ =>
      Some {| ReqProvider := FallbackProvider fallback;
              Model := FallbackModel fallback;
              Input := Input req; Params := Params req;
              Fallbacks := Fallbacks req |}
  end.

Definition shouldContinueWithFallbacks (fallback : Fallback) (fallbackErr : BifrostError)
    : bool * BifrostError :=
  if isRequestCancelled fallbackErr
  then (false, setProvider fallbackErr (FallbackProvider fallback))
  else if match AllowFallbacks fallbackErr with
          | Some allow => negb allow
          | None => false
          end
  then (false, setProvider fallbackErr (FallbackProvider fallback))
  else (true, fallbackErr).

(** The body shared by [handleRequest] and [handleStreamRequest], which
    differ in the function they try a provider with. *)
Section Cascade.

Context {R : Type}.
Variable try : BifrostRequest -> Log -> outcome R * Log.
Variable bifrost : Bifrost.

(** The loop over [req.Fallbacks] and the return that follows it. *)
Fixpoint tryFallbacks (fallbacks : list Fallback) (req : BifrostRequest)
    (primaryErr : BifrostError) (log : Log) : outcome R * Log :=
  match fallbacks with
  | [] => (Returned None (Some (setProvider primaryErr (ReqProvider req))), log)
  | fallback :: rest =>
      match prepareFallbackRequest bifrost req fallback with
      | None => tryFallbacks rest req primaryErr log          (* continue *)
      | Some fallbackReq =>
          match try fallbackReq log with
          | (Returned result None, log) => (Returned result None, log)
          | (Returned _ (Some fallbackErr), log) =>
              let (goOn, fallbackErr) :=
                shouldContinueWithFallbacks fallback fallbackErr in
              if goOn then tryFallbacks rest req primaryErr log
              else (Returned None (Some fallbackErr), log)
          | (Blocked, log) => (Blocked, log)
          | (Crashed msg, log) => (Crashed msg, log)
          end
      end
  end.

Definition handle (req : BifrostRequest) (log : Log) : outcome R * Log :=
  match validateRequest req with
  | Some err => (Returned None (Some (setProvider err (ReqProvider req))), log)
  | None =>
      match try req log with
      | (Returned primaryResult primaryErr, log) =>
          match shouldTryFallbacks req primaryErr with
          | (true, Some e) => tryFallbacks (Fallbacks req) req e log
          | (_, primaryErr) => (Returned primaryResult primaryErr, log)
          end
      | (Blocked, log) => (Blocked, log)
      | (Crashed msg, log) => (Crashed msg, log)
      end
  end.

End Cascade.

Definition handleRequest (bifrost : Bifrost) (ctx : option Context)
    (req : BifrostRequest) (requestType : RequestType) (log : Log)
    : outcome BifrostResponse * Log :=
  handle (fun r => tryRequest bifrost r ctx requestType) bifrost req log.

Definition handleStreamRequest (bifrost : Bifrost) (ctx : option Context)
    (req : BifrostRequest) (requestType : RequestType) (log : Log)
    : outcome StreamChan * Log :=
  handle (fun r => tryStreamRequest bifrost r ctx requestType) bifrost req log.

(** *** The public request methods of [Bifrost] *)

Definition inputMissing {R : Type} (message : string) (log : Log) : outcome R * Log :=
  (Returned None (Some (plainError message None)), log).

Definition Bifrost_TextCompletionRequest (bifrost : Bifrost) (ctx : option Context)
    (req : BifrostRequest) (log : Log) : outcome BifrostResponse * Log :=
  if isNil (TextCompletionInput (Input req))
  then inputMissing "text not provided for text completion request" log
  else handleRequest bifrost ctx req TextCompletionRequest log.

Definition Bifrost_ChatCompletionRequest (bifrost : Bifrost) (ctx : option Context)
    (req : BifrostRequest) (log : Log) : outcome BifrostResponse * Log :=
  if isNil (ChatCompletionInput (Input req))
  then inputMissing "chats not provided for chat completion request" log
  else handleRequest bifrost ctx req ChatCompletionRequest log.

Definition Bifrost_ChatCompletionStreamRequest (bifrost : Bifrost) (ctx : option Context)
    (req : BifrostRequest) (log : Log) : outcome StreamChan * Log :=
  if isNil (ChatCompletionInput (Input req))
  then inputMissing "chats not provided for chat completion request" log
  else handleStreamRequest bifrost ctx req ChatCompletionStreamRequest log.

Definition Bifrost_EmbeddingRequest (bifrost : Bifrost) (ctx : option Context)
    (req : BifrostRequest) (log : Log) : outcome BifrostResponse * Log :=
  if isNil (EmbeddingInput (Input req))
  then inputMissing "embedding input not provided for embedding request" log
  else handleRequest bifrost ctx req EmbeddingRequest log.

Definition Bifrost_SpeechRequest (bifrost : Bifrost) (ctx : option Context)
    (req : BifrostRequest) (log : Log) : outcome BifrostResponse * Log :=
  if isNil (SpeechInput (Input req))
  then inputMissing "speech input not provided for speech request" log
  else handleRequest bifrost ctx req SpeechRequest log.

Definition Bifrost_SpeechStreamRequest (bifrost : Bifrost) (ctx : option Context)
    (req : BifrostRequest) (log : Log) : outcome StreamChan * Log :=
  if isNil (SpeechInput (Input req))
  then inputMissing "speech input not provided for speech stream request" log
  else handleStreamRequest bifrost ctx req SpeechStreamRequest log.

Definition Bifrost_TranscriptionRequest (bifrost : Bifrost) (ctx : option Context)
    (req : BifrostRequest) (log : Log) : outcome BifrostResponse * Log :=
  if isNil (TranscriptionInput (Input req))
  then inputMissing "transcription input not provided for transcription request" log
  else handleRequest bifrost ctx req TranscriptionRequest log.

Definition Bifrost_TranscriptionStreamRequest (bifrost : Bifrost) (ctx : option Context)
    (req : BifrostRequest) (log : Log) : outcome StreamChan * Log :=
  if isNil (TranscriptionInput (Input req))
  then inputMissing "transcription input not provided for transcription stream request" log
  else handleStreamRequest bifrost ctx req TranscriptionStreamRequest log.

End Core.

(* ================================================================= *)
(** ** Hot reconfiguration: handing the buffered messages over *)

(** Where the transfer loop of [UpdateProviderConcurrency] leaves the
    messages that were buffered in the old queue. *)
Record Transfer (M : Type) := {
  newQueue : list M;             (* forwarded, in order *)
  transferredCount : Z;
  timedOut : list M;             (* handed to a transfer goroutine *)
  leftInOldQueue : list M        (* never received from the old queue *)
}.
Arguments newQueue {M} _.
Arguments transferredCount {M} _.
Arguments timedOut {M} _.
Arguments leftInOldQueue {M} _.

(** The transfer loop.  A receive from the old queue is ready while it holds
    a message, a send on the new queue while it holds fewer than [capacity].
    The first message that does not fit is given to a goroutine and the loop
    is left ([goto transferComplete]).  The goroutine cannot succeed: the new
    queue is full and has no receiver before the new workers are started,
    which happens after the wait for the goroutine; so its timer fires and
    it sends the error on the message's error channel. *)
Fixpoint transferBuffered {M : Type} (oldQueue : list M) (capacity : Z)
    (newQueue : list M) (transferredCount : Z) : Transfer M :=
  match oldQueue with
  | [] =>                                                 (* default: *)
      {| newQueue := newQueue; transferredCount := transferredCount;
         timedOut := []; leftInOldQueue := [] |}
  | msg :: rest =>
      if len newQueue <? capacity
      then transferBuffered rest capacity (newQueue ++ [msg]) (transferredCount + 1)
      else {| newQueue := newQueue; transferredCount := transferredCount;
              timedOut := [msg]; leftInOldQueue := rest |}
  end.

Definition errTransferTimeout : BifrostError :=
  plainError "request failed during provider concurrency update" None.

(** Steps 1 and 2 of [UpdateProviderConcurrency]; making a channel of
    negative size panics. *)
Definition UpdateProviderConcurrency_transfer {M : Type} (oldQueue : list M)
    (providerConfig : ProviderConfig) : result (Transfer M) :=
  let bufferSize := BufferSize (concurrencyAndBufferSize providerConfig) in
  if bufferSize <? 0 then Panic "makechan: size out of range"
  else Ok (transferBuffered oldQueue bufferSize [] 0).

(* ================================================================= *)
(** ** A small installation to run the engine on *)

Module Sample.

(** Providers that need no credential. *)
Definition requiresKey (p : ModelProvider) : bool :=
  negb (String.eqb p Vertex || String.eqb p Ollama).

Definition validate (req : BifrostRequest) : option BifrostError :=
  if String.eqb (ReqProvider req) "" then Some (newBifrostErrorFromMsg "provider is required")
  else if String.eqb (Model req) "" then Some (newBifrostErrorFromMsg "model is required")
  else None.

Definition key (value : string) (models : list string) (weight : float) : Key :=
  {| Value := value; Models := models; Weight := weight |}.

Definition config (maxRetries : Z) : ProviderConfig :=
  {| networkConfig := {| MaxRetries := maxRetries |};
     concurrencyAndBufferSize := {| Concurrency := 2; BufferSize := 10 |} |}.

(** An account with the given keys and retry budget for every provider. *)
Definition accountWith (keys : list Key) (maxRetries : Z) : Account :=
  {| GetConfigForProvider := fun _ => inr (config maxRetries);
     GetKeysForProvider := fun _ => inr keys |}.

Definition response (id : string) : BifrostResponse := {| ID := id |}.

Definition statusError (code : Z) : BifrostError :=
  {| IsBifrostError := false; StatusCode := Some code;
     Error := {| Type_ := None; Message := "upstream failure"; Cause := None |};
     AllowFallbacks := None; Provider := "" |}.

(** An adapter that gives its [n]-th answer to its [n]-th call, whatever the
    operation; a streamed answer is a stream of one element. *)
Definition scripted (tag : ModelProvider)
    (answers : list (option BifrostResponse * option BifrostError)) : Adapter :=
  let op : Operation := fun n _ _ _ => nth n answers (None, None) in
  let sop : StreamOperation := fun n _ _ _ =>
    match nth n answers (None, None) with
    | (Some r, e) => (Some [ {| StreamResponse := Some r; StreamError := None |} ], e)
    | (None, e) => (None, e)
    end in
  {| GetProviderKey := tag;
     TextCompletion := op; ChatCompletion := op; Embedding := op;
     Speech := op; Transcription := op;
     ChatCompletionStream := sop; SpeechStream := sop; TranscriptionStream := sop |}.

(** A queue with room, whose workers call [provider]. *)
Definition openQueue (provider : Adapter) : Queue :=
  {| hasSpace := fun _ => true; pickSend := fun _ => true; horizon := 0;
     publishInstant := 0; workers := 2; adapter := provider; randSrc := 0 |}.

(** A full queue that gets room at instant [freeAt] (never, if that is
    beyond the horizon). *)
Definition fullQueue (provider : Adapter) (freeAt horizon : nat) : Queue :=
  {| hasSpace := fun t => Nat.eqb t freeAt; pickSend := fun _ => true;
     horizon := horizon; publishInstant := 0; workers := 2; adapter := provider;
     randSrc := 0 |}.

Definition engine (plugins : list Plugin) (manager : option MCPManager)
    (queues : ModelProvider -> string + Queue) (maxRetries : Z) : Bifrost :=
  {| account := accountWith [key "sk-1" [] 1] maxRetries;
     bifrostPlugins := plugins;
     mcpManager := manager;
     dropExcessRequests := false;
     getProviderQueue := queues |}.

Definition noInput : RequestInput :=
  {| TextCompletionInput := None; ChatCompletionInput := None;
     EmbeddingInput := None; SpeechInput := None; TranscriptionInput := None |}.

Definition chatInput : RequestInput :=
  {| TextCompletionInput := None; ChatCompletionInput := Some ["hi"];
     EmbeddingInput := None; SpeechInput := None; TranscriptionInput := None |}.

Definition chat (provider : ModelProvider) (model : string)
    (fallbacks : list Fallback) : BifrostRequest :=
  {| ReqProvider := provider; Model := model; Input := chatInput;
     Params := None; Fallbacks := fallbacks |}.

(** A plugin that leaves everything as it is. *)
Definition passive (name : string) : Plugin :=
  {| GetName := name;
     PreHook := fun ctx req => (ctx, req, None, None);
     PostHook := fun ctx resp err => (ctx, resp, err, None) |}.

(** A plugin whose pre-hook short-circuits with [sc]. *)
Definition shortCircuiting (name : string) (sc : PluginShortCircuit) : Plugin :=
  {| GetName := name;
     PreHook := fun ctx req => (ctx, req, Some sc, None);
     PostHook := fun ctx resp err => (ctx, resp, err, None) |}.

Definition singleQueue (provider : Adapter) : ModelProvider -> string + Queue :=
  fun _ => inr (openQueue provider).

(** A post-hook that invents an empty error next to the response. *)
Definition emptyErrorPlugin : Plugin :=
  {| GetName := "empty-error";
     PreHook := fun ctx req => (ctx, req, None, None);
     PostHook := fun ctx resp _ => (ctx, resp, Some (plainError "" None), None) |}.

Definition transcriptionInput : RequestInput :=
  {| TextCompletionInput := None; ChatCompletionInput := None;
     EmbeddingInput := None; SpeechInput := None;
     TranscriptionInput := Some "audio" |}.

Definition transcription (provider : ModelProvider) (model : string) : BifrostRequest :=
  {| ReqProvider := provider; Model := model; Input := transcriptionInput;
     Params := None; Fallbacks := [] |}.

(** A tool manager that offers the one tool [echo]. *)
Definition echoManager : MCPManager :=
  {| addMCPToolsToBifrostRequest := fun req =>
       {| ReqProvider := ReqProvider req; Model := Model req; Input := Input req;
          Params := Some {| Tools := match Params req with
                                     | Some ps => Tools ps ++ ["echo"]
                                     | None => ["echo"]
                                     end |};
          Fallbacks := Fallbacks req |} |}.

(** The request of the retry scenario: the adapter fails with 503, then
    answers [r2]; two retries are allowed. *)
Definition flakyAdapter : Adapter :=
  scripted OpenAI [(None, Some (statusError 503)); (Some (response "r2"), None)].

Definition flakyEngine : Bifrost :=
  engine [] None (singleQueue flakyAdapter) 2.

Definition steadyAdapter (tag : ModelProvider) (id : string) : Adapter :=
  scripted tag (repeat (Some (response id), None) 8).

(** Three plugins, the second of which answers from a cache. *)
Definition cachingPlugins : list Plugin :=
  [ passive "audit";
    shortCircuiting "cache" {| Response := Some (response "cached");
                               ShortCircuitError := None |};
    passive "metrics" ].

Definition cachingEngine : Bifrost :=
  engine cachingPlugins None (singleQueue (steadyAdapter OpenAI "r1")) 0.

(** One plugin in front of an adapter whose stream cannot be set up. *)
Definition failingStreamEngine : Bifrost :=
  engine [passive "audit"] None
         (singleQueue (scripted OpenAI [(None, Some (statusError 500))])) 0.




(** A token that has fired from the start. *)
Definition cancelledCtx : Context := {| Done := fun _ => true |}.

(** A token that fires at instant [t]. *)
Definition firesAt (t : nat) : Context := {| Done := fun u => Nat.leb t u |}.

(** A plugin whose pre-hook replaces the context of the request, as one
    that sets a deadline does. *)
Definition installing (ctx : Context) : Plugin :=
  {| GetName := "deadline";
     PreHook := fun _ req => (ctx, req, None, None);
     PostHook := fun c resp err => (c, resp, err, None) |}.



(** ... and that engine with the drop-excess flag unset. *)
Definition parkingDeadlineEngine : Bifrost :=
  {| account := accountWith [key "sk-1" [] 1] 0;
     bifrostPlugins := [installing (firesAt 2)];
     mcpManager := None;
     dropExcessRequests := false;
     getProviderQueue := fun _ => inr (fullQueue (steadyAdapter OpenAI "r1") 99 3) |}.

End Sample.


(* ================================================================= *)
(** ** Further vocabulary *)

(** The sum of the scaled weights, without the wrap-around. *)
Definition sumWeights (keys : list Key) : Z :=
  fold_right (fun key acc => scaledWeight key + acc) 0 keys.

(** A runner that only adds post-hook events to the log. *)
Definition runsPostHooksOnly (runner : PostHookRunner) : Prop :=
  forall ctx resp err log,
  exists l, snd (runner ctx resp err log) = log ++ map EvPostHook l.

Definition isSleep (e : Event) : bool :=
  match e with EvSleep _ => true | _ => false end.

(* ================================================================= *)
(** ** Object pools *)

(** [sync.Pool]: [Get] removes and returns some pooled object, or makes a new
    one; which, is the pool's choice ([pick]).  [Put] adds an object. *)
Definition poolGet {A : Type} (pool : list A) (pick : option nat) (new : A)
    : A * list A :=
  match pick with
  | Some i =>
      match nth_error pool i with
      | Some x => (x, firstn i pool ++ skipn (S i) pool)
      | None => (new, pool)
      end
  | None => (new, pool)
  end.

Definition poolPut {A : Type} (pool : list A) (x : A) : list A := x :: pool.

(** [resetPluginPipeline] *)
Definition resetPluginPipeline (p : PluginPipeline) : PluginPipeline :=
  {| plugins := plugins p; executedPreHooks := 0;
     preHookErrors := []; postHookErrors := [] |}.

(** The [New] of the pipeline pool. *)
Definition newPluginPipeline : PluginPipeline :=
  {| plugins := []; executedPreHooks := 0; preHookErrors := []; postHookErrors := [] |}.

(** [getPluginPipeline], with the pool it takes the pipeline from. *)
Definition getPluginPipelineFromPool (bifrost : Bifrost) (pool : list PluginPipeline)
    (pick : option nat) : PluginPipeline * list PluginPipeline :=
  let '(pipeline, pool) := poolGet pool pick newPluginPipeline in
  (resetPluginPipeline
     {| plugins := bifrostPlugins bifrost;
        executedPreHooks := executedPreHooks pipeline;
        preHookErrors := preHookErrors pipeline;
        postHookErrors := postHookErrors pipeline |},
   pool).

(** [releasePluginPipeline] *)
Definition releasePluginPipeline (pool : list PluginPipeline) (pipeline : PluginPipeline)
    : list PluginPipeline :=
  poolPut pool (resetPluginPipeline pipeline).

(** A channel with a buffer of one element: [nil], or a channel given by
    its content. *)
Definition Chan1 (V : Type) : Type := option (option V).

Definition makeChan1 {V : Type} : Chan1 V := Some None.

(** [select { case <-c: default: }]: the channel afterwards.  Nothing is
    ever received from a [nil] channel. *)
Definition drain {V : Type} (c : Chan1 V) : Chan1 V :=
  match c with
  | Some _ => Some None
  | None => None
  end.

Definition isEmptyChan {V : Type} (c : Chan1 V) : Prop := c = Some None.

(** A [ChannelMessage] as the pool holds it, with its channel fields.  A
    pooled message may have the zero request type. *)
Record PooledMessage := {
  pmRequest : option BifrostRequest;
  pmContext : option Context;
  pmResponse : Chan1 (option BifrostResponse);
  pmResponseStream : Chan1 (option StreamChan);
  pmErr : Chan1 BifrostError;
  pmType : option RequestType
}.

Definition zeroPooledMessage : PooledMessage :=
  {| pmRequest := None; pmContext := None; pmResponse := None;
     pmResponseStream := None; pmErr := None; pmType := None |}.

Record Pools := {
  channelMessagePool : list PooledMessage;
  responseChannelPool : list (Chan1 (option BifrostResponse));
  errorChannelPool : list (Chan1 BifrostError);
  responseStreamPool : list (Chan1 (option StreamChan))
}.

(** The four choices the pools make during one [getChannelMessage]. *)
Record Picks := {
  pickResponse : option nat;
  pickError : option nat;
  pickMessage : option nat;
  pickStream : option nat
}.

(** [getChannelMessage] *)
Definition getChannelMessage (pools : Pools) (picks : Picks) (req : BifrostRequest)
    (reqType : RequestType) : PooledMessage * Pools :=
  let '(responseChan, responses) :=
    poolGet (responseChannelPool pools) (pickResponse picks) makeChan1 in
  let '(errorChan, errors) :=
    poolGet (errorChannelPool pools) (pickError picks) makeChan1 in
  let responseChan := drain responseChan in
  let errorChan := drain errorChan in
  let '(msg, messages) :=
    poolGet (channelMessagePool pools) (pickMessage picks) zeroPooledMessage in
  if isStreamRequestType reqType then
    let '(responseStreamChan, streams) :=
      poolGet (responseStreamPool pools) (pickStream picks) makeChan1 in
    ({| pmRequest := Some req; pmContext := pmContext msg;
        pmResponse := responseChan;
        pmResponseStream := drain responseStreamChan;
        pmErr := errorChan; pmType := Some reqType |},
     {| channelMessagePool := messages; responseChannelPool := responses;
        errorChannelPool := errors; responseStreamPool := streams |})
  else
    ({| pmRequest := Some req; pmContext := pmContext msg;
        pmResponse := responseChan;
        pmResponseStream := pmResponseStream msg;
        pmErr := errorChan; pmType := Some reqType |},
     {| channelMessagePool := messages; responseChannelPool := responses;
        errorChannelPool := errors; responseStreamPool := responseStreamPool pools |}).

(** [releaseChannelMessage].  The response and error channels go back as
    they are, [nil] or not, drained or not; the stream channel only if it is
    not [nil], and drained. *)
Definition releaseChannelMessage (pools : Pools) (msg : PooledMessage) : Pools :=
  {| channelMessagePool :=
       poolPut (channelMessagePool pools)
               {| pmRequest := pmRequest msg; pmContext := pmContext msg;
                  pmResponse := None; pmResponseStream := None; pmErr := None;
                  pmType := pmType msg |};
     responseChannelPool := poolPut (responseChannelPool pools) (pmResponse msg);
     errorChannelPool := poolPut (errorChannelPool pools) (pmErr msg);
     responseStreamPool :=
       match pmResponseStream msg with
       | Some _ => poolPut (responseStreamPool pools) (drain (pmResponseStream msg))
       | None => responseStreamPool pools
       end |}.

(** The pools are in order: the pooled messages hold no channel, and no
    channel pool holds a [nil] channel. *)
Definition poolsInOrder (pools : Pools) : Prop :=
  (forall msg, In msg (channelMessagePool pools) ->
               pmResponse msg = None /\ pmResponseStream msg = None /\ pmErr msg = None)
  /\ (forall c, In c (responseChannelPool pools) -> c <> None)
  /\ (forall c, In c (errorChannelPool pools) -> c <> None)
  /\ (forall c, In c (responseStreamPool pools) -> c <> None).

(** A message as [getChannelMessage] hands it out. *)
Definition checkedOut (reqType : RequestType) (msg : PooledMessage) : Prop :=
  isEmptyChan (pmResponse msg)
  /\ isEmptyChan (pmErr msg)
  /\ (if isStreamRequestType reqType
      then isEmptyChan (pmResponseStream msg)
      else pmResponseStream msg = None).

(* ================================================================= *)
(** ** Provider queues and their life cycle *)

Module Lifecycle.

(** Modelled from the spec: the tags of the remaining providers, canonical
    and lowercase (core/schemas is not part of the sources). *)
Definition Bedrock : ModelProvider := "bedrock".
Definition Cohere : ModelProvider := "cohere".
Definition Azure : ModelProvider := "azure".
Definition Mistral : ModelProvider := "mistral".
Definition Groq : ModelProvider := "groq".
Definition SGL : ModelProvider := "sgl".

(** A buffered channel: capacity, buffered elements (oldest first), and
    whether it has been closed. *)
Record Chan (M : Type) := {
  chanCapacity : Z;
  chanItems : list M;
  chanClosed : bool
}.
Arguments chanCapacity {M} _.
Arguments chanItems {M} _.
Arguments chanClosed {M} _.

(** [make(chan M, size)] *)
Definition makeChan {M : Type} (size : Z) : result (Chan M) :=
  if size <? 0 then Panic "makechan: size out of range"
  else Ok {| chanCapacity := size; chanItems := []; chanClosed := false |}.

(** A send in a [select] with a [default], on an open channel that nobody
    receives from: ready while the buffer has room. *)
Definition trySend {M : Type} (c : Chan M) (m : M) : option (Chan M) :=
  if len (chanItems c) <? chanCapacity c
  then Some {| chanCapacity := chanCapacity c; chanItems := chanItems c ++ [m];
               chanClosed := chanClosed c |}
  else None.

(** A receive in a [select] with a [default]: the oldest buffered element;
    from a closed and empty channel, the zero value; otherwise not ready. *)
Definition tryRecv {M : Type} (zero : M) (c : Chan M) : option (M * Chan M) :=
  match chanItems c with
  | m :: rest =>
      Some (m, {| chanCapacity := chanCapacity c; chanItems := rest;
                  chanClosed := chanClosed c |})
  | [] => if chanClosed c then Some (zero, c) else None
  end.

(** [close(c)] *)
Definition closeChan {M : Type} (c : Chan M) : result (Chan M) :=
  if chanClosed c then Panic "close of closed channel"
  else Ok {| chanCapacity := chanCapacity c; chanItems := chanItems c;
             chanClosed := true |}.

(** The state of the transfer loop when it is left. *)
Record Handover (M : Type) := {
  oldAfter : Chan M;
  newAfter : Chan M;
  transferred : Z;
  overflow : option M          (* the message given to a transfer goroutine *)
}.
Arguments oldAfter {M} _.
Arguments newAfter {M} _.
Arguments transferred {M} _.
Arguments overflow {M} _.

(** The transfer loop of [UpdateProviderConcurrency] on the channels
    themselves; [None] when [fuel] turns do not end it. *)
Fixpoint transferLoop {M : Type} (zero : M) (fuel : nat) (oldQueue newQueue : Chan M)
    (transferredCount : Z) : option (Handover M) :=
  match fuel with
  | O => None
  | S fuel' =>
      match tryRecv zero oldQueue with
      | Some (msg, oldQueue') =>
          match trySend newQueue msg with
          | Some newQueue' =>
              transferLoop zero fuel' oldQueue' newQueue' (transferredCount + 1)
          | None =>
              Some {| oldAfter := oldQueue'; newAfter := newQueue;
                      transferred := transferredCount; overflow := Some msg |}
          end
      | None =>
          Some {| oldAfter := oldQueue; newAfter := newQueue;
                  transferred := transferredCount; overflow := None |}
      end
  end.

(** The constructors of the adapters, which are not part of the sources but
    for Ollama's.  Four of them cannot fail. *)
Record Constructors := {
  NewOpenAIProvider : ProviderConfig -> Adapter;
  NewAnthropicProvider : ProviderConfig -> Adapter;
  NewBedrockProvider : ProviderConfig -> string + Adapter;
  NewCohereProvider : ProviderConfig -> Adapter;
  NewAzureProvider : ProviderConfig -> string + Adapter;
  NewVertexProvider : ProviderConfig -> string + Adapter;
  NewMistralProvider : ProviderConfig -> Adapter;
  NewOllamaProvider : ProviderConfig -> string + Adapter;
  NewGroqProvider : ProviderConfig -> string + Adapter;
  NewSGLProvider : ProviderConfig -> string + Adapter
}.

(** [createProviderFromProviderKey] *)
Definition createProviderFromProviderKey (new : Constructors)
    (providerKey : ModelProvider) (config : ProviderConfig) : string + Adapter :=
  if String.eqb providerKey OpenAI then inr (NewOpenAIProvider new config)
  else if String.eqb providerKey Anthropic then inr (NewAnthropicProvider new config)
  else if String.eqb providerKey Bedrock then NewBedrockProvider new config
  else if String.eqb providerKey Cohere then inr (NewCohereProvider new config)
  else if String.eqb providerKey Azure then NewAzureProvider new config
  else if String.eqb providerKey Vertex then NewVertexProvider new config
  else if String.eqb providerKey Mistral then inr (NewMistralProvider new config)
  else if String.eqb providerKey Ollama then NewOllamaProvider new config
  else if String.eqb providerKey Groq then NewGroqProvider new config
  else if String.eqb providerKey SGL then NewSGLProvider new config
  else inl ("unsupported provider: " ++ providerKey)%string.

(** What the engine keeps for a provider: the queue under [requestQueues],
    and under [waitGroups] the count of the workers that range over it,
    with the adapter they call. *)
Record Slot (M : Type) := {
  slotQueue : Chan M;
  slotWorkers : nat;
  slotProvider : option Adapter
}.
Arguments slotQueue {M} _.
Arguments slotWorkers {M} _.
Arguments slotProvider {M} _.

Definition Registry (M : Type) : Type := list (ModelProvider * Slot M).

(** [Load] and [Store] of [sync.Map]. *)
Fixpoint load {M : Type} (reg : Registry M) (providerKey : ModelProvider)
    : option (Slot M) :=
  match reg with
  | [] => None
  | (p, slot) :: rest =>
      if String.eqb p providerKey then Some slot else load rest providerKey
  end.

Fixpoint store {M : Type} (reg : Registry M) (providerKey : ModelProvider)
    (slot : Slot M) : Registry M :=
  match reg with
  | [] => [(providerKey, slot)]
  | (p, old) :: rest =>
      if String.eqb p providerKey then (p, slot) :: rest
      else (p, old) :: store rest providerKey slot
  end.

(** The number of workers [for range n] starts. *)
Definition workersFor (providerConfig : ProviderConfig) : nat :=
  Z.to_nat (Concurrency (concurrencyAndBufferSize providerConfig)).

(** [prepareProvider]: the error it returns, if any, and the registry it
    leaves.  The queue is stored before the adapter is created. *)
Definition prepareProvider {M : Type} (account : Account) (new : Constructors)
    (reg : Registry M) (providerKey : ModelProvider) (config : ProviderConfig)
    : result (option string * Registry M) :=
  match GetConfigForProvider account providerKey with
  | inl err => Ok (Some ("failed to get config for provider: " ++ err)%string, reg)
  | inr providerConfig =>
      match makeChan (BufferSize (concurrencyAndBufferSize providerConfig)) with
      | Ok queue =>
          let reg := store reg providerKey
                       {| slotQueue := queue; slotWorkers := 0; slotProvider := None |} in
          match createProviderFromProviderKey new providerKey config with
          | inl err =>
              Ok (Some ("failed to create provider for the given key: " ++ err)%string,
                  reg)
          | inr provider =>
              Ok (None,
                  store reg providerKey
                    {| slotQueue := queue; slotWorkers := workersFor providerConfig;
                       slotProvider := Some provider |})
          end
      | Err msg => Panic msg
      | Panic msg => Panic msg
      end
  end.

(** [getProviderQueue]: the queue or the error, and the registry. *)
Definition getProviderQueue {M : Type} (account : Account) (new : Constructors)
    (reg : Registry M) (providerKey : ModelProvider)
    : result ((string + Chan M) * Registry M) :=
  match load reg providerKey with
  | Some slot => Ok (inr (slotQueue slot), reg)
  | None =>
      match GetConfigForProvider account providerKey with
      | inl err => Ok (inl ("failed to get config for provider: " ++ err)%string, reg)
      | inr config =>
          match prepareProvider account new reg providerKey config with
          | Ok (Some err, reg) => Ok (inl err, reg)
          | Ok (None, reg) =>
              match load reg providerKey with
              | Some slot => Ok (inr (slotQueue slot), reg)
              | None => Panic "interface conversion: interface is nil"
              end
          | Err msg => Panic msg
          | Panic msg => Panic msg
          end
      end
  end.

(** What became of the messages that were buffered when the queue was
    replaced. *)
Record Report (M : Type) := {
  forwarded : list M;            (* now in the new queue *)
  failedTransfer : option M;     (* answered with the transfer error *)
  leftToOldWorkers : list M      (* still in the closed old queue *)
}.
Arguments forwarded {M} _.
Arguments failedTransfer {M} _.
Arguments leftToOldWorkers {M} _.

(** [UpdateProviderConcurrency]: the error it returns, if any, the registry
    it leaves, and the report on the buffered messages when a queue was
    replaced. *)
Definition UpdateProviderConcurrency {M : Type} (zero : M) (account : Account)
    (new : Constructors) (reg : Registry M) (providerKey : ModelProvider)
    : result (option string * Registry M * option (Report M)) :=
  match GetConfigForProvider account providerKey with
  | inl err =>
      Ok (Some ("failed to get updated config for provider " ++ providerKey
                ++ ": " ++ err)%string, reg, None)
  | inr providerConfig =>
      match load reg providerKey with
      | None =>
          match prepareProvider account new reg providerKey providerConfig with
          | Ok (err, reg) => Ok (err, reg, None)
          | Err msg => Panic msg
          | Panic msg => Panic msg
          end
      | Some old =>
          let bufferSize := BufferSize (concurrencyAndBufferSize providerConfig) in
          match makeChan bufferSize with
          | Ok newQueue =>
              match transferLoop zero (S (Z.to_nat bufferSize)) (slotQueue old)
                                 newQueue 0 with
              | Some h =>
                  match closeChan (oldAfter h) with
                  | Ok closed =>
                      let report := {| forwarded := chanItems (newAfter h);
                                       failedTransfer := overflow h;
                                       leftToOldWorkers := chanItems closed |} in
                      let reg := store reg providerKey
                                   {| slotQueue := newAfter h; slotWorkers := 0;
                                      slotProvider := None |} in
                      match createProviderFromProviderKey new providerKey
                                                          providerConfig with
                      | inl err =>
                          Ok (Some ("failed to create provider instance for "
                                    ++ providerKey ++ ": " ++ err)%string,
                              reg, Some report)
                      | inr provider =>
                          Ok (None,
                              store reg providerKey
                                {| slotQueue := newAfter h;
                                   slotWorkers := workersFor providerConfig;
                                   slotProvider := Some provider |},
                              Some report)
                      end
                  | Err msg => Panic msg
                  | Panic msg => Panic msg
                  end
              | None => Err "the transfer loop did not end"
              end
          | Err msg => Panic msg
          | Panic msg => Panic msg
          end
      end
  end.

(** The first loop of [Cleanup]: every queue is closed.  (The workers then
    finish what is buffered and leave.) *)
Fixpoint Cleanup {M : Type} (reg : Registry M) : result (Registry M) :=
  match reg with
  | [] => Ok []
  | (p, slot) :: rest =>
      match closeChan (slotQueue slot) with
      | Ok closed =>
          match Cleanup rest with
          | Ok rest' =>
              Ok ((p, {| slotQueue := closed; slotWorkers := slotWorkers slot;
                         slotProvider := slotProvider slot |}) :: rest')
          | Err msg => Err msg
          | Panic msg => Panic msg
          end
      | Err msg => Panic msg
      | Panic msg => Panic msg
      end
  end.

(** The loop of [Init] over the configured providers: one without a
    configuration is skipped, an error of [prepareProvider] is only
    logged. *)
Fixpoint initProviders {M : Type} (account : Account) (new : Constructors)
    (providerKeys : list ModelProvider) (reg : Registry M) : result (Registry M) :=
  match providerKeys with
  | [] => Ok reg
  | providerKey :: rest =>
      match GetConfigForProvider account providerKey with
      | inl _ => initProviders account new rest reg
      | inr config =>
          match prepareProvider account new reg providerKey config with
          | Ok (_, reg) => initProviders account new rest reg
          | Err msg => Panic msg
          | Panic msg => Panic msg
          end
      end
  end.

(** [Init], as far as the providers go: the error it returns, or the
    registry of the new engine.  [configured] is the answer of
    [GetConfiguredProviders]. *)
Definition Init {M : Type} (account : option Account)
    (configured : string + list ModelProvider) (new : Constructors)
    : result (string + Registry M) :=
  match account with
  | None => Ok (inl "account is required to initialize Bifrost")
  | Some account =>
      match configured with
      | inl err => Ok (inl err)
      | inr providerKeys =>
          match initProviders account new providerKeys [] with
          | Ok reg => Ok (inr reg)
          | Err msg => Err msg
          | Panic msg => Panic msg
          end
      end
  end.

(** The slot [prepareProvider] leaves for a provider whose fetched
    configuration is [providerConfig], when it creates the adapter from
    [config]. *)
Definition preparedSlot {M : Type} (new : Constructors) (providerKey : ModelProvider)
    (providerConfig config : ProviderConfig) : Slot M :=
  match createProviderFromProviderKey new providerKey config with
  | inl _ =>
      {| slotQueue := {| chanCapacity := BufferSize (concurrencyAndBufferSize providerConfig);
                         chanItems := []; chanClosed := false |};
         slotWorkers := 0; slotProvider := None |}
  | inr provider =>
      {| slotQueue := {| chanCapacity := BufferSize (concurrencyAndBufferSize providerConfig);
                         chanItems := []; chanClosed := false |};
         slotWorkers := workersFor providerConfig; slotProvider := Some provider |}
  end.

(** Every queue of the registry is open. *)
Definition allOpen {M : Type} (reg : Registry M) : Prop :=
  forall providerKey slot, In (providerKey, slot) reg -> chanClosed (slotQueue slot) = false.

End Lifecycle.

(* ================================================================= *)
(** ** The HTTP transport's configuration: keys from the environment *)

Module lib.

(** [strings.CutPrefix], from which [HasPrefix] and [TrimPrefix] follow. *)
Fixpoint CutPrefix (s prefix : string) : option string :=
  match prefix, s with
  | EmptyString, _ => Some s
  | String a prefix', String b s' =>
      if Ascii.eqb a b then CutPrefix s' prefix' else None
  | String _ _, EmptyString => None
  end.

Definition HasPrefix (s prefix : string) : bool :=
  match CutPrefix s prefix with Some _ => true | None => false end.

Definition TrimPrefix (s prefix : string) : string :=
  match CutPrefix s prefix with Some rest => rest | None => s end.

Record MCPClientConfig := {
  Name : string;
  ConnectionString : option string
}.

Record MCPConfig := {
  ClientConfigs : list MCPClientConfig
}.

(** Of [BifrostHTTPConfig], the part [ReadMCPKeys] works on. *)
Record BifrostHTTPConfig := {
  mcpConfig : option MCPConfig
}.

(** The environment: [os.Getenv], which gives the empty string for a
    variable that is not set. *)
Definition Environment : Type := string -> string.

(** The helper [replaceEnvValue] of [ReadMCPKeys]. *)
Definition replaceEnvValue (Getenv : Environment) (value : string) : string + string :=
  if HasPrefix value "env." then
    let envKey := TrimPrefix value "env." in
    let envValue := Getenv envKey in
    if negb (String.eqb envValue "") then inr envValue
    else inl ("environment variable " ++ envKey ++ " not found in the environment")%string
  else inr value.

(** The loop of [ReadMCPKeys] over the client configurations, which are
    updated in place: the error, if any, and the configurations as the loop
    leaves them. *)
Fixpoint readClientConfigs (Getenv : Environment) (clientConfigs : list MCPClientConfig)
    : option string * list MCPClientConfig :=
  match clientConfigs with
  | [] => (None, [])
  | clientConfig :: rest =>
      match ConnectionString clientConfig with
      | Some value =>
          match replaceEnvValue Getenv value with
          | inl err =>
              (Some ("MCP client " ++ Name clientConfig ++ ": " ++ err)%string,
               clientConfig :: rest)
          | inr newValue =>
              let (err, rest') := readClientConfigs Getenv rest in
              (err, {| Name := Name clientConfig; ConnectionString := Some newValue |}
                    :: rest')
          end
      | None =>
          let (err, rest') := readClientConfigs Getenv rest in
          (err, clientConfig :: rest')
      end
  end.

(** [ReadMCPKeys]: the error it returns, if any, and the configuration
    afterwards. *)
Definition ReadMCPKeys (Getenv : Environment) (config : BifrostHTTPConfig)
    : option string * BifrostHTTPConfig :=
  match mcpConfig config with
  | None => (None, config)
  | Some mcp =>
      let (err, clientConfigs) := readClientConfigs Getenv (ClientConfigs mcp) in
      (err, {| mcpConfig := Some {| ClientConfigs := clientConfigs |} |})
  end.

(** What a client configuration becomes when its connection string is
    looked up. *)
Definition lookedUp (Getenv : Environment) (c : MCPClientConfig) : MCPClientConfig :=
  {| Name := Name c;
     ConnectionString :=
       match ConnectionString c with
       | Some value =>
           Some (if HasPrefix value "env." then Getenv (TrimPrefix value "env.")
                 else value)
       | None => None
       end |}.

(** The connection string of [c] names no variable that is missing. *)
Definition available (Getenv : Environment) (c : MCPClientConfig) : Prop :=
  forall value, ConnectionString c = Some value ->
                HasPrefix value "env." = true ->
                Getenv (TrimPrefix value "env.") <> ""%string.

End lib.

(* ================================================================= *)
(** ** The Ollama adapter: its constructor *)

Module providers.

(** [strings.TrimRight(s, cutset)] for a cutset of ASCII characters. *)
Fixpoint TrimRight (s : string) (cutset : list ascii) : string :=
  match s with
  | EmptyString => EmptyString
  | String c rest =>
      match TrimRight rest cutset with
      | EmptyString =>
          if existsb (Ascii.eqb c) cutset then EmptyString else String c EmptyString
      | rest' => String c rest'
      end
  end.

(** Of the provider configuration, what the constructor's outcome depends
    on. *)
Record OllamaConfig := {
  BaseURL : string
}.

Record OllamaProvider := {
  ollamaNetworkConfig : OllamaConfig
}.

(** [NewOllamaProvider]; [CheckAndSetDefaults] is not part of the sources
    and is taken as given. *)
Definition NewOllamaProvider (CheckAndSetDefaults : OllamaConfig -> OllamaConfig)
    (config : OllamaConfig) : string + OllamaProvider :=
  let config := CheckAndSetDefaults config in
  let config := {| BaseURL := TrimRight (BaseURL config) ["/"%char] |} in
  if String.eqb (BaseURL config) "" then inl "base_url is required for ollama provider"
  else inr {| ollamaNetworkConfig := config |}.

(** The string is made of slashes only. *)
Fixpoint onlySlashes (s : string) : bool :=
  match s with
  | EmptyString => true
  | String c rest => Ascii.eqb c "/"%char && onlySlashes rest
  end.

(** The last character of a string, if any. *)
Fixpoint lastChar (s : string) : option ascii :=
  match s with
  | EmptyString => None
  | String c EmptyString => Some c
  | String _ rest => lastChar rest
  end.

End providers.

(* ================================================================= *)
(** ** The tag input of the user interface *)

Module TagInput.

(** A JavaScript string: its UTF-16 code units. *)
Definition jsstring : Type := list N.

Definition js (s : string) : jsstring :=
  List.map (fun c => N_of_ascii c) (list_ascii_of_string s).

Definition jsstring_eqb (a b : jsstring) : bool :=
  if list_eq_dec N.eq_dec a b then true else false.

(** White space and line terminators of ECMAScript, which [trim] strips. *)
Definition isWhiteSpace (c : N) : bool :=
  existsb (N.eqb c)
    [9; 10; 11; 12; 13; 32; 160; 5760; 8232; 8233; 8239; 8287; 12288; 65279]%N
  || ((8192 <=? c) && (c <=? 8202))%N.

Fixpoint trimStart (s : jsstring) : jsstring :=
  match s with
  | [] => []
  | c :: rest => if isWhiteSpace c then trimStart rest else s
  end.

(** [String.prototype.trim] *)
Definition trim (s : jsstring) : jsstring :=
  rev (trimStart (rev (trimStart s))).

(** [Array.prototype.includes] on strings *)
Definition includes (value : list jsstring) (tag : jsstring) : bool :=
  existsb (jsstring_eqb tag) value.

(** What a handler does: the value it passes to [onValueChange], the text
    it passes to [setInputValue], whether it calls [preventDefault]. *)
Record Effects := {
  onValueChange : option (list jsstring);
  setInputValue : option jsstring;
  preventDefault : bool
}.

(** [handleKeyDown], for the current [value] and [inputValue] and the key of
    the event. *)
Definition handleKeyDown (value : list jsstring) (inputValue : jsstring)
    (key : jsstring) : Effects :=
  if jsstring_eqb key (js "Enter") || jsstring_eqb key (js ",") then
    let newTag := trim inputValue in
    {| onValueChange :=
         if negb (jsstring_eqb newTag []) && negb (includes value newTag)
         then Some (value ++ [newTag]) else None;
       setInputValue := Some [];
       preventDefault := true |}
  else if jsstring_eqb key (js "Backspace") && jsstring_eqb inputValue []
          && (0 <? len value) then
    {| onValueChange := Some (removelast value);        (* value.slice(0, -1) *)
       setInputValue := None; preventDefault := false |}
  else {| onValueChange := None; setInputValue := None; preventDefault := false |}.

(** [removeTag] *)
Definition removeTag (value : list jsstring) (tagToRemove : jsstring) : Effects :=
  {| onValueChange :=
       Some (filter (fun tag => negb (jsstring_eqb tag tagToRemove)) value);
     setInputValue := None; preventDefault := false |}.

(** The tags are distinct, and each is a non-empty text without white space
    around it. *)
Definition wellFormed (value : list jsstring) : Prop :=
  NoDup value /\ Forall (fun tag => tag <> [] /\ trim tag = tag) value.

End TagInput.

(* ================================================================= *)
(** ** More of the installation *)

Module Installation.

Definition chatMessage (provider : ModelProvider) (model : string) : ChannelMessage :=
  {| msgRequest := Sample.chat provider model [];
     msgContext := backgroundCtx; msgType := ChatCompletionRequest |}.

(** An engine whose only key is for another model. *)
Definition otherModelEngine : Bifrost :=
  {| account := Sample.accountWith [Sample.key "sk-1" ["gpt-4"] 1] 0;
     bifrostPlugins := [];
     mcpManager := None;
     dropExcessRequests := false;
     getProviderQueue := Sample.singleQueue (Sample.steadyAdapter OpenAI "r1") |}.

(** An engine configured with a negative number of retries, in front of a
    local provider. *)
Definition negativeBudgetEngine : Bifrost :=
  Sample.engine [] None (Sample.singleQueue (Sample.steadyAdapter Ollama "r1")) (-1).

(** Two keys that support [gpt-4o], with weights 1 and 3. *)
Definition weightedKeys : list Key :=
  [Sample.key "sk-1" [] 1; Sample.key "sk-2" ["gpt-4o"] 3].








(** An engine that drops excess requests, with one plugin, in front of a
    queue that stays full. *)
Definition auditedDroppingEngine : Bifrost :=
  {| account := Sample.accountWith [Sample.key "sk-1" [] 1] 0;
     bifrostPlugins := [Sample.passive "audit"];
     mcpManager := None;
     dropExcessRequests := true;
     getProviderQueue :=
       fun _ => inr (Sample.fullQueue (Sample.steadyAdapter OpenAI "r1") 99 3) |}.



Definition emptyPools : Pools :=
  {| channelMessagePool := []; responseChannelPool := [];
     errorChannelPool := []; responseStreamPool := [] |}.

Definition newObjects : Picks :=
  {| pickResponse := None; pickError := None; pickMessage := None; pickStream := None |}.

(** Pools after some traffic: a released message that still names its last
    request, and channels given back with an unread answer, an unread error
    and an unread stream in them. *)
Definition usedPools : Pools :=
  {| channelMessagePool :=
       [{| pmRequest := Some (Sample.chat Anthropic "claude-3" []);
           pmContext := Some Sample.cancelledCtx;
           pmResponse := None; pmResponseStream := None; pmErr := None;
           pmType := Some ChatCompletionRequest |}];
     responseChannelPool := [Some (Some (Some (Sample.response "stale")))];
     errorChannelPool := [Some (Some errQueueFull); Some None];
     responseStreamPool := [Some (Some (Some []))] |}.

(** Every object is taken from its pool. *)
Definition pooledObjects : Picks :=
  {| pickResponse := Some 0%nat; pickError := Some 0%nat;
     pickMessage := Some 0%nat; pickStream := Some 0%nat |}.

(** Constructors of which the one for Ollama fails. *)
Definition constructors : Lifecycle.Constructors :=
  {| Lifecycle.NewOpenAIProvider := fun _ => Sample.steadyAdapter OpenAI "r1";
     Lifecycle.NewAnthropicProvider := fun _ => Sample.steadyAdapter Anthropic "r2";
     Lifecycle.NewBedrockProvider := fun _ => inr (Sample.steadyAdapter Lifecycle.Bedrock "r3");
     Lifecycle.NewCohereProvider := fun _ => Sample.steadyAdapter Lifecycle.Cohere "r4";
     Lifecycle.NewAzureProvider := fun _ => inr (Sample.steadyAdapter Lifecycle.Azure "r5");
     Lifecycle.NewVertexProvider := fun _ => inr (Sample.steadyAdapter Vertex "r6");
     Lifecycle.NewMistralProvider := fun _ => Sample.steadyAdapter Lifecycle.Mistral "r7";
     Lifecycle.NewOllamaProvider := fun _ => inl "base_url is required for ollama provider";
     Lifecycle.NewGroqProvider := fun _ => inr (Sample.steadyAdapter Lifecycle.Groq "r8");
     Lifecycle.NewSGLProvider := fun _ => inr (Sample.steadyAdapter Lifecycle.SGL "r9") |}.

(** An account that configures every provider but Groq, with queues of two
    messages. *)
Definition smallConfig : ProviderConfig :=
  {| networkConfig := {| MaxRetries := 0 |};
     concurrencyAndBufferSize := {| Concurrency := 3; BufferSize := 2 |} |}.

Definition smallAccount : Account :=
  {| GetConfigForProvider := fun p =>
       if String.eqb p Lifecycle.Groq then inl "not configured" else inr smallConfig;
     GetKeysForProvider := fun _ => inr [Sample.key "sk-1" [] 1] |}.

(** A registry in which OpenAI has three messages waiting. *)
Definition busyRegistry : Lifecycle.Registry string :=
  [(OpenAI, {| Lifecycle.slotQueue :=
                 {| Lifecycle.chanCapacity := 10; Lifecycle.chanItems := ["m1"; "m2"; "m3"];
                    Lifecycle.chanClosed := false |};
               Lifecycle.slotWorkers := 2;
               Lifecycle.slotProvider := Some (Sample.steadyAdapter OpenAI "r1") |})].

(** The registry after a first request for OpenAI. *)
Definition preparedRegistry : Lifecycle.Registry string :=
  [(OpenAI, {| Lifecycle.slotQueue :=
                 {| Lifecycle.chanCapacity := 2; Lifecycle.chanItems := [];
                    Lifecycle.chanClosed := false |};
               Lifecycle.slotWorkers := 3;
               Lifecycle.slotProvider := Some (Sample.steadyAdapter OpenAI "r1") |})].

(** [busyRegistry] after [Cleanup]. *)
Definition closedRegistry : Lifecycle.Registry string :=
  [(OpenAI, {| Lifecycle.slotQueue :=
                 {| Lifecycle.chanCapacity := 10; Lifecycle.chanItems := ["m1"; "m2"; "m3"];
                    Lifecycle.chanClosed := true |};
               Lifecycle.slotWorkers := 2;
               Lifecycle.slotProvider := Some (Sample.steadyAdapter OpenAI "r1") |})].

Definition environment : lib.Environment :=
  fun key => if String.eqb key "MCP_URL" then "http://localhost:3001" else "".

Definition clients : list lib.MCPClientConfig :=
  [ {| lib.Name := "files"; lib.ConnectionString := Some "env.MCP_URL" |};
    {| lib.Name := "local"; lib.ConnectionString := None |};
    {| lib.Name := "search"; lib.ConnectionString := Some "http://search:8080" |} ].

Definition brokenClients : list lib.MCPClientConfig :=
  [ {| lib.Name := "files"; lib.ConnectionString := Some "env.MCP_URL" |};
    {| lib.Name := "search"; lib.ConnectionString := Some "env.SEARCH_URL" |};
    {| lib.Name := "mail"; lib.ConnectionString := Some "env.MCP_URL" |} ].

End Installation.

(* ================================================================= *)
(** ** Vocabulary of the statements *)

(** The events of a run of the pre-hooks over the plugins [i], [i+1], ...:
    [k] pre-hooks in registration order, followed by the mark of the
    short-circuit if there was one. *)
Definition preEvents (i k : nat) (shortCircuit : option PluginShortCircuit) : Log :=
  map EvPreHook (seq i k)
  ++ match shortCircuit with
     | Some _ => [EvShortCircuit (i + k - 1)]
     | None => []
     end.

(** Events that are no hook. *)
Definition hookFree (evs : Log) : Prop := preHooksOf evs = [] /\ postHooksOf evs = [].

(** No plugin answers with a short-circuit that carries neither a response
    nor an error. *)
Definition neverEmptyShortCircuit (bifrost : Bifrost) : Prop :=
  forall plugin c r sc,
    In plugin (bifrostPlugins bifrost) ->
    snd (fst (PreHook plugin c r)) = Some sc ->
    Response sc <> None \/ ShortCircuitError sc <> None.


Section CascadeRuns.

Context {R : Type}.
Variable try : BifrostRequest -> Log -> outcome R * Log.
Variable bifrost : Bifrost.
Variable req : BifrostRequest.


End CascadeRuns.

(* ================================================================= *)
(** * Properties *)

(** ** Credential selector *)

Lemma len_zero_iff {A : Type} (l : list A) : (len l =? 0) = true <-> l = [].
Proof.
  unfold len. rewrite Z.eqb_eq. destruct l as [|a l]; simpl.
  - split; reflexivity.
  - split; [lia | discriminate].
Qed.

Lemma len_cons_nonzero {A : Type} (a : A) (l : list A) : (len (a :: l) =? 0) = false.
Proof.
  destruct (len (a :: l) =? 0) eqn:E; [|reflexivity].
  apply len_zero_iff in E. discriminate.
Qed.

Lemma slices_Contains_In (l : list string) (s : string) :
  slices_Contains l s = true <-> In s l.
Proof.
  unfold slices_Contains. rewrite existsb_exists. split.
  - intros [x [Hin Heq]]. apply String.eqb_eq in Heq. now subst.
  - intros Hin. exists s. split; [assumption | apply String.eqb_refl].
Qed.

(** The filter condition, read as a proposition. *)
Lemma keySupportsModel_spec (providerKey : ModelProvider) (model : string) (key : Key) :
  keySupportsModel providerKey model key = true <->
  Models key = [] \/
  (In model (Models key) /\
   (TrimSpace_nonempty (Value key) = true \/ providerKey = Vertex)).
Proof.
  unfold keySupportsModel.
  rewrite orb_true_iff, andb_true_iff, orb_true_iff.
  rewrite len_zero_iff, slices_Contains_In, String.eqb_eq. tauto.
Qed.

Lemma noKeys_messages_differ (providerKey : ModelProvider) (model : string) :
  noKeysForProvider providerKey <> noKeysForModel model.
Proof. unfold noKeysForProvider, noKeysForModel. simpl. discriminate. Qed.

Lemma walkWeights_In (supportedKeys : list Key) (randomValue currentWeight : Z) (key : Key) :
  walkWeights supportedKeys randomValue currentWeight = Some key -> In key supportedKeys.
Proof.
  revert currentWeight.
  induction supportedKeys as [|k rest IH]; intros cw H; simpl in H.
  - discriminate.
  - destruct (randomValue <? wrap64 (cw + scaledWeight k)).
    + injection H as ->. now left.
    + right. eapply IH. eassumption.
Qed.

(** Where the scaled weights sum to a positive total, the weighted branch
    returns one of the supported keys. *)
Lemma weighted_branch_returns_supported_key
    (account : Account) (src : Z) (providerKey : ModelProvider) (model : string)
    (keys : list Key) :
  GetKeysForProvider account providerKey = inr keys ->
  (2 <= List.length (supportedKeysFor providerKey model keys))%nat ->
  0 < totalWeightOf (supportedKeysFor providerKey model keys) ->
  exists key, selectKeyFromProviderForModel account src providerKey model = Ok key
              /\ In key (supportedKeysFor providerKey model keys).
Proof.
  intros Hkeys Hlen Hpos. unfold selectKeyFromProviderForModel. rewrite Hkeys.
  destruct keys as [|k0 ks]; [simpl in Hlen; lia|].
  rewrite len_cons_nonzero.
  destruct (supportedKeysFor providerKey model (k0 :: ks)) as [|a [|b l]] eqn:E;
    simpl in Hlen; try lia.
  unfold Intn. destruct (totalWeightOf (a :: b :: l) <=? 0) eqn:Hz.
  - apply Z.leb_le in Hz. lia.
  - destruct (walkWeights (a :: b :: l) _ 0) as [key|] eqn:W.
    + exists key. split; [reflexivity|]. eapply walkWeights_In; eassumption.
    + exists a. split; [reflexivity | now left].
Qed.

(** C6 (as amended).  Given the provider's credentials, the selector keeps
    exactly the keys whose model list is empty, or contains the model while
    the value is not blank or the provider is Vertex; it fails with the
    no-key-supports-the-model error exactly when the credential list is not
    empty and no key is kept; an empty credential list fails with the
    no-keys-for-the-provider error instead; and a single kept key is the one
    returned. *)
Theorem selectKey_filter_and_failures
    (account : Account) (src : Z) (providerKey : ModelProvider) (model : string)
    (keys : list Key) :
  GetKeysForProvider account providerKey = inr keys ->
  (forall key,
      In key (supportedKeysFor providerKey model keys) <->
      In key keys /\
      (Models key = [] \/
       (In model (Models key) /\
        (TrimSpace_nonempty (Value key) = true \/ providerKey = Vertex))))
  /\ (selectKeyFromProviderForModel account src providerKey model
        = Err (noKeysForModel model)
      <-> keys <> [] /\ supportedKeysFor providerKey model keys = [])
  /\ (keys = [] ->
      selectKeyFromProviderForModel account src providerKey model
        = Err (noKeysForProvider providerKey))
  /\ (forall key,
         supportedKeysFor providerKey model keys = [key] ->
         selectKeyFromProviderForModel account src providerKey model = Ok key).
Proof.
  intros Hkeys. split; [|split; [|split]].
  - intros key. unfold supportedKeysFor. rewrite filter_In, keySupportsModel_spec.
    reflexivity.
  - unfold selectKeyFromProviderForModel. rewrite Hkeys.
    destruct keys as [|k0 ks].
    + simpl. split.
      * intros H. exfalso. apply (noKeys_messages_differ providerKey model). congruence.
      * intros [H _]. now elim H.
    + rewrite len_cons_nonzero.
      destruct (supportedKeysFor providerKey model (k0 :: ks)) as [|a [|b l]].
      * split; [intros _; split; [discriminate | reflexivity] | reflexivity].
      * split; [discriminate | intros [_ H]; discriminate].
      * split; [|intros [_ H]; discriminate].
        destruct (Intn src _); [|discriminate].
        destruct (walkWeights _ _ _); discriminate.
  - intros ->. unfold selectKeyFromProviderForModel. rewrite Hkeys. reflexivity.
  - intros key Hone. unfold selectKeyFromProviderForModel. rewrite Hkeys.
    destruct keys as [|k0 ks]; [discriminate|].
    rewrite len_cons_nonzero, Hone. reflexivity.
Qed.

Lemma selectKey_filter_and_failures_witness :
  selectKeyFromProviderForModel
    (Sample.accountWith [Sample.key "  " ["gpt-4o"] 1; Sample.key "sk-2" ["gpt-4o"] 1] 0)
    7 OpenAI "gpt-4o"
  = Ok (Sample.key "sk-2" ["gpt-4o"] 1).
Proof.
  apply (selectKey_filter_and_failures
           (Sample.accountWith [Sample.key "  " ["gpt-4o"] 1; Sample.key "sk-2" ["gpt-4o"] 1] 0)
           7 OpenAI "gpt-4o"
           [Sample.key "  " ["gpt-4o"] 1; Sample.key "sk-2" ["gpt-4o"] 1]).
  - reflexivity.
  - reflexivity.
Defined.

(** C6, counterexample.  With an empty credential list no key survives the
    filter, yet the selector does not fail with the
    no-key-supports-the-model error: the error is the one for a provider
    without keys. *)
Lemma selectKey_empty_list_other_error :
  supportedKeysFor OpenAI "gpt-4o" [] = []
  /\ selectKeyFromProviderForModel (Sample.accountWith [] 0) 7 OpenAI "gpt-4o"
     = Err "no keys found for provider: openai"
  /\ selectKeyFromProviderForModel (Sample.accountWith [] 0) 7 OpenAI "gpt-4o"
     <> Err (noKeysForModel "gpt-4o").
Proof. repeat split. discriminate. Qed.

(** C10, at the failing input.  Two wildcard keys of weight zero: whatever
    the random source, the selector panics in [Intn], whose argument, the sum
    of the scaled weights, is zero. *)
Theorem selectKey_zero_weights_panics (src : Z) :
  totalWeightOf [Sample.key "sk-1" [] 0; Sample.key "sk-2" [] 0] = 0
  /\ selectKeyFromProviderForModel
       (Sample.accountWith [Sample.key "sk-1" [] 0; Sample.key "sk-2" [] 0] 0)
       src OpenAI "gpt-4o"
     = Panic "invalid argument to Intn".
Proof. split; reflexivity. Qed.

(* ================================================================= *)
(** ** Plugin pipeline: the final reconciliation *)

Lemma isEmptyError_spec (e : BifrostError) :
  isEmptyError e = true <->
  StatusCode e = None /\ Type_ (Error e) = None
  /\ Message (Error e) = "" /\ Cause (Error e) = None.
Proof.
  unfold isEmptyError. rewrite !andb_true_iff, String.eqb_eq.
  destruct (StatusCode e), (Type_ (Error e)), (Cause (Error e)); simpl;
    intuition (try discriminate; auto).
Qed.

(** C5.  When the post-hook loop ends with both a response and an error,
    [RunPostHooks] returns the error, unless the error has no status code, no
    type, an empty message and no cause: then it returns the response and no
    error. *)
Theorem RunPostHooks_error_wins_unless_empty
    (p : PluginPipeline) (ctx : Context)
    (resp : option BifrostResponse) (bifrostErr : option BifrostError)
    (count : Z) (log : Log) (ctx' : Context)
    (r : BifrostResponse) (e : BifrostError) (p' : PluginPipeline) (log' : Log) :
  postHooksDown (clampCount p count) p ctx resp bifrostErr log
  = (ctx', Some r, Some e, p', log') ->
  ((StatusCode e = None /\ Type_ (Error e) = None
    /\ Message (Error e) = "" /\ Cause (Error e) = None) ->
   RunPostHooks p ctx resp bifrostErr count log = ((ctx', Some r, None), p', log'))
  /\ (~ (StatusCode e = None /\ Type_ (Error e) = None
         /\ Message (Error e) = "" /\ Cause (Error e) = None) ->
      snd (fst (fst (RunPostHooks p ctx resp bifrostErr count log))) = Some e).
Proof.
  intros Hloop. unfold RunPostHooks. rewrite Hloop. unfold reconcile. split.
  - intros Hempty. apply isEmptyError_spec in Hempty. rewrite Hempty. reflexivity.
  - intros Hfull. destruct (isEmptyError e) eqn:E.
    + apply isEmptyError_spec in E. contradiction.
    + reflexivity.
Qed.

Lemma RunPostHooks_error_wins_unless_empty_witness :
  RunPostHooks {| plugins := [Sample.emptyErrorPlugin]; executedPreHooks := 1;
                  preHookErrors := []; postHookErrors := [] |}
               backgroundCtx (Some (Sample.response "r1")) None 1 []
  = ((backgroundCtx, Some (Sample.response "r1"), None),
     {| plugins := [Sample.emptyErrorPlugin]; executedPreHooks := 1;
        preHookErrors := []; postHookErrors := [] |},
     [EvPostHook 0]).
Proof.
  apply (RunPostHooks_error_wins_unless_empty
           {| plugins := [Sample.emptyErrorPlugin]; executedPreHooks := 1;
              preHookErrors := []; postHookErrors := [] |}
           backgroundCtx (Some (Sample.response "r1")) None 1 [] backgroundCtx
           (Sample.response "r1") (plainError "" None)).
  - reflexivity.
  - repeat split; reflexivity.
Defined.

(* ================================================================= *)
(** ** Hot reconfiguration *)

(** Every buffered message is in exactly one of the three places, in order. *)
Lemma transferBuffered_partition {M : Type} (oldQueue : list M) (capacity : Z)
    (q : list M) (n : Z) :
  let t := transferBuffered oldQueue capacity q n in
  newQueue t ++ timedOut t ++ leftInOldQueue t = q ++ oldQueue.
Proof.
  revert q n. induction oldQueue as [|msg rest IH]; intros q n; simpl.
  - reflexivity.
  - destruct (len q <? capacity).
    + specialize (IH (q ++ [msg]) (n + 1)). simpl in IH. rewrite IH.
      rewrite <- app_assoc. reflexivity.
    + reflexivity.
Qed.

(** Messages are left behind as soon as the old queue holds more than the new
    capacity plus one. *)
Lemma transferBuffered_leaves_rest {M : Type} (oldQueue : list M) (capacity : Z)
    (q : list M) (n : Z) :
  0 <= capacity ->
  len q <= capacity ->
  leftInOldQueue (transferBuffered oldQueue capacity q n)
  = skipn (Z.to_nat (capacity - len q) + 1) oldQueue.
Proof.
  intros Hcap. revert q n. induction oldQueue as [|msg rest IH]; intros q n Hq; simpl.
  - now rewrite skipn_nil.
  - destruct (len q <? capacity) eqn:E.
    + apply Z.ltb_lt in E. rewrite IH.
      * unfold len in *. rewrite length_app. simpl.
        replace (Z.to_nat (capacity - Z.of_nat (List.length q)) + 1)%nat
          with (S (Z.to_nat (capacity - Z.of_nat (List.length q + 1)) + 1)) by lia.
        reflexivity.
      * unfold len in *. rewrite length_app. simpl. lia.
    + apply Z.ltb_ge in E. simpl.
      replace (Z.to_nat (capacity - len q)) with 0%nat by lia. reflexivity.
Qed.

(** C7, at the failing input.  Three messages are buffered and the new queue
    has room for one: the first is forwarded, the second gets the
    transfer-timeout error, and the third is neither forwarded nor answered:
    the loop has been left and the message is still in the old queue. *)
Theorem transfer_leaves_third_message_behind :
  UpdateProviderConcurrency_transfer ["m1"; "m2"; "m3"]
    {| networkConfig := {| MaxRetries := 0 |};
       concurrencyAndBufferSize := {| Concurrency := 8; BufferSize := 1 |} |}
  = Ok {| newQueue := ["m1"]; transferredCount := 1;
          timedOut := ["m2"]; leftInOldQueue := ["m3"] |}.
Proof. reflexivity. Qed.

(* ================================================================= *)
(** ** Retry loop *)

(** The loop body always ends in a [break]: the attempt counter never
    moves. *)
Lemma retryLoop_never_retries (fuel : nat) (provider : Adapter) (req : ChannelMessage)
    (key : Key) (runner : PostHookRunner) (maxRetries : Z) (st st' : Attempt)
    (log log' : Log) :
  retryLoop fuel provider req key runner maxRetries st log = inr (st', log') ->
  attempts st' = attempts st.
Proof.
  destruct fuel as [|fuel]; simpl; intros H.
  - now inversion H.
  - destruct (attempts st <=? maxRetries); [|now inversion H].
    destruct (isStreamRequestType (msgType req)).
    + destruct (handleProviderStreamRequest _ _ _ _ _ _) as [|[[s e] l]];
        [discriminate|].
      destruct e as [e|]; simpl in H.
      * destruct (IsBifrostError e); simpl in H; now inversion H.
      * now inversion H.
    + destruct (handleProviderRequest _ _ _ _ _) as [|[[r e] l]]; [discriminate|].
      destruct e as [e|]; simpl in H; now inversion H.
Qed.

(** So one unit of fuel is as good as any larger amount. *)
Lemma retryLoop_fuel_irrelevant (fuel : nat) (provider : Adapter) (req : ChannelMessage)
    (key : Key) (runner : PostHookRunner) (maxRetries : Z) (st : Attempt) (log : Log) :
  retryLoop (S fuel) provider req key runner maxRetries st log
  = retryLoop 1 provider req key runner maxRetries st log.
Proof.
  cbn [retryLoop].
  destruct (attempts st <=? maxRetries); [|reflexivity].
  destruct (isStreamRequestType (msgType req)).
  - destruct (handleProviderStreamRequest _ _ _ _ _ _) as [|[[s e] l]]; [reflexivity|].
    destruct e as [e|]; [|reflexivity].
    destruct (IsBifrostError e) eqn:E; cbn [negb]; [|reflexivity].
    unfold successfulOrFinal. rewrite E. reflexivity.
  - destruct (handleProviderRequest _ _ _ _ _) as [|[[r e] l]]; [reflexivity|].
    destruct e as [e|]; reflexivity.
Qed.

Lemma adapterCallsOf_app (p : ModelProvider) (l1 l2 : Log) :
  adapterCallsOf p (l1 ++ l2) = (adapterCallsOf p l1 + adapterCallsOf p l2)%nat.
Proof. unfold adapterCallsOf. now rewrite filter_app, length_app. Qed.

Lemma handleProviderRequest_one_call (provider : Adapter) (req : ChannelMessage)
    (key : Key) (reqType : RequestType) (log log' : Log)
    (out : option BifrostResponse * option BifrostError) :
  handleProviderRequest provider req key reqType log = inr (out, log') ->
  (adapterCallsOf (GetProviderKey provider) log'
   <= adapterCallsOf (GetProviderKey provider) log + 1)%nat.
Proof.
  unfold handleProviderRequest. intros H.
  assert (Hcall :
            adapterCallsOf (GetProviderKey provider)
              (log ++ [EvAdapterCall (GetProviderKey provider) (Model (msgRequest req))])
            = (adapterCallsOf (GetProviderKey provider) log + 1)%nat).
  { rewrite adapterCallsOf_app. unfold adapterCallsOf at 2. simpl.
    now rewrite String.eqb_refl. }
  destruct reqType;
    try destruct (TextCompletionInput (Input (msgRequest req)));
    try destruct (ChatCompletionInput (Input (msgRequest req)));
    try discriminate; inversion H; subst; rewrite ?Hcall; lia.
Qed.

(** A non-streaming admission costs at most one adapter call, whatever the
    retry budget. *)
Lemma retryLoop_at_most_one_call (fuel : nat) (provider : Adapter) (req : ChannelMessage)
    (key : Key) (runner : PostHookRunner) (maxRetries : Z) (st st' : Attempt)
    (log log' : Log) :
  isStreamRequestType (msgType req) = false ->
  retryLoop fuel provider req key runner maxRetries st log = inr (st', log') ->
  (adapterCallsOf (GetProviderKey provider) log'
   <= adapterCallsOf (GetProviderKey provider) log + 1)%nat.
Proof.
  intros Hns. destruct fuel as [|fuel]; cbn [retryLoop]; intros H.
  - inversion H; subst. lia.
  - destruct (attempts st <=? maxRetries); [|inversion H; subst; lia].
    rewrite Hns in H.
    assert (Hsleep :
              adapterCallsOf (GetProviderKey provider)
                (log ++ [EvSleep (attempts st - 1)])
              = adapterCallsOf (GetProviderKey provider) log).
    { rewrite adapterCallsOf_app. unfold adapterCallsOf at 2. simpl. lia. }
    destruct (attempts st >? 0);
      (destruct (handleProviderRequest _ _ _ _ _) as [|[[r e] l]] eqn:Hcall;
       [discriminate|]);
      apply handleProviderRequest_one_call in Hcall;
      rewrite ?Hsleep in Hcall;
      destruct e as [e|]; simpl in H; inversion H; subst; exact Hcall.
Qed.

(** C1, at the failing input.  The adapter answers 503 to the first call and
    [r2] to the second, and two retries are allowed: the worker stops after
    the first call and the caller is given the 503 error; the adapter is
    called once and nothing sleeps. *)
Theorem retry_scenario_stops_after_first_call :
  Bifrost_ChatCompletionRequest Sample.requiresKey Sample.validate
    Sample.flakyEngine None (Sample.chat OpenAI "gpt-4o-mini" []) []
  = (Returned None (Some (setProvider (Sample.statusError 503) OpenAI)),
     [EvEnqueue OpenAI; EvAdapterCall OpenAI "gpt-4o-mini"])
  /\ retryableStatusCodes 503 = true
  /\ MaxRetries (networkConfig (Sample.config 2)) = 2.
Proof. repeat split. Qed.

(* ================================================================= *)
(** ** Provider tag on errors *)

(** C9, at the failing input.  A chat request without chat input, addressed
    to OpenAI: the error of the public method carries the empty provider
    tag. *)
Theorem chat_without_input_error_is_untagged :
  exists e,
    Bifrost_ChatCompletionRequest Sample.requiresKey Sample.validate
      Sample.flakyEngine None
      {| ReqProvider := OpenAI; Model := "gpt-4o-mini"; Input := Sample.noInput;
         Params := None; Fallbacks := [] |} []
    = (Returned None (Some e), [])
    /\ Provider e = ""
    /\ Provider e <> OpenAI.
Proof.
  eexists. split; [reflexivity|]. split; [reflexivity | discriminate].
Qed.

(* ================================================================= *)
(** ** Tool augmentation *)

(** C8 (as amended).  With a tool manager configured, the dispatcher merges
    the tool descriptors for text completion, chat completion, transcription
    and chat-completion stream, and merges nothing for embedding, speech,
    speech stream and transcription stream. *)
Theorem tools_merged_per_kind
    (bifrost : Bifrost) (manager : MCPManager) (req : BifrostRequest) (log : Log) :
  mcpManager bifrost = Some manager ->
  let merged := (addMCPToolsToBifrostRequest manager req, log ++ [EvMCPTools]) in
  addTools_tryRequest bifrost TextCompletionRequest req log = merged
  /\ addTools_tryRequest bifrost ChatCompletionRequest req log = merged
  /\ addTools_tryRequest bifrost TranscriptionRequest req log = merged
  /\ addTools_tryStreamRequest bifrost ChatCompletionStreamRequest req log = merged
  /\ addTools_tryRequest bifrost EmbeddingRequest req log = (req, log)
  /\ addTools_tryRequest bifrost SpeechRequest req log = (req, log)
  /\ addTools_tryStreamRequest bifrost SpeechStreamRequest req log = (req, log)
  /\ addTools_tryStreamRequest bifrost TranscriptionStreamRequest req log = (req, log).
Proof.
  intros Hm. unfold addTools_tryRequest, addTools_tryStreamRequest.
  rewrite Hm. simpl. repeat split.
Qed.

Lemma tools_merged_per_kind_witness :
  addTools_tryRequest
    (Sample.engine [] (Some Sample.echoManager)
                   (Sample.singleQueue (Sample.steadyAdapter OpenAI "t1")) 0)
    TranscriptionRequest (Sample.transcription OpenAI "whisper-1") []
  = (addMCPToolsToBifrostRequest Sample.echoManager
       (Sample.transcription OpenAI "whisper-1"),
     [EvMCPTools]).
Proof.
  apply (tools_merged_per_kind
           (Sample.engine [] (Some Sample.echoManager)
                          (Sample.singleQueue (Sample.steadyAdapter OpenAI "t1")) 0)
           Sample.echoManager (Sample.transcription OpenAI "whisper-1") []).
  reflexivity.
Defined.

(** C8, counterexample.  A transcription-stream request is neither an
    embedding nor a speech request, and a tool manager is configured; yet the
    request goes to the adapter without a merge, while the same request sent
    as a plain transcription is merged. *)
Lemma transcription_stream_gets_no_tools :
  let bifrost := Sample.engine [] (Some Sample.echoManager)
                   (Sample.singleQueue (Sample.steadyAdapter OpenAI "t1")) 0 in
  let req := Sample.transcription OpenAI "whisper-1" in
  snd (Bifrost_TranscriptionStreamRequest Sample.requiresKey Sample.validate
         bifrost None req [])
  = [EvEnqueue OpenAI; EvAdapterCall OpenAI "whisper-1"]
  /\ snd (Bifrost_TranscriptionRequest Sample.requiresKey Sample.validate
            bifrost None req [])
     = [EvMCPTools; EvEnqueue OpenAI; EvAdapterCall OpenAI "whisper-1"]
  /\ addTools_tryStreamRequest bifrost TranscriptionStreamRequest req [] = (req, []).
Proof. repeat split. Qed.

(* ================================================================= *)
(** ** Queue admission *)







(* ================================================================= *)
(** ** What the pipeline and the worker add to the log *)

Lemma preHooksOf_app (l1 l2 : Log) : preHooksOf (l1 ++ l2) = preHooksOf l1 ++ preHooksOf l2.
Proof. apply flat_map_app. Qed.

Lemma postHooksOf_app (l1 l2 : Log) : postHooksOf (l1 ++ l2) = postHooksOf l1 ++ postHooksOf l2.
Proof. apply flat_map_app. Qed.

Lemma preHooksOf_pre (l : list nat) : preHooksOf (map EvPreHook l) = l.
Proof. induction l as [|i l IH]; simpl; [reflexivity | now rewrite IH]. Qed.

Lemma postHooksOf_pre (l : list nat) : postHooksOf (map EvPreHook l) = [].
Proof. induction l as [|i l IH]; simpl; [reflexivity | exact IH]. Qed.

Lemma preHooksOf_post (l : list nat) : preHooksOf (map EvPostHook l) = [].
Proof. induction l as [|i l IH]; simpl; [reflexivity | exact IH]. Qed.

Lemma postHooksOf_post (l : list nat) : postHooksOf (map EvPostHook l) = l.
Proof. induction l as [|i l IH]; simpl; [reflexivity | now rewrite IH]. Qed.

Lemma no_enqueue_in_pre (l : list nat) : existsb isEnqueue (map EvPreHook l) = false.
Proof. induction l as [|i l IH]; simpl; [reflexivity | exact IH]. Qed.

Lemma no_shortCircuit_in_pre (l : list nat) : existsb isShortCircuit (map EvPreHook l) = false.
Proof. induction l as [|i l IH]; simpl; [reflexivity | exact IH]. Qed.


Lemma preHooksFrom_log (rest : list Plugin) :
  forall (i : nat) (p : PluginPipeline) (ctx : Context)
         (req : option BifrostRequest) (log : Log),
  exists k,
    (k <= List.length rest)%nat
    /\ snd (preHooksFrom rest i p ctx req log)
       = log ++ preEvents i k (snd (fst (fst (fst (preHooksFrom rest i p ctx req log)))))
    /\ plugins (snd (fst (preHooksFrom rest i p ctx req log))) = plugins p
    /\ snd (fst (fst (preHooksFrom rest i p ctx req log)))
       = (if (0 <? k)%nat then Z.of_nat (i + k) else executedPreHooks p)
    /\ (snd (fst (fst (fst (preHooksFrom rest i p ctx req log)))) = None ->
        k = List.length rest)
    /\ (forall sc, snd (fst (fst (fst (preHooksFrom rest i p ctx req log)))) = Some sc ->
        (0 < k)%nat /\
        exists plugin c r, In plugin rest /\ snd (fst (PreHook plugin c r)) = Some sc).
Proof.
  induction rest as [|plugin rest IH]; intros i p ctx req log.
  - exists 0%nat. simpl. unfold preEvents. simpl. rewrite app_nil_r.
    split; [lia|]. split; [reflexivity|]. split; [reflexivity|].
    split; [reflexivity|]. split; [reflexivity|]. intros sc H. discriminate.
  - simpl. destruct (PreHook plugin ctx req) as [[[ctx' req'] shortCircuit] err] eqn:Hpre.
    destruct shortCircuit as [sc|].
    + exists 1%nat. simpl. unfold preEvents. simpl.
      replace (i + 1 - 1)%nat with i by lia. rewrite <- app_assoc. simpl.
      split; [lia|]. split; [reflexivity|]. split; [reflexivity|].
      split; [f_equal; lia|]. split; [intros H; discriminate|].
      intros sc' H. injection H as <-. split; [lia|].
      exists plugin, ctx, req. split; [now left | now rewrite Hpre].
    + destruct (IH (S i) (notePreHook p err i) ctx' req' (log ++ [EvPreHook i]))
        as [k [Hk [Hlog [Hpl [Hcount [Hnone Hsome]]]]]].
      exists (S k). split; [simpl; lia|]. split; [|split; [|split; [|split]]].
      * rewrite Hlog. unfold preEvents. rewrite <- app_assoc. simpl.
        replace (i + k - 0)%nat with (i + S k - 1)%nat by lia. reflexivity.
      * rewrite Hpl. reflexivity.
      * rewrite Hcount. destruct k as [|k]; cbn [Nat.ltb Nat.leb notePreHook executedPreHooks]; lia.
      * intros H. simpl. f_equal. now apply Hnone.
      * intros sc H. split; [lia|]. destruct (Hsome sc H) as [_ [pl [c [r [Hin Hsc]]]]].
        exists pl, c, r. split; [now right | exact Hsc].
Qed.

(** Pre-hooks that leave the context alone hand on the context they were
    given. *)
Lemma preHooksFrom_ctx (rest : list Plugin) :
  (forall plugin c r, In plugin rest -> fst (fst (fst (PreHook plugin c r))) = c) ->
  forall (i : nat) (p : PluginPipeline) (ctx : Context)
         (req : option BifrostRequest) (log : Log),
  fst (fst (fst (fst (fst (preHooksFrom rest i p ctx req log))))) = ctx.
Proof.
  induction rest as [|plugin rest IH]; intros Hkeep i p ctx req log; [reflexivity|].
  simpl. pose proof (Hkeep plugin ctx req (or_introl eq_refl)) as Hc.
  destruct (PreHook plugin ctx req) as [[[ctx' req'] shortCircuit] err].
  simpl in Hc. subst ctx'.
  destruct shortCircuit as [sc|]; [reflexivity|].
  apply IH. intros pl c r Hin. apply Hkeep. now right.
Qed.

Lemma postHooksDown_log (n : nat) :
  forall (p : PluginPipeline) (ctx : Context) (resp : option BifrostResponse)
         (bifrostErr : option BifrostError) (log : Log),
  (n <= List.length (plugins p))%nat ->
  snd (postHooksDown n p ctx resp bifrostErr log)
  = log ++ map EvPostHook (rev (seq 0 n)).
Proof.
  induction n as [|n IH]; intros p ctx resp bifrostErr log Hn.
  - simpl. now rewrite app_nil_r.
  - cbn [postHooksDown].
    destruct (nth_error (plugins p) n) as [plugin|] eqn:E.
    + destruct (PostHook plugin ctx resp bifrostErr) as [[[ctx' resp'] err'] err].
      rewrite IH by (simpl; lia).
      rewrite seq_S, rev_app_distr. simpl. now rewrite <- app_assoc.
    + apply nth_error_None in E. lia.
Qed.

Lemma clampCount_le (p : PluginPipeline) (count : Z) :
  (clampCount p count <= List.length (plugins p))%nat.
Proof.
  unfold clampCount, len.
  destruct (count <? 0) eqn:E1.
  - destruct (0 >? Z.of_nat (List.length (plugins p))); lia.
  - apply Z.ltb_ge in E1.
    destruct (count >? Z.of_nat (List.length (plugins p))) eqn:E2; [lia|].
    rewrite Z.gtb_ltb in E2. apply Z.ltb_ge in E2. lia.
Qed.

Lemma clampCount_of_nat (p : PluginPipeline) (k : nat) :
  (k <= List.length (plugins p))%nat -> clampCount p (Z.of_nat k) = k.
Proof.
  intros Hk. unfold clampCount, len.
  destruct (Z.of_nat k <? 0) eqn:E1; [apply Z.ltb_lt in E1; lia|].
  destruct (Z.of_nat k >? Z.of_nat (List.length (plugins p))) eqn:E2.
  - rewrite Z.gtb_ltb in E2. apply Z.ltb_lt in E2. lia.
  - lia.
Qed.

Lemma RunPostHooks_log (p : PluginPipeline) (ctx : Context)
    (resp : option BifrostResponse) (bifrostErr : option BifrostError)
    (count : Z) (log : Log) :
  snd (RunPostHooks p ctx resp bifrostErr count log)
  = log ++ map EvPostHook (rev (seq 0 (clampCount p count))).
Proof.
  unfold RunPostHooks.
  pose proof (postHooksDown_log (clampCount p count) p ctx resp bifrostErr log
                (clampCount_le p count)) as H.
  destruct (postHooksDown (clampCount p count) p ctx resp bifrostErr log)
    as [[[[c r] e] p'] log'].
  exact H.
Qed.


Lemma hookFree_nil : hookFree [].
Proof. split; reflexivity. Qed.

Lemma hookFree_app (l1 l2 : Log) : hookFree l1 -> hookFree l2 -> hookFree (l1 ++ l2).
Proof.
  intros [H1 H2] [H3 H4]. split.
  - now rewrite preHooksOf_app, H1, H3.
  - now rewrite postHooksOf_app, H2, H4.
Qed.

Lemma handleProviderRequest_log (provider : Adapter) (req : ChannelMessage)
    (key : Key) (reqType : RequestType) (log log' : Log)
    (out : option BifrostResponse * option BifrostError) :
  handleProviderRequest provider req key reqType log = inr (out, log') ->
  exists evs, log' = log ++ evs /\ hookFree evs.
Proof.
  unfold handleProviderRequest. intros H.
  destruct reqType;
    try destruct (TextCompletionInput (Input (msgRequest req)));
    try destruct (ChatCompletionInput (Input (msgRequest req)));
    try discriminate; inversion H; subst;
    first [ exists []; split; [now rewrite app_nil_r | apply hookFree_nil]
          | eexists; split; [reflexivity | split; reflexivity] ].
Qed.

Section WorkerLog.

Variable providerRequiresKey : ModelProvider -> bool.

Lemma retryLoop_log (fuel : nat) (provider : Adapter) (req : ChannelMessage)
    (key : Key) (runner : PostHookRunner) (maxRetries : Z) :
  isStreamRequestType (msgType req) = false ->
  forall (st st' : Attempt) (log log' : Log),
  retryLoop fuel provider req key runner maxRetries st log = inr (st', log') ->
  exists evs, log' = log ++ evs /\ hookFree evs.
Proof.
  intros Hns. induction fuel as [|fuel IH]; intros st st' log log' H;
    cbn [retryLoop] in H.
  - inversion H; subst. exists []. split; [now rewrite app_nil_r | apply hookFree_nil].
  - destruct (attempts st <=? maxRetries);
      [|inversion H; subst; exists [];
        split; [now rewrite app_nil_r | apply hookFree_nil]].
    rewrite Hns in H.
    set (log0 := if attempts st >? 0
                 then log ++ [EvSleep (attempts st - 1)] else log) in H.
    assert (H0 : exists evs0, log0 = log ++ evs0 /\ hookFree evs0).
    { unfold log0. destruct (attempts st >? 0).
      - eexists. split; [reflexivity | split; reflexivity].
      - exists []. split; [now rewrite app_nil_r | apply hookFree_nil]. }
    destruct H0 as [evs0 [E0 F0]].
    destruct (handleProviderRequest provider req key (msgType req) log0)
      as [|[[r e] l]] eqn:Hcall; [discriminate|].
    apply handleProviderRequest_log in Hcall. destruct Hcall as [evs1 [E1 F1]].
    assert (Hl : exists evs, l = log ++ evs /\ hookFree evs).
    { exists (evs0 ++ evs1). split.
      - rewrite E1, E0. now rewrite app_assoc.
      - now apply hookFree_app. }
    destruct e as [e|]; simpl in H; inversion H; subst; exact Hl.
Qed.

(** A worker that serves a non-streaming message runs no hook. *)
Lemma requestWorker_log (bifrost : Bifrost) (queue : Queue) (req : ChannelMessage)
    (log log' : Log) (d : Delivery) :
  isStreamRequestType (msgType req) = false ->
  requestWorker providerRequiresKey bifrost queue req log = (d, log') ->
  exists evs, log' = log ++ evs /\ hookFree evs.
Proof.
  intros Hns. unfold requestWorker. intros H.
  assert (Hnil : exists evs, log = log ++ evs /\ hookFree evs).
  { exists []. split; [now rewrite app_nil_r | apply hookFree_nil]. }
  destruct (if providerRequiresKey (GetProviderKey (adapter queue)) then _ else _)
    as [key|err|msg]; [|inversion H; subst; exact Hnil ..].
  destruct (GetConfigForProvider _ _) as [err|config];
    [inversion H; subst; exact Hnil|].
  destruct (retryLoop _ _ _ _ _ _ _ _) as [panic|[st l]] eqn:Hloop;
    [inversion H; subst; exact Hnil|].
  apply retryLoop_log in Hloop; [|exact Hns].
  rewrite Hns in H.
  destruct (bifrostError st); inversion H; subst; exact Hloop.
Qed.

End WorkerLog.

Lemma preHooksOf_preEvents (i k : nat) (sc : option PluginShortCircuit) :
  preHooksOf (preEvents i k sc) = seq i k.
Proof.
  unfold preEvents. rewrite preHooksOf_app, preHooksOf_pre.
  destruct sc; simpl; now rewrite app_nil_r.
Qed.

Lemma postHooksOf_preEvents (i k : nat) (sc : option PluginShortCircuit) :
  postHooksOf (preEvents i k sc) = [].
Proof.
  unfold preEvents. rewrite postHooksOf_app, postHooksOf_pre.
  destruct sc; reflexivity.
Qed.

Lemma preEvents_None_plain (i k : nat) :
  existsb isShortCircuit (preEvents i k None) = false
  /\ existsb isEnqueue (preEvents i k None) = false.
Proof.
  unfold preEvents. rewrite app_nil_r. split.
  - apply no_shortCircuit_in_pre.
  - apply no_enqueue_in_pre.
Qed.


Lemma shortCircuitArgs_Some (sc : PluginShortCircuit) :
  Response sc <> None \/ ShortCircuitError sc <> None ->
  shortCircuitArgs (Some sc) <> None.
Proof.
  unfold shortCircuitArgs. intros [H|H];
    destruct (Response sc), (ShortCircuitError sc); congruence.
Qed.

Lemma shortCircuitArgs_None_of_None : shortCircuitArgs None = None.
Proof. reflexivity. Qed.

(** After a short-circuit the count of the pre-hooks is positive. *)
Lemma RunPreHooks_short_circuit_count (p : PluginPipeline) (ctx : Context)
    (req : option BifrostRequest) (log : Log) (sc : PluginShortCircuit) :
  snd (fst (fst (fst (RunPreHooks p ctx req log)))) = Some sc ->
  0 < snd (fst (fst (RunPreHooks p ctx req log))).
Proof.
  unfold RunPreHooks.
  destruct (preHooksFrom_log (plugins p) 0 p ctx req log)
    as [k [_ [_ [_ [Hcount [_ Hsome]]]]]].
  intros H. destruct (Hsome sc H) as [Hpos _]. rewrite Hcount.
  destruct k as [|k]; [lia|]. simpl. lia.
Qed.

(** What [tryRequest] has logged when the pre-hooks are done. *)
Lemma tryRequest_pre_hooks (bifrost : Bifrost) (requestType : RequestType)
    (ctx : Context) (req : BifrostRequest) (log : Log) :
  exists tools k,
    let start := addTools_tryRequest bifrost requestType req log in
    let run := RunPreHooks (getPluginPipeline bifrost) ctx (Some (fst start))
                           (snd start) in
    let shortCircuit := snd (fst (fst (fst run))) in
    snd start = log ++ tools
    /\ (tools = [] \/ tools = [EvMCPTools])
    /\ (k <= List.length (bifrostPlugins bifrost))%nat
    /\ snd run = (log ++ tools) ++ preEvents 0 k shortCircuit
    /\ plugins (snd (fst run)) = bifrostPlugins bifrost
    /\ snd (fst (fst run)) = Z.of_nat k
    /\ (shortCircuit = None -> k = List.length (bifrostPlugins bifrost))
    /\ (forall sc, shortCircuit = Some sc ->
        exists plugin c r, In plugin (bifrostPlugins bifrost)
                           /\ snd (fst (PreHook plugin c r)) = Some sc).
Proof.
  assert (Htools : exists tools,
             snd (addTools_tryRequest bifrost requestType req log) = log ++ tools
             /\ (tools = [] \/ tools = [EvMCPTools])).
  { unfold addTools_tryRequest.
    destruct (negb (RequestType_eqb requestType EmbeddingRequest)
              && negb (RequestType_eqb requestType SpeechRequest)
              && negb (isNil (mcpManager bifrost)));
      [destruct (mcpManager bifrost)|].
    - exists [EvMCPTools]. split; [reflexivity | now right].
    - exists []. split; [simpl; now rewrite app_nil_r | now left].
    - exists []. split; [simpl; now rewrite app_nil_r | now left]. }
  destruct Htools as [tools [Ht Hcase]]. exists tools.
  unfold RunPreHooks.
  destruct (preHooksFrom_log (plugins (getPluginPipeline bifrost)) 0
              (getPluginPipeline bifrost) ctx
              (Some (fst (addTools_tryRequest bifrost requestType req log)))
              (snd (addTools_tryRequest bifrost requestType req log)))
    as [k [Hk [Hlog [Hpl [Hcount [Hnone Hsome]]]]]].
  exists k. cbv zeta. rewrite <- Ht.
  split; [reflexivity|]. split; [exact Hcase|]. split; [exact Hk|].
  split; [exact Hlog|]. split; [exact Hpl|]. split.
  - rewrite Hcount. destruct k; reflexivity.
  - split; [exact Hnone|]. intros sc H. now destruct (Hsome sc H).
Qed.

Ltac log_assoc := repeat rewrite <- app_assoc; simpl; reflexivity.

(** What a call of [tryRequest] that returns has done with the hooks, for a
    non-streaming request where no plugin answers with an empty
    short-circuit: after a short-circuit, and after the message has been put
    on the queue (so after the worker's success or failure), the pre-hooks
    that ran are those of the first [N] plugins, in registration order, and
    the post-hooks that ran are those of the same [N] plugins, in reverse
    order.  [N] counts all the plugins when the message went on the queue,
    and the plugins up to the one that short-circuited otherwise. *)
Lemma tryRequest_hooks_mirror
    (providerRequiresKey : ModelProvider -> bool)
    (bifrost : Bifrost) (req : BifrostRequest) (ctx : option Context)
    (requestType : RequestType) (log log' : Log)
    (resp : option BifrostResponse) (err : option BifrostError) :
  isStreamRequestType requestType = false ->
  neverEmptyShortCircuit bifrost ->
  tryRequest providerRequiresKey bifrost req ctx requestType log
    = (Returned resp err, log') ->
  exists evs,
    log' = log ++ evs
    /\ (existsb isShortCircuit evs || existsb isEnqueue evs = true ->
        exists N, (N <= List.length (bifrostPlugins bifrost))%nat
                  /\ preHooksOf evs = seq 0 N
                  /\ postHooksOf evs = rev (seq 0 N)
                  /\ (existsb isEnqueue evs = true
                      /\ N = List.length (bifrostPlugins bifrost)
                      \/ (0 < N)%nat /\ In (EvShortCircuit (N - 1)) evs)).
Proof.
  intros Hns Hsc Hrun. unfold tryRequest in Hrun.
  destruct (getProviderQueue bifrost (ReqProvider req)) as [e0|queue].
  { inversion Hrun; subst. exists []. split; [now rewrite app_nil_r|].
    simpl. discriminate. }
  destruct (tryRequest_pre_hooks bifrost requestType
              (match ctx with Some c => c | None => backgroundCtx end) req log)
    as [tools [k H]].
  cbv zeta in H. destruct H as (Ht & Hcase & Hk & Hlog & Hpl & Hcount & Hnone & Hsome).
  pose proof (fun s =>
                RunPreHooks_short_circuit_count (getPluginPipeline bifrost)
                  (match ctx with Some c => c | None => backgroundCtx end)
                  (Some (fst (addTools_tryRequest bifrost requestType req log)))
                  (snd (addTools_tryRequest bifrost requestType req log)) s) as Hpos.
  destruct (addTools_tryRequest bifrost requestType req log) as [req' log0].
  simpl in Ht, Hlog, Hpl, Hcount, Hnone, Hsome, Hpos.
  destruct (RunPreHooks (getPluginPipeline bifrost) _ (Some req') log0)
    as [[[[[ctx1 preReq] sc] preCount] pipeline] log1].
  simpl in Hlog, Hpl, Hcount, Hnone, Hsome, Hpos.
  assert (Htp : preHooksOf tools = [] /\ postHooksOf tools = []
                /\ existsb isShortCircuit tools = false
                /\ existsb isEnqueue tools = false).
  { destruct Hcase; subst tools; repeat split. }
  destruct Htp as (Htpre & Htpost & Htsc & Htenq).
  assert (Hclamp : clampCount pipeline (Z.of_nat k) = k).
  { apply clampCount_of_nat. now rewrite Hpl. }
  destruct (shortCircuitArgs sc) as [[scResp scErr]|] eqn:Eargs.
  - (* short-circuit *)
    pose proof (RunPostHooks_log pipeline ctx1 scResp scErr preCount log1) as Hpost.
    destruct (RunPostHooks pipeline ctx1 scResp scErr preCount log1)
      as [[[[c2 r2] e2] p2] log2].
    simpl in Hpost. inversion Hrun; subst log'.
    exists (tools ++ preEvents 0 k sc ++ map EvPostHook (rev (seq 0 k))).
    split.
    + rewrite Hpost, Hlog, Hcount, Hclamp. log_assoc.
    + intros _. exists k. split; [exact Hk|]. split; [|split].
      * rewrite !preHooksOf_app, Htpre, preHooksOf_preEvents, preHooksOf_post.
        simpl. now rewrite app_nil_r.
      * rewrite !postHooksOf_app, Htpost, postHooksOf_preEvents, postHooksOf_post.
        reflexivity.
      * right. destruct sc as [s|]; [|discriminate].
        split; [specialize (Hpos s eq_refl); lia|].
        apply in_or_app. right. apply in_or_app. left.
        unfold preEvents. apply in_or_app. right. now left.
  - (* no short-circuit is acted upon *)
    assert (Enone : sc = None).
    { destruct sc as [s|]; [|reflexivity]. exfalso.
      destruct (Hsome s eq_refl) as [plugin [c [r [Hin Hs]]]].
      exact (shortCircuitArgs_Some s (Hsc plugin c r s Hin Hs) Eargs). }
    subst sc. specialize (Hnone eq_refl).
    assert (Hquiet : forall (P : Prop),
               existsb isShortCircuit (tools ++ preEvents 0 k None)
               || existsb isEnqueue (tools ++ preEvents 0 k None) = true -> P).
    { intros P. rewrite !existsb_app, Htsc, Htenq.
      destruct (preEvents_None_plain 0 k) as [-> ->]. discriminate. }
    assert (Hprefix : log1 = log ++ tools ++ preEvents 0 k None).
    { rewrite Hlog. log_assoc. }
    destruct preReq as [preReq|].
    2:{ inversion Hrun; subst log'. exists (tools ++ preEvents 0 k None).
        split; [exact Hprefix | apply Hquiet]. }
    destruct (admission (dropExcessRequests bifrost) queue ctx1).
    + (* the message is on the queue *)
      destruct (workers queue) as [|n]; [discriminate|].
      destruct (requestWorker providerRequiresKey bifrost queue _ _)
        as [delivery log2] eqn:Ew.
      apply requestWorker_log in Ew; [|exact Hns].
      destruct Ew as [w [Elog2 [Hwpre Hwpost]]].
      assert (Hlen : clampCount pipeline (len (bifrostPlugins bifrost)) = k).
      { unfold len. rewrite <- Hnone. exact Hclamp. }
      assert (Hgoal : forall log3,
                 log3 = log2 ++ map EvPostHook (rev (seq 0 k)) ->
                 exists evs,
                   log3 = log ++ evs
                   /\ (existsb isShortCircuit evs || existsb isEnqueue evs = true ->
                       exists N, (N <= List.length (bifrostPlugins bifrost))%nat
                                 /\ preHooksOf evs = seq 0 N
                                 /\ postHooksOf evs = rev (seq 0 N)
                                 /\ (existsb isEnqueue evs = true
                                     /\ N = List.length (bifrostPlugins bifrost)
                                     \/ (0 < N)%nat
                                        /\ In (EvShortCircuit (N - 1)) evs))).
      { intros log3 ->.
        exists (tools ++ preEvents 0 k None ++ [EvEnqueue (ReqProvider req)]
                      ++ w ++ map EvPostHook (rev (seq 0 k))).
        split.
        - rewrite Elog2, Hprefix. log_assoc.
        - intros _. exists k. split; [exact Hk|]. split; [|split].
          + rewrite !preHooksOf_app, Htpre, preHooksOf_preEvents, Hwpre,
              preHooksOf_post. simpl. now rewrite app_nil_r.
          + rewrite !postHooksOf_app, Htpost, postHooksOf_preEvents, Hwpost,
              postHooksOf_post. reflexivity.
          + left. split; [|exact Hnone].
            rewrite !existsb_app. simpl. now rewrite !orb_true_r. }
      destruct delivery as [result|s|e| |msg]; try discriminate.
      * pose proof (RunPostHooks_log pipeline ctx1 result None
                      (len (bifrostPlugins bifrost)) log2) as Hpost.
        destruct (RunPostHooks pipeline ctx1 result None _ log2)
          as [[[[c3 r3] e3] p3] log3].
        simpl in Hpost. inversion Hrun; subst log'.
        apply Hgoal. now rewrite Hpost, Hlen.
      * pose proof (RunPostHooks_log pipeline ctx1 None (Some e)
                      (len (bifrostPlugins bifrost)) log2) as Hpost.
        destruct (RunPostHooks pipeline ctx1 None (Some e) _ log2)
          as [[[[c3 r3] e3] p3] log3].
        simpl in Hpost. inversion Hrun; subst log'.
        apply Hgoal. now rewrite Hpost, Hlen.
    + inversion Hrun; subst log'. exists (tools ++ preEvents 0 k None).
      split; [exact Hprefix | apply Hquiet].
    + inversion Hrun; subst log'. exists (tools ++ preEvents 0 k None).
      split; [exact Hprefix | apply Hquiet].
    + discriminate.
Qed.

(** C2, at the failing input.  A chat-completion stream through one plugin,
    to an adapter that fails to set the stream up: the pre-hook of the plugin
    has run, the pipeline ends with the adapter's failure, and no post-hook
    runs.  The same request sent as a plain chat completion, to the same
    adapter with the same failure, does run the post-hook. *)
Theorem stream_failure_runs_no_post_hook :
  let stream := Bifrost_ChatCompletionStreamRequest Sample.requiresKey Sample.validate
                  Sample.failingStreamEngine None
                  (Sample.chat OpenAI "gpt-4o-mini" []) [] in
  let plain := Bifrost_ChatCompletionRequest Sample.requiresKey Sample.validate
                 Sample.failingStreamEngine None
                 (Sample.chat OpenAI "gpt-4o-mini" []) [] in
  let failure := {| IsBifrostError := false; StatusCode := Some 500;
                    Error := {| Type_ := None; Message := "upstream failure";
                                Cause := None |};
                    AllowFallbacks := None; Provider := OpenAI |} in
  List.length (bifrostPlugins Sample.failingStreamEngine) = 1%nat
  /\ fst stream = Returned None (Some failure)
  /\ snd stream = [EvPreHook 0; EvEnqueue OpenAI; EvAdapterCall OpenAI "gpt-4o-mini"]
  /\ preHooksOf (snd stream) = [0%nat]
  /\ postHooksOf (snd stream) = []
  /\ postHooksOf (snd stream) <> rev (preHooksOf (snd stream))
  /\ fst plain = Returned None (Some failure)
  /\ snd plain = [EvPreHook 0; EvEnqueue OpenAI; EvAdapterCall OpenAI "gpt-4o-mini";
                  EvPostHook 0].
Proof. repeat split. discriminate. Qed.

(** A short-circuit that carries neither a response nor an error stops the
    pre-hooks but not the request: it goes on to the queue and the
    post-hooks of all the plugins run, that of the second plugin included,
    whose pre-hook never ran. *)
Lemma empty_short_circuit_runs_unmatched_post_hook :
  tryRequest Sample.requiresKey
    (Sample.engine [ Sample.shortCircuiting "gate" {| Response := None;
                                                       ShortCircuitError := None |};
                     Sample.passive "metrics" ]
                   None (Sample.singleQueue (Sample.steadyAdapter OpenAI "r1")) 0)
    (Sample.chat OpenAI "gpt-4o-mini" []) None ChatCompletionRequest []
  = (Returned (Some (Sample.response "r1")) None,
     [EvPreHook 0; EvShortCircuit 0; EvEnqueue OpenAI;
      EvAdapterCall OpenAI "gpt-4o-mini"; EvPostHook 1; EvPostHook 0]).
Proof. reflexivity. Qed.

(* ================================================================= *)
(** ** Queue admission, as the dispatcher performs it *)

Section AdmissionInTryRequest.

Variable providerRequiresKey : ModelProvider -> bool.
Variables (bifrost : Bifrost) (req : BifrostRequest) (ctx : option Context)
          (requestType : RequestType) (log : Log).
Variables (queue : Queue) (c : Context) (preReq : BifrostRequest)
          (shortCircuit : option PluginShortCircuit) (preCount : Z)
          (pipeline : PluginPipeline) (log1 : Log).

(** The caller's context, and the context [c] as the pre-hooks leave it. *)
Let c0 : Context := match ctx with Some c => c | None => backgroundCtx end.

Hypothesis Hqueue : getProviderQueue bifrost (ReqProvider req) = inr queue.
Hypothesis Hpre :
  RunPreHooks (getPluginPipeline bifrost) c0
              (Some (fst (addTools_tryRequest bifrost requestType req log)))
              (snd (addTools_tryRequest bifrost requestType req log))
  = ((c, Some preReq, shortCircuit, preCount), pipeline, log1).
Hypothesis Hgo : shortCircuitArgs shortCircuit = None.

(** A request that is turned away is answered without a worker: nothing
    is logged after the pre-hooks. *)
Lemma tryRequest_turned_away (a : Admission) :
  admission (dropExcessRequests bifrost) queue c = a ->
  a <> Sent ->
  tryRequest providerRequiresKey bifrost req ctx requestType log
  = (match a with
     | DroppedFull => Returned None (Some errQueueFull)
     | CancelledWaiting => Returned None (Some errCancelledWaiting)
     | _ => Blocked
     end, log1).
Proof.
  intros Ha Hne. unfold tryRequest. rewrite Hqueue.
  destruct (addTools_tryRequest bifrost requestType req log) as [req' log0].
  simpl in Hpre. fold c0. rewrite Hpre, Hgo, Ha.
  destruct a; [congruence | reflexivity ..].
Qed.


(** When no pre-hook replaces the context, the token the admission looks at
    is the caller's. *)
Lemma pre_hooks_keep_context :
  (forall plugin c' r, In plugin (bifrostPlugins bifrost) ->
                       fst (fst (fst (PreHook plugin c' r))) = c') ->
  c = c0.
Proof.
  intros Hkeep.
  pose proof (preHooksFrom_ctx (bifrostPlugins bifrost) Hkeep 0
                (getPluginPipeline bifrost) c0
                (Some (fst (addTools_tryRequest bifrost requestType req log)))
                (snd (addTools_tryRequest bifrost requestType req log))) as H.
  unfold RunPreHooks in Hpre. simpl in Hpre. rewrite Hpre in H. simpl in H.
  exact H.
Qed.

End AdmissionInTryRequest.




(** The token is the one the pre-hooks leave.  Here the caller gives no
    context, so none that can fire, and a pre-hook installs one that fires
    at the second instant; drop-excess is unset and the queue stays full:
    the parked request leaves with the cancellation error. *)
Lemma pre_hook_context_governs_admission :
  tryRequest Sample.requiresKey Sample.parkingDeadlineEngine
             (Sample.chat OpenAI "gpt-4o-mini" []) None ChatCompletionRequest []
  = (Returned None (Some errCancelledWaiting), [EvPreHook 0])
  /\ dropExcessRequests Sample.parkingDeadlineEngine = false.
Proof. split; reflexivity. Qed.

(* ================================================================= *)
(** ** Fallback cascade *)






Section CascadeFacts.

Context {R : Type}.
Variable try : BifrostRequest -> Log -> outcome R * Log.
Variable bifrost : Bifrost.
Variable req : BifrostRequest.





End CascadeFacts.



(* ================================================================= *)
(** ** Provider tag on the errors of the cascade *)

Section Tags.

Context {R : Type}.
Variable validateRequest : BifrostRequest -> option BifrostError.
Variable try : BifrostRequest -> Log -> outcome R * Log.
Variable bifrost : Bifrost.



End Tags.

(* ================================================================= *)
(** * Further properties *)

(** ** The worker *)

Lemma adapterCallsOf_post (p : ModelProvider) (l : list nat) :
  adapterCallsOf p (map EvPostHook l) = 0%nat.
Proof. induction l as [|i l IH]; [reflexivity | exact IH]. Qed.

Lemma no_sleep_in_post (l : list nat) : existsb isSleep (map EvPostHook l) = false.
Proof. induction l as [|i l IH]; [reflexivity | exact IH]. Qed.

Lemma workerPostHookRunner_posts (bifrost : Bifrost) :
  runsPostHooksOnly (workerPostHookRunner bifrost).
Proof.
  intros ctx resp err log. unfold workerPostHookRunner.
  pose proof (RunPostHooks_log (getPluginPipeline bifrost) ctx resp err
                (len (bifrostPlugins bifrost)) log) as H.
  destruct (RunPostHooks (getPluginPipeline bifrost) ctx resp err
              (len (bifrostPlugins bifrost)) log) as [[[[c r] e] p] log'].
  simpl in *. eexists. exact H.
Qed.

Lemma throughRunner_posts (runner : PostHookRunner) :
  runsPostHooksOnly runner ->
  forall elements ctx log,
  exists l, snd (throughRunner runner ctx elements log) = log ++ map EvPostHook l.
Proof.
  intros Hr. induction elements as [|element rest IH]; intros ctx log.
  - exists []. simpl. now rewrite app_nil_r.
  - simpl.
    destruct (Hr ctx (StreamResponse element) (StreamError element) log) as [l1 H1].
    destruct (runner ctx (StreamResponse element) (StreamError element) log)
      as [[[ctx1 resp] err] log1]. simpl in H1. subst log1.
    destruct (IH ctx1 (log ++ map EvPostHook l1)) as [l2 H2].
    destruct (throughRunner runner ctx1 rest (log ++ map EvPostHook l1))
      as [rest' log2].
    simpl in *. exists (l1 ++ l2). rewrite H2, map_app. now rewrite app_assoc.
Qed.

(** What one look at the adapter adds to the log: at most one call, then
    post-hook events only. *)
Lemma handleProviderStreamRequest_events (provider : Adapter) (req : ChannelMessage)
    (key : Key) (runner : PostHookRunner) (reqType : RequestType) (log log' : Log)
    (out : option StreamChan * option BifrostError) :
  runsPostHooksOnly runner ->
  handleProviderStreamRequest provider req key runner reqType log = inr (out, log') ->
  exists call l,
    log' = log ++ call ++ map EvPostHook l
    /\ (call = []
        \/ call = [EvAdapterCall (GetProviderKey provider) (Model (msgRequest req))]).
Proof.
  intros Hr. unfold handleProviderStreamRequest. intros H.
  assert (Hs : forall c o l0 res,
             streamed runner c o l0 = res ->
             exists l, snd res = l0 ++ map EvPostHook l).
  { intros c o l0 res <-. unfold streamed. destruct (fst o) as [elements|].
    - destruct (throughRunner_posts runner Hr elements c l0) as [l Hl].
      destruct (throughRunner runner c elements l0) as [els log1]. simpl in *.
      now exists l.
    - exists []. simpl. now rewrite app_nil_r. }
  assert (Hnone : exists call l,
             log = log ++ call ++ map EvPostHook l
             /\ (call = []
                 \/ call = [EvAdapterCall (GetProviderKey provider)
                                          (Model (msgRequest req))])).
  { exists [], []. split; [now rewrite app_nil_r | now left]. }
  destruct reqType;
    try (inversion H; subst; exact Hnone);
    try destruct (ChatCompletionInput (Input (msgRequest req)));
    try discriminate;
    inversion H as [H1];
    match type of H1 with
    | streamed _ ?c ?o ?l0 = _ =>
        let posts := fresh "posts" in
        let Hp := fresh "Hp" in
        destruct (Hs c o l0 _ H1) as [posts Hp]; simpl in Hp; subst log';
        eexists; exists posts; split; [rewrite <- app_assoc; reflexivity | now right]
    end.
Qed.

Lemma handleProviderRequest_events (provider : Adapter) (req : ChannelMessage)
    (key : Key) (reqType : RequestType) (log log' : Log)
    (out : option BifrostResponse * option BifrostError) :
  handleProviderRequest provider req key reqType log = inr (out, log') ->
  exists call l,
    log' = log ++ call ++ map EvPostHook l
    /\ (call = []
        \/ call = [EvAdapterCall (GetProviderKey provider) (Model (msgRequest req))]).
Proof.
  unfold handleProviderRequest. intros H.
  destruct reqType;
    try destruct (TextCompletionInput (Input (msgRequest req)));
    try destruct (ChatCompletionInput (Input (msgRequest req)));
    try discriminate; inversion H; subst;
    first [ exists [], []; split; [now rewrite app_nil_r | now left]
          | exists [EvAdapterCall (GetProviderKey provider) (Model (msgRequest req))], [];
            split; [reflexivity | now right] ].
Qed.

(** A fresh run of the retry loop looks at the adapter once at most and never
    backs off. *)
Lemma retryLoop_events (fuel : nat) (provider : Adapter) (req : ChannelMessage)
    (key : Key) (runner : PostHookRunner) (maxRetries : Z) (st st' : Attempt)
    (log log' : Log) :
  runsPostHooksOnly runner ->
  attempts st = 0 ->
  retryLoop fuel provider req key runner maxRetries st log = inr (st', log') ->
  exists call l,
    log' = log ++ call ++ map EvPostHook l
    /\ (call = []
        \/ (0 <= maxRetries
            /\ call = [EvAdapterCall (GetProviderKey provider)
                                     (Model (msgRequest req))])).
Proof.
  intros Hr H0 H.
  assert (Hnone : exists call l,
             log = log ++ call ++ map EvPostHook l
             /\ (call = []
                 \/ (0 <= maxRetries
                     /\ call = [EvAdapterCall (GetProviderKey provider)
                                              (Model (msgRequest req))]))).
  { exists [], []. split; [now rewrite app_nil_r | now left]. }
  destruct fuel as [|fuel]; cbn [retryLoop] in H.
  { inversion H; subst. exact Hnone. }
  rewrite H0 in H.
  destruct (0 <=? maxRetries) eqn:Hm; [|inversion H; subst; exact Hnone].
  apply Z.leb_le in Hm. change (0 >? 0) with false in H. cbv iota in H.
  destruct (isStreamRequestType (msgType req)).
  - destruct (handleProviderStreamRequest provider req key runner (msgType req) log)
      as [|[[s e] l]] eqn:Hcall; [discriminate|].
    apply handleProviderStreamRequest_events in Hcall; [|exact Hr].
    destruct Hcall as [call [posts [Hl Hc]]].
    assert (Hres : exists call0 l0,
               l = log ++ call0 ++ map EvPostHook l0
               /\ (call0 = []
                   \/ (0 <= maxRetries
                       /\ call0 = [EvAdapterCall (GetProviderKey provider)
                                                 (Model (msgRequest req))]))).
    { exists call, posts. split; [exact Hl|]. destruct Hc; [now left | right; auto]. }
    destruct e as [e|]; simpl in H.
    + destruct (IsBifrostError e); simpl in H; inversion H; subst; exact Hres.
    + inversion H; subst. exact Hres.
  - destruct (handleProviderRequest provider req key (msgType req) log)
      as [|[[r e] l]] eqn:Hcall; [discriminate|].
    apply handleProviderRequest_events in Hcall.
    destruct Hcall as [call [posts [Hl Hc]]].
    assert (Hres : exists call0 l0,
               l = log ++ call0 ++ map EvPostHook l0
               /\ (call0 = []
                   \/ (0 <= maxRetries
                       /\ call0 = [EvAdapterCall (GetProviderKey provider)
                                                 (Model (msgRequest req))]))).
    { exists call, posts. split; [exact Hl|]. destruct Hc; [now left | right; auto]. }
    destruct e as [e|]; simpl in H; inversion H; subst; exact Hres.
Qed.

Lemma adapterCallsOf_call_le (p q : ModelProvider) (model : string) (call : Log) :
  call = [] \/ call = [EvAdapterCall q model] ->
  (adapterCallsOf p call <= 1)%nat.
Proof.
  intros [->| ->]; unfold adapterCallsOf; simpl; [lia|].
  destruct (String.eqb p q); simpl; lia.
Qed.

(** X1.  One turn of the worker, whatever the kind of the request and the
    retry budget: the log grows by at most one adapter call, never by a
    back-off sleep; the number of adapter calls is within [MaxRetries + 1],
    so there is none when the budget is negative. *)
Theorem requestWorker_one_call_no_backoff
    (providerRequiresKey : ModelProvider -> bool) (bifrost : Bifrost)
    (queue : Queue) (req : ChannelMessage) (log log' : Log) (d : Delivery) :
  requestWorker providerRequiresKey bifrost queue req log = (d, log') ->
  exists evs,
    log' = log ++ evs
    /\ (forall p, adapterCallsOf p evs <= 1)%nat
    /\ existsb isSleep evs = false
    /\ (forall config p,
          GetConfigForProvider (account bifrost) (GetProviderKey (adapter queue))
            = inr config ->
          Z.of_nat (adapterCallsOf p evs)
          <= Z.max 0 (MaxRetries (networkConfig config) + 1)).
Proof.
  unfold requestWorker. intros H.
  assert (Hnil : exists evs,
             log = log ++ evs
             /\ (forall p, adapterCallsOf p evs <= 1)%nat
             /\ existsb isSleep evs = false
             /\ (forall config p,
                   GetConfigForProvider (account bifrost)
                     (GetProviderKey (adapter queue)) = inr config ->
                   Z.of_nat (adapterCallsOf p evs)
                   <= Z.max 0 (MaxRetries (networkConfig config) + 1))).
  { exists []. split; [now rewrite app_nil_r|]. split; [intros p; unfold adapterCallsOf; simpl; lia|].
    split; [reflexivity|]. intros config p _.
    change (adapterCallsOf p []) with 0%nat. lia. }
  destruct (if providerRequiresKey (GetProviderKey (adapter queue)) then _ else _)
    as [key|err|msg]; [|inversion H; subst; exact Hnil ..].
  destruct (GetConfigForProvider (account bifrost) (GetProviderKey (adapter queue)))
    as [err|config] eqn:Hcfg; [inversion H; subst; exact Hnil|].
  destruct (retryLoop _ _ _ _ _ _ _ _) as [panic|[st l]] eqn:Hloop;
    [inversion H; subst; exact Hnil|].
  apply retryLoop_events in Hloop;
    [|apply workerPostHookRunner_posts | reflexivity].
  destruct Hloop as [call [posts [Hl Hcall]]].
  assert (Hres : exists evs,
             l = log ++ evs
             /\ (forall p, adapterCallsOf p evs <= 1)%nat
             /\ existsb isSleep evs = false
             /\ (forall config0 p,
                   @inr string ProviderConfig config = inr config0 ->
                   Z.of_nat (adapterCallsOf p evs)
                   <= Z.max 0 (MaxRetries (networkConfig config0) + 1))).
  { exists (call ++ map EvPostHook posts). split; [exact Hl|].
    assert (Hc : forall p, adapterCallsOf p (call ++ map EvPostHook posts)
                           = adapterCallsOf p call).
    { intros p. rewrite adapterCallsOf_app, adapterCallsOf_post. lia. }
    split; [|split].
    - intros p. rewrite Hc. destruct Hcall as [Hc0|[_ Hc1]].
      + apply (adapterCallsOf_call_le p "" "" call). left. exact Hc0.
      + eapply adapterCallsOf_call_le. right. exact Hc1.
    - rewrite existsb_app, no_sleep_in_post.
      destruct Hcall as [->|[_ ->]]; reflexivity.
    - intros config0 p Heq. injection Heq as <-. rewrite Hc.
      destruct Hcall as [->|[Hm Hc1]]; [change (adapterCallsOf p []) with 0%nat; lia|].
      pose proof (adapterCallsOf_call_le p _ _ call (or_intror Hc1)). lia. }
  destruct (bifrostError st); [inversion H; subst; exact Hres|].
  destruct (isStreamRequestType (msgType req)); inversion H; subst; exact Hres.
Qed.

Lemma requestWorker_one_call_no_backoff_witness :
  exists evs,
    [EvAdapterCall OpenAI "gpt-4o-mini"] = [] ++ evs
    /\ (forall p, adapterCallsOf p evs <= 1)%nat
    /\ existsb isSleep evs = false
    /\ (forall config p,
          GetConfigForProvider (account Sample.flakyEngine) OpenAI = inr config ->
          Z.of_nat (adapterCallsOf p evs)
          <= Z.max 0 (MaxRetries (networkConfig config) + 1)).
Proof.
  apply (requestWorker_one_call_no_backoff Sample.requiresKey Sample.flakyEngine
           (Sample.openQueue Sample.flakyAdapter)
           (Installation.chatMessage OpenAI "gpt-4o-mini") []
           [EvAdapterCall OpenAI "gpt-4o-mini"] (OnErr (Sample.statusError 503))).
  reflexivity.
Defined.

(** X2.  A provider that needs a credential, none of whose keys supports
    the model: the worker answers the admission with the selector's error,
    not marked as a Bifrost error, and does not call the adapter. *)
Theorem requestWorker_without_supporting_key
    (providerRequiresKey : ModelProvider -> bool) (bifrost : Bifrost)
    (queue : Queue) (req : ChannelMessage) (log : Log) (keys : list Key) :
  providerRequiresKey (GetProviderKey (adapter queue)) = true ->
  GetKeysForProvider (account bifrost) (GetProviderKey (adapter queue)) = inr keys ->
  supportedKeysFor (GetProviderKey (adapter queue)) (Model (msgRequest req)) keys = [] ->
  exists e,
    requestWorker providerRequiresKey bifrost queue req log = (OnErr e, log)
    /\ IsBifrostError e = false
    /\ StatusCode e = None
    /\ Message (Error e)
       = (if len keys =? 0
          then noKeysForProvider (GetProviderKey (adapter queue))
          else noKeysForModel (Model (msgRequest req))).
Proof.
  intros Hreq Hkeys Hnone. unfold requestWorker. rewrite Hreq.
  unfold selectKeyFromProviderForModel. rewrite Hkeys.
  destruct (len keys =? 0).
  - eexists. split; [reflexivity|]. repeat split.
  - rewrite Hnone. eexists. split; [reflexivity|]. repeat split.
Qed.

Lemma requestWorker_without_supporting_key_witness :
  exists e,
    requestWorker Sample.requiresKey Installation.otherModelEngine
      (Sample.openQueue (Sample.steadyAdapter OpenAI "r1"))
      (Installation.chatMessage OpenAI "gpt-4o-mini") []
    = (OnErr e, [])
    /\ IsBifrostError e = false
    /\ StatusCode e = None
    /\ Message (Error e) = "no keys found that support model: gpt-4o-mini".
Proof.
  apply (requestWorker_without_supporting_key Sample.requiresKey
           Installation.otherModelEngine
           (Sample.openQueue (Sample.steadyAdapter OpenAI "r1"))
           (Installation.chatMessage OpenAI "gpt-4o-mini") []
           [Sample.key "sk-1" ["gpt-4"] 1]); reflexivity.
Defined.

(** X3.  A negative retry budget: the loop body never runs, so a provider
    that needs no credential is not called at all and the worker publishes
    an absent response (or stream) with no error. *)
Theorem requestWorker_negative_budget
    (providerRequiresKey : ModelProvider -> bool) (bifrost : Bifrost)
    (queue : Queue) (req : ChannelMessage) (log : Log) (config : ProviderConfig) :
  providerRequiresKey (GetProviderKey (adapter queue)) = false ->
  GetConfigForProvider (account bifrost) (GetProviderKey (adapter queue)) = inr config ->
  MaxRetries (networkConfig config) < 0 ->
  Done (msgContext req) (publishInstant queue) = false ->
  requestWorker providerRequiresKey bifrost queue req log
  = (if isStreamRequestType (msgType req)
     then OnResponseStream None else OnResponse None, log).
Proof.
  intros Hreq Hcfg Hneg Hdone. unfold requestWorker. rewrite Hreq, Hcfg.
  replace (Z.to_nat (MaxRetries (networkConfig config) + 1)) with 0%nat by lia.
  cbn [retryLoop bifrostError stream result_]. unfold publish. rewrite Hdone.
  destruct (isStreamRequestType (msgType req)); reflexivity.
Qed.

Lemma requestWorker_negative_budget_witness :
  requestWorker Sample.requiresKey Installation.negativeBudgetEngine
    (Sample.openQueue (Sample.steadyAdapter Ollama "r1"))
    (Installation.chatMessage Ollama "llama3") []
  = (OnResponse None, []).
Proof.
  apply (requestWorker_negative_budget Sample.requiresKey
           Installation.negativeBudgetEngine
           (Sample.openQueue (Sample.steadyAdapter Ollama "r1"))
           (Installation.chatMessage Ollama "llama3") [] (Sample.config (-1)));
    [reflexivity|reflexivity|simpl; lia|reflexivity].
Defined.

(* ================================================================= *)
(** ** The credential selector *)

(** X4.  Whatever branch returns it, the selected key is one of the
    provider's keys and passes the filter for the model. *)
Theorem selectKey_returns_supported_key
    (account : Account) (src : Z) (providerKey : ModelProvider) (model : string)
    (keys : list Key) (key : Key) :
  GetKeysForProvider account providerKey = inr keys ->
  selectKeyFromProviderForModel account src providerKey model = Ok key ->
  In key keys /\ keySupportsModel providerKey model key = true.
Proof.
  intros Hkeys Hsel. apply filter_In. fold (supportedKeysFor providerKey model keys).
  unfold selectKeyFromProviderForModel in Hsel. rewrite Hkeys in Hsel.
  destruct (len keys =? 0); [discriminate|].
  destruct (supportedKeysFor providerKey model keys) as [|a [|b l]] eqn:E.
  - discriminate.
  - injection Hsel as <-. now left.
  - destruct (Intn src (totalWeightOf (a :: b :: l))) as [r|]; [|discriminate].
    destruct (walkWeights (a :: b :: l) r 0) as [k|] eqn:W.
    + injection Hsel as <-. eapply walkWeights_In. exact W.
    + injection Hsel as <-. now left.
Qed.

Lemma selectKey_returns_supported_key_witness :
  In (Sample.key "sk-2" ["gpt-4o"] 3) Installation.weightedKeys
  /\ keySupportsModel OpenAI "gpt-4o" (Sample.key "sk-2" ["gpt-4o"] 3) = true.
Proof.
  apply (selectKey_returns_supported_key
           (Sample.accountWith Installation.weightedKeys 0) 150 OpenAI "gpt-4o");
    reflexivity.
Defined.

Lemma wrap64_small (z : Z) : - 2 ^ 63 <= z < 2 ^ 63 -> wrap64 z = z.
Proof.
  intros H. unfold wrap64. rewrite Z.mod_small; lia.
Qed.

Lemma sumWeights_nonneg (keys : list Key) :
  (forall key, In key keys -> 0 <= scaledWeight key) -> 0 <= sumWeights keys.
Proof.
  induction keys as [|k rest IH]; intros H; simpl; [lia|].
  assert (0 <= scaledWeight k) by (apply H; now left).
  assert (0 <= sumWeights rest) by (apply IH; intros; apply H; now right).
  lia.
Qed.

Lemma totalWeightOf_from (keys : list Key) (acc : Z) :
  (forall key, In key keys -> 0 <= scaledWeight key) ->
  0 <= acc -> acc + sumWeights keys < 2 ^ 63 ->
  fold_left (fun totalWeight key => wrap64 (totalWeight + scaledWeight key)) keys acc
  = acc + sumWeights keys.
Proof.
  revert acc. induction keys as [|k rest IH]; intros acc Hpos Hacc Hsum; simpl.
  - lia.
  - assert (0 <= scaledWeight k) by (apply Hpos; now left).
    assert (0 <= sumWeights rest)
      by (apply sumWeights_nonneg; intros; apply Hpos; now right).
    simpl in Hsum. rewrite wrap64_small by lia.
    rewrite IH; [lia | intros; apply Hpos; now right | lia | lia].
Qed.

(** The walk stops at the key whose share of the line [0, total) holds the
    drawn value. *)
Lemma walkWeights_interval (keys : list Key) :
  forall (randomValue currentWeight : Z),
  (forall key, In key keys -> 0 <= scaledWeight key) ->
  0 <= currentWeight -> currentWeight + sumWeights keys < 2 ^ 63 ->
  currentWeight <= randomValue < currentWeight + sumWeights keys ->
  exists before key after,
    keys = before ++ key :: after
    /\ walkWeights keys randomValue currentWeight = Some key
    /\ currentWeight + sumWeights before <= randomValue
       < currentWeight + sumWeights before + scaledWeight key.
Proof.
  induction keys as [|k rest IH]; intros r cw Hpos Hcw Hsum Hr; simpl in *.
  - lia.
  - assert (Hk : 0 <= scaledWeight k) by (apply Hpos; now left).
    assert (Hrest : forall key, In key rest -> 0 <= scaledWeight key)
      by (intros; apply Hpos; now right).
    pose proof (sumWeights_nonneg rest Hrest) as Hs.
    rewrite wrap64_small by lia.
    destruct (r <? cw + scaledWeight k) eqn:E.
    + apply Z.ltb_lt in E. exists [], k, rest. simpl.
      split; [reflexivity|]. split; [reflexivity | lia].
    + apply Z.ltb_ge in E.
      destruct (IH r (cw + scaledWeight k) Hrest) as [before [key [after [Hl [Hw Hi]]]]];
        try lia.
      exists (k :: before), key, after. simpl.
      split; [now rewrite Hl|]. split; [exact Hw | lia].
Qed.

(** X5.  Weighted selection.  With at least two supported keys, scaled
    weights that are not negative and a positive total within the range of
    [int], the selector draws [r] in [0, total) and returns the key whose
    interval of the running sum contains [r]: the key at position [i] is
    chosen exactly for the draws from the sum of the weights before it up to,
    but not including, that sum plus its own weight. *)
Theorem selectKey_weighted_interval
    (account : Account) (src : Z) (providerKey : ModelProvider) (model : string)
    (keys : list Key) :
  GetKeysForProvider account providerKey = inr keys ->
  let supported := supportedKeysFor providerKey model keys in
  (2 <= List.length supported)%nat ->
  (forall key, In key supported -> 0 <= scaledWeight key) ->
  0 < sumWeights supported < 2 ^ 63 ->
  exists before key after,
    supported = before ++ key :: after
    /\ selectKeyFromProviderForModel account src providerKey model = Ok key
    /\ sumWeights before <= src mod sumWeights supported
       < sumWeights before + scaledWeight key.
Proof.
  intros Hkeys supported Hlen Hpos Hsum.
  assert (Htotal : totalWeightOf supported = sumWeights supported).
  { unfold totalWeightOf. rewrite totalWeightOf_from; [lia | exact Hpos | lia | lia]. }
  pose proof (Z.mod_pos_bound src (sumWeights supported) ltac:(lia)) as Hr.
  destruct (walkWeights_interval supported (src mod sumWeights supported) 0 Hpos)
    as [before [key [after [Hl [Hw Hi]]]]]; try lia.
  exists before, key, after. split; [exact Hl|]. split; [|lia].
  unfold selectKeyFromProviderForModel. rewrite Hkeys.
  destruct keys as [|k0 ks].
  { unfold supported in Hlen. simpl in Hlen. lia. }
  rewrite len_cons_nonzero. fold supported.
  destruct supported as [|a [|b l]] eqn:E; simpl in Hlen; try lia.
  rewrite Htotal. unfold Intn.
  destruct (sumWeights (a :: b :: l) <=? 0) eqn:Hz; [apply Z.leb_le in Hz; lia|].
  now rewrite Hw.
Qed.

Lemma selectKey_weighted_interval_witness :
  exists before key after,
    Installation.weightedKeys = before ++ key :: after
    /\ selectKeyFromProviderForModel (Sample.accountWith Installation.weightedKeys 0)
         150 OpenAI "gpt-4o" = Ok key
    /\ sumWeights before <= 150 mod 400 < sumWeights before + scaledWeight key.
Proof.
  apply (selectKey_weighted_interval
           (Sample.accountWith Installation.weightedKeys 0) 150 OpenAI "gpt-4o"
           Installation.weightedKeys eq_refl).
  - simpl. lia.
  - intros key [<-|[<-|[]]]; vm_compute; discriminate.
  - vm_compute. split; reflexivity.
Defined.

(* ================================================================= *)
(** ** The plugin pipeline *)

Lemma preHooksFrom_count_field (rest : list Plugin) :
  forall (i : nat) (p : PluginPipeline) (ctx : Context)
         (req : option BifrostRequest) (log : Log),
  snd (fst (fst (preHooksFrom rest i p ctx req log)))
  = executedPreHooks (snd (fst (preHooksFrom rest i p ctx req log))).
Proof.
  induction rest as [|plugin rest IH]; intros i p ctx req log; simpl.
  - reflexivity.
  - destruct (PreHook plugin ctx req) as [[[ctx' req'] shortCircuit] err].
    destruct shortCircuit; [reflexivity | apply IH].
Qed.

(** X6.  On a pipeline fresh from the pool the pre-hooks run over a prefix of
    the plugins, in registration order: the count returned, which is also
    the count kept in the pipeline, is the number of pre-hooks run; it is the
    number of plugins unless a pre-hook short-circuited, and a short-circuit
    returned is the one some plugin gave.  Errors returned by pre-hooks do
    not stop the run. *)
Theorem RunPreHooks_runs_a_prefix
    (p : PluginPipeline) (ctx : Context) (req : option BifrostRequest) (log : Log) :
  executedPreHooks p = 0 ->
  exists k evs,
    (k <= List.length (plugins p))%nat
    /\ snd (fst (fst (RunPreHooks p ctx req log))) = Z.of_nat k
    /\ executedPreHooks (snd (fst (RunPreHooks p ctx req log))) = Z.of_nat k
    /\ snd (RunPreHooks p ctx req log) = log ++ evs
    /\ preHooksOf evs = seq 0 k
    /\ postHooksOf evs = []
    /\ (snd (fst (fst (fst (RunPreHooks p ctx req log)))) = None ->
        k = List.length (plugins p))
    /\ (forall sc, snd (fst (fst (fst (RunPreHooks p ctx req log)))) = Some sc ->
        (0 < k)%nat
        /\ exists plugin c r, In plugin (plugins p)
                              /\ snd (fst (PreHook plugin c r)) = Some sc).
Proof.
  intros Hzero. unfold RunPreHooks.
  destruct (preHooksFrom_log (plugins p) 0 p ctx req log)
    as [k [Hk [Hlog [Hpl [Hcount [Hnone Hsome]]]]]].
  assert (Hc : snd (fst (fst (preHooksFrom (plugins p) 0 p ctx req log))) = Z.of_nat k).
  { rewrite Hcount, Hzero. destruct k; reflexivity. }
  exists k,
    (preEvents 0 k (snd (fst (fst (fst (preHooksFrom (plugins p) 0 p ctx req log)))))).
  split; [exact Hk|]. split; [exact Hc|].
  split; [now rewrite <- preHooksFrom_count_field|].
  split; [exact Hlog|]. split; [apply preHooksOf_preEvents|].
  split; [apply postHooksOf_preEvents|]. split; [exact Hnone | exact Hsome].
Qed.

Lemma RunPreHooks_runs_a_prefix_witness :
  exists k evs,
    (k <= 3)%nat
    /\ snd (fst (fst (RunPreHooks (getPluginPipeline Sample.cachingEngine) backgroundCtx
                        (Some (Sample.chat OpenAI "gpt-4o-mini" [])) []))) = Z.of_nat k
    /\ executedPreHooks
         (snd (fst (RunPreHooks (getPluginPipeline Sample.cachingEngine) backgroundCtx
                      (Some (Sample.chat OpenAI "gpt-4o-mini" [])) []))) = Z.of_nat k
    /\ [EvPreHook 0; EvPreHook 1; EvShortCircuit 1] = [] ++ evs
    /\ preHooksOf evs = seq 0 k
    /\ postHooksOf evs = []
    /\ (snd (fst (fst (fst (RunPreHooks (getPluginPipeline Sample.cachingEngine)
                              backgroundCtx
                              (Some (Sample.chat OpenAI "gpt-4o-mini" [])) [])))) = None ->
        k = 3%nat)
    /\ (forall sc,
          snd (fst (fst (fst (RunPreHooks (getPluginPipeline Sample.cachingEngine)
                                backgroundCtx
                                (Some (Sample.chat OpenAI "gpt-4o-mini" [])) []))))
          = Some sc ->
          (0 < k)%nat
          /\ exists plugin c r, In plugin Sample.cachingPlugins
                                /\ snd (fst (PreHook plugin c r)) = Some sc).
Proof.
  apply (RunPreHooks_runs_a_prefix (getPluginPipeline Sample.cachingEngine)
           backgroundCtx (Some (Sample.chat OpenAI "gpt-4o-mini" [])) []).
  reflexivity.
Defined.

Lemma clampCount_formula (p : PluginPipeline) (count : Z) :
  clampCount p count = Z.to_nat (Z.min (Z.max 0 count) (len (plugins p))).
Proof.
  unfold clampCount, len.
  destruct (count <? 0) eqn:E1.
  - apply Z.ltb_lt in E1.
    destruct (0 >? Z.of_nat (List.length (plugins p))) eqn:E2.
    + rewrite Z.gtb_ltb in E2. apply Z.ltb_lt in E2. lia.
    + f_equal. lia.
  - apply Z.ltb_ge in E1.
    destruct (count >? Z.of_nat (List.length (plugins p))) eqn:E2.
    + rewrite Z.gtb_ltb in E2. apply Z.ltb_lt in E2. f_equal. lia.
    + rewrite Z.gtb_ltb in E2. apply Z.ltb_ge in E2. f_equal. lia.
Qed.

(** X7.  The count given to [RunPostHooks] is brought into bounds: the
    post-hooks that run are those of the plugins [min (max count 0) n - 1]
    down to [0], where [n] is the number of plugins; with a count that is
    not positive none runs and the result is the reconciliation of the
    arguments. *)
Theorem RunPostHooks_count_is_clamped
    (p : PluginPipeline) (ctx : Context) (resp : option BifrostResponse)
    (bifrostErr : option BifrostError) (count : Z) (log : Log) :
  snd (RunPostHooks p ctx resp bifrostErr count log)
  = log ++ map EvPostHook
             (rev (seq 0 (Z.to_nat (Z.min (Z.max 0 count) (len (plugins p))))))
  /\ (count <= 0 ->
      RunPostHooks p ctx resp bifrostErr count log
      = ((ctx, fst (reconcile resp bifrostErr), snd (reconcile resp bifrostErr)),
         p, log)).
Proof.
  split.
  - rewrite RunPostHooks_log, clampCount_formula. reflexivity.
  - intros Hc. unfold RunPostHooks. rewrite clampCount_formula.
    replace (Z.to_nat (Z.min (Z.max 0 count) (len (plugins p)))) with 0%nat
      by (unfold len; lia).
    reflexivity.
Qed.

Lemma RunPostHooks_count_is_clamped_witness :
  RunPostHooks (getPluginPipeline Sample.cachingEngine) backgroundCtx
    (Some (Sample.response "r1")) None (-1) []
  = ((backgroundCtx, Some (Sample.response "r1"), None),
     getPluginPipeline Sample.cachingEngine, []).
Proof.
  apply (RunPostHooks_count_is_clamped (getPluginPipeline Sample.cachingEngine)
           backgroundCtx (Some (Sample.response "r1")) None (-1) []).
  lia.
Defined.

(* ================================================================= *)
(** ** The dispatcher *)

Lemma adapterCallsOf_preEvents (p : ModelProvider) (i k : nat)
    (sc : option PluginShortCircuit) :
  adapterCallsOf p (preEvents i k sc) = 0%nat
  /\ existsb isEnqueue (preEvents i k sc) = false.
Proof.
  unfold preEvents. rewrite adapterCallsOf_app, existsb_app, no_enqueue_in_pre.
  assert (H : adapterCallsOf p (map EvPreHook (seq i k)) = 0%nat).
  { generalize (seq i k). induction l as [|j l IH]; [reflexivity | exact IH]. }
  rewrite H. destruct sc; split; reflexivity.
Qed.

Lemma no_enqueue_in_post (l : list nat) : existsb isEnqueue (map EvPostHook l) = false.
Proof. induction l as [|i l IH]; [reflexivity | exact IH]. Qed.

(** X8.  Short-circuit respect.  When the pre-hooks end with a
    short-circuit that carries a response or an error, [tryRequest] returns
    (it neither blocks nor crashes) without putting a message on a queue and
    without a call to any adapter. *)
Theorem tryRequest_short_circuit_contacts_no_provider
    (providerRequiresKey : ModelProvider -> bool)
    (bifrost : Bifrost) (req : BifrostRequest) (ctx : option Context)
    (requestType : RequestType) (log : Log) (queue : Queue) :
  getProviderQueue bifrost (ReqProvider req) = inr queue ->
  shortCircuitArgs
    (snd (fst (fst (fst
       (RunPreHooks (getPluginPipeline bifrost)
          (match ctx with Some c => c | None => backgroundCtx end)
          (Some (fst (addTools_tryRequest bifrost requestType req log)))
          (snd (addTools_tryRequest bifrost requestType req log)))))))
  <> None ->
  exists resp err evs,
    tryRequest providerRequiresKey bifrost req ctx requestType log
    = (Returned resp err, log ++ evs)
    /\ existsb isEnqueue evs = false
    /\ (forall p, adapterCallsOf p evs = 0%nat)
    /\ (resp = None \/ err = None).
Proof.
  intros Hqueue Hsc. unfold tryRequest. rewrite Hqueue.
  destruct (tryRequest_pre_hooks bifrost requestType
              (match ctx with Some c => c | None => backgroundCtx end) req log)
    as [tools [k H]].
  cbv zeta in H. destruct H as (Ht & Hcase & Hk & Hlog & Hpl & Hcount & _).
  destruct (addTools_tryRequest bifrost requestType req log) as [req' log0].
  simpl in Ht, Hlog, Hpl, Hcount, Hsc.
  destruct (RunPreHooks (getPluginPipeline bifrost) _ (Some req') log0)
    as [[[[[ctx1 preReq] sc] preCount] pipeline] log1].
  simpl in Hlog, Hpl, Hcount, Hsc.
  destruct (shortCircuitArgs sc) as [[scResp scErr]|]; [|congruence].
  pose proof (RunPostHooks_log pipeline ctx1 scResp scErr preCount log1) as Hpost.
  destruct (RunPostHooks pipeline ctx1 scResp scErr preCount log1)
    as [[[[c2 r2] e2] p2] log2].
  simpl in Hpost.
  exists (fst (errorWins (r2, e2))), (snd (errorWins (r2, e2))),
    (tools ++ preEvents 0 k sc
           ++ map EvPostHook (rev (seq 0 (clampCount pipeline preCount)))).
  split; [|split; [|split]].
  - unfold returned. rewrite Hpost, Hlog. f_equal. log_assoc.
  - rewrite !existsb_app, no_enqueue_in_post.
    destruct (adapterCallsOf_preEvents "" 0 k sc) as [_ ->].
    destruct Hcase; subst tools; reflexivity.
  - intros p. rewrite !adapterCallsOf_app, adapterCallsOf_post.
    destruct (adapterCallsOf_preEvents p 0 k sc) as [-> _].
    destruct Hcase; subst tools; reflexivity.
  - unfold errorWins. destruct e2; simpl; auto.
Qed.

Lemma tryRequest_short_circuit_contacts_no_provider_witness :
  exists resp err evs,
    tryRequest Sample.requiresKey Sample.cachingEngine
      (Sample.chat OpenAI "gpt-4o-mini" []) None ChatCompletionRequest []
    = (Returned resp err, [] ++ evs)
    /\ existsb isEnqueue evs = false
    /\ (forall p, adapterCallsOf p evs = 0%nat)
    /\ (resp = None \/ err = None).
Proof.
  apply (tryRequest_short_circuit_contacts_no_provider Sample.requiresKey
           Sample.cachingEngine (Sample.chat OpenAI "gpt-4o-mini" []) None
           ChatCompletionRequest []
           (Sample.openQueue (Sample.steadyAdapter OpenAI "r1"))).
  - reflexivity.
  - simpl. discriminate.
Defined.

(* ================================================================= *)
(** ** The fallback cascade *)





(* ================================================================= *)
(** ** Cancellation and blocking *)

Lemma sendOrDone_background (queue : Queue) (t : nat) :
  sendOrDone queue backgroundCtx t <> Some CancelledWaiting.
Proof. unfold sendOrDone. simpl. destruct (hasSpace queue t); discriminate. Qed.

Lemma waitForQueue_background (queue : Queue) (fuel t : nat) :
  waitForQueue queue backgroundCtx t fuel <> CancelledWaiting.
Proof.
  revert t. induction fuel as [|fuel IH]; intros t; simpl; [discriminate|].
  destruct (sendOrDone queue backgroundCtx t) as [a|] eqn:E; [|apply IH].
  intros ->. now apply (sendOrDone_background queue t).
Qed.

Lemma admission_background (dropExcess : bool) (queue : Queue) :
  admission dropExcess queue backgroundCtx <> CancelledWaiting.
Proof.
  unfold admission. destruct (sendOrDone queue backgroundCtx 0) as [a|] eqn:E.
  - intros ->. now apply (sendOrDone_background queue 0).
  - destruct dropExcess; [discriminate | apply waitForQueue_background].
Qed.

Lemma no_shortCircuit_in_post (l : list nat) :
  existsb isShortCircuit (map EvPostHook l) = false.
Proof. induction l as [|i l IH]; simpl; [reflexivity | exact IH]. Qed.

(** One turn of the worker only adds to the log, and no short-circuit. *)
Lemma requestWorker_extends_log
    (providerRequiresKey : ModelProvider -> bool) (bifrost : Bifrost)
    (queue : Queue) (req : ChannelMessage) (log log' : Log) (d : Delivery) :
  requestWorker providerRequiresKey bifrost queue req log = (d, log') ->
  exists evs, log' = log ++ evs /\ existsb isShortCircuit evs = false.
Proof.
  unfold requestWorker. intros H.
  assert (Hnil : exists evs, log = log ++ evs /\ existsb isShortCircuit evs = false).
  { exists []. split; [now rewrite app_nil_r | reflexivity]. }
  destruct (if providerRequiresKey (GetProviderKey (adapter queue)) then _ else _)
    as [key|err|msg]; [|inversion H; subst; exact Hnil ..].
  destruct (GetConfigForProvider (account bifrost) (GetProviderKey (adapter queue)))
    as [err|config]; [inversion H; subst; exact Hnil|].
  destruct (retryLoop _ _ _ _ _ _ _ _) as [panic|[st l]] eqn:Hloop;
    [inversion H; subst; exact Hnil|].
  apply retryLoop_events in Hloop;
    [|apply workerPostHookRunner_posts | reflexivity].
  destruct Hloop as [call [posts [Hl Hcall]]].
  assert (Hres : exists evs, l = log ++ evs /\ existsb isShortCircuit evs = false).
  { eexists. split; [exact Hl|]. rewrite existsb_app, no_shortCircuit_in_post.
    destruct Hcall as [->|[_ ->]]; reflexivity. }
  destruct (bifrostError st); [inversion H; subst; exact Hres|].
  destruct (isStreamRequestType (msgType req)); inversion H; subst; exact Hres.
Qed.

Lemma app_cons_longer {A : Type} (l rest : list A) (x : A) : l ++ x :: rest <> l.
Proof.
  intros H. apply (f_equal (@List.length A)) in H.
  rewrite length_app in H. simpl in H. lia.
Qed.

(** What [tryRequest] has logged once the message is on the queue. *)
Lemma tryRequest_after_enqueue
    (providerRequiresKey : ModelProvider -> bool)
    (bifrost : Bifrost) (req : BifrostRequest) (ctx : option Context)
    (requestType : RequestType) (log : Log)
    (queue : Queue) (c : Context) (preReq : BifrostRequest)
    (shortCircuit : option PluginShortCircuit) (preCount : Z)
    (pipeline : PluginPipeline) (log1 : Log) :
  getProviderQueue bifrost (ReqProvider req) = inr queue ->
  RunPreHooks (getPluginPipeline bifrost)
              (match ctx with Some c => c | None => backgroundCtx end)
              (Some (fst (addTools_tryRequest bifrost requestType req log)))
              (snd (addTools_tryRequest bifrost requestType req log))
  = ((c, Some preReq, shortCircuit, preCount), pipeline, log1) ->
  shortCircuitArgs shortCircuit = None ->
  admission (dropExcessRequests bifrost) queue c = Sent ->
  (workers queue = 0%nat ->
   tryRequest providerRequiresKey bifrost req ctx requestType log
   = (Blocked, log1 ++ [EvEnqueue (ReqProvider req)]))
  /\ exists evs,
       snd (tryRequest providerRequiresKey bifrost req ctx requestType log)
       = log1 ++ EvEnqueue (ReqProvider req) :: evs.
Proof.
  intros Hqueue Hpre Hgo Ha. unfold tryRequest. rewrite Hqueue.
  destruct (addTools_tryRequest bifrost requestType req log) as [req' log0].
  simpl in Hpre. rewrite Hpre, Hgo, Ha.
  destruct (workers queue) as [|n].
  { split; [reflexivity|]. exists []. reflexivity. }
  split; [discriminate|].
  destruct (requestWorker providerRequiresKey bifrost queue _ _)
    as [delivery log2] eqn:Ew.
  apply requestWorker_extends_log in Ew. destruct Ew as [w [Hw _]].
  assert (Hlog2 : log2 = log1 ++ EvEnqueue (ReqProvider req) :: w).
  { rewrite Hw, <- app_assoc. reflexivity. }
  assert (Hposts : forall log3 l,
             log3 = log2 ++ map EvPostHook l ->
             exists evs, log3 = log1 ++ EvEnqueue (ReqProvider req) :: evs).
  { intros log3 l ->. exists (w ++ map EvPostHook l).
    rewrite Hlog2, <- app_assoc. reflexivity. }
  destruct delivery as [result|s|e| |msg]; simpl;
    try (exists w; exact Hlog2).
  - pose proof (RunPostHooks_log pipeline c result None
                  (len (bifrostPlugins bifrost)) log2) as Hpost.
    destruct (RunPostHooks pipeline c result None _ log2)
      as [[[[c3 r3] e3] p3] log3].
    simpl in *. eapply Hposts. exact Hpost.
  - pose proof (RunPostHooks_log pipeline c None (Some e)
                  (len (bifrostPlugins bifrost)) log2) as Hpost.
    destruct (RunPostHooks pipeline c None (Some e) _ log2)
      as [[[[c3 r3] e3] p3] log3].
    simpl in *. eapply Hposts. exact Hpost.
Qed.

(** X11.  A request without a context is given the background context, which
    never fires.  If no pre-hook replaces the context, that is the token the
    admission looks at: the admission is not cancelled, and [tryRequest] does
    not end with the admission's cancellation error. *)
Theorem nil_context_admission_is_never_cancelled
    (providerRequiresKey : ModelProvider -> bool)
    (bifrost : Bifrost) (req : BifrostRequest)
    (requestType : RequestType) (log : Log)
    (queue : Queue) (c : Context) (preReq : BifrostRequest)
    (shortCircuit : option PluginShortCircuit) (preCount : Z)
    (pipeline : PluginPipeline) (log1 : Log) :
  (forall plugin c' r, In plugin (bifrostPlugins bifrost) ->
                       fst (fst (fst (PreHook plugin c' r))) = c') ->
  getProviderQueue bifrost (ReqProvider req) = inr queue ->
  RunPreHooks (getPluginPipeline bifrost) backgroundCtx
              (Some (fst (addTools_tryRequest bifrost requestType req log)))
              (snd (addTools_tryRequest bifrost requestType req log))
  = ((c, Some preReq, shortCircuit, preCount), pipeline, log1) ->
  shortCircuitArgs shortCircuit = None ->
  c = backgroundCtx
  /\ admission (dropExcessRequests bifrost) queue c <> CancelledWaiting
  /\ tryRequest providerRequiresKey bifrost req None requestType log
     <> (Returned None (Some errCancelledWaiting), log1).
Proof.
  intros Hkeep Hqueue Hpre Hgo.
  assert (Hc : c = backgroundCtx).
  { apply (pre_hooks_keep_context bifrost req None requestType log c preReq
             shortCircuit preCount pipeline log1 Hpre Hkeep). }
  assert (Ha : admission (dropExcessRequests bifrost) queue c <> CancelledWaiting).
  { rewrite Hc. apply admission_background. }
  split; [exact Hc|]. split; [exact Ha|].
  destruct (admission (dropExcessRequests bifrost) queue c) eqn:E.
  - destruct (tryRequest_after_enqueue providerRequiresKey bifrost req None
                requestType log queue c preReq shortCircuit preCount pipeline log1
                Hqueue Hpre Hgo E) as [_ [evs Hlog]].
    intros H. rewrite H in Hlog. simpl in Hlog.
    symmetry in Hlog. exact (app_cons_longer _ _ _ Hlog).
  - congruence.
  - rewrite (tryRequest_turned_away providerRequiresKey bifrost req None requestType
               log queue c preReq shortCircuit preCount pipeline log1
               Hqueue Hpre Hgo DroppedFull E); discriminate.
  - rewrite (tryRequest_turned_away providerRequiresKey bifrost req None requestType
               log queue c preReq shortCircuit preCount pipeline log1
               Hqueue Hpre Hgo Parked E); discriminate.
Qed.

Lemma nil_context_admission_is_never_cancelled_witness :
  backgroundCtx = backgroundCtx
  /\ admission true (Sample.fullQueue (Sample.steadyAdapter OpenAI "r1") 99 3)
               backgroundCtx <> CancelledWaiting
  /\ tryRequest Sample.requiresKey Installation.auditedDroppingEngine
       (Sample.chat OpenAI "gpt-4o-mini" []) None ChatCompletionRequest []
     <> (Returned None (Some errCancelledWaiting), [EvPreHook 0]).
Proof.
  apply (nil_context_admission_is_never_cancelled Sample.requiresKey
           Installation.auditedDroppingEngine (Sample.chat OpenAI "gpt-4o-mini" [])
           ChatCompletionRequest []
           (Sample.fullQueue (Sample.steadyAdapter OpenAI "r1") 99 3)
           backgroundCtx (Sample.chat OpenAI "gpt-4o-mini" []) None 1
           {| plugins := [Sample.passive "audit"]; executedPreHooks := 1;
              preHookErrors := []; postHookErrors := [] |}
           [EvPreHook 0]).
  - intros plugin c' r [<-|[]]. reflexivity.
  - reflexivity.
  - reflexivity.
  - reflexivity.
Defined.



(* ================================================================= *)
(** ** Hooks of a call that returns *)

(** What [tryStreamRequest] has logged when the pre-hooks are done. *)
Lemma tryStreamRequest_pre_hooks (bifrost : Bifrost) (requestType : RequestType)
    (ctx : Context) (req : BifrostRequest) (log : Log) :
  exists tools k,
    let start := addTools_tryStreamRequest bifrost requestType req log in
    let run := RunPreHooks (getPluginPipeline bifrost) ctx (Some (fst start))
                           (snd start) in
    let shortCircuit := snd (fst (fst (fst run))) in
    snd start = log ++ tools
    /\ (tools = [] \/ tools = [EvMCPTools])
    /\ (k <= List.length (bifrostPlugins bifrost))%nat
    /\ snd run = (log ++ tools) ++ preEvents 0 k shortCircuit
    /\ plugins (snd (fst run)) = bifrostPlugins bifrost
    /\ snd (fst (fst run)) = Z.of_nat k
    /\ (forall sc, shortCircuit = Some sc ->
        exists plugin c r, In plugin (bifrostPlugins bifrost)
                           /\ snd (fst (PreHook plugin c r)) = Some sc).
Proof.
  assert (Htools : exists tools,
             snd (addTools_tryStreamRequest bifrost requestType req log) = log ++ tools
             /\ (tools = [] \/ tools = [EvMCPTools])).
  { unfold addTools_tryStreamRequest.
    destruct (negb (RequestType_eqb requestType SpeechStreamRequest)
              && negb (RequestType_eqb requestType TranscriptionStreamRequest)
              && negb (isNil (mcpManager bifrost)));
      [destruct (mcpManager bifrost)|].
    - exists [EvMCPTools]. split; [reflexivity | now right].
    - exists []. split; [simpl; now rewrite app_nil_r | now left].
    - exists []. split; [simpl; now rewrite app_nil_r | now left]. }
  destruct Htools as [tools [Ht Hcase]]. exists tools.
  unfold RunPreHooks.
  destruct (preHooksFrom_log (plugins (getPluginPipeline bifrost)) 0
              (getPluginPipeline bifrost) ctx
              (Some (fst (addTools_tryStreamRequest bifrost requestType req log)))
              (snd (addTools_tryStreamRequest bifrost requestType req log)))
    as [k [Hk [Hlog [Hpl [Hcount [Hnone Hsome]]]]]].
  exists k. cbv zeta. rewrite <- Ht.
  split; [reflexivity|]. split; [exact Hcase|]. split; [exact Hk|].
  split; [exact Hlog|]. split; [exact Hpl|]. split.
  - rewrite Hcount. destruct k; reflexivity.
  - intros sc H. now destruct (Hsome sc H).
Qed.

(** A call of [tryStreamRequest] that returns after a short-circuit has run
    the post-hooks of the plugins whose pre-hook ran, in reverse order. *)
Lemma tryStreamRequest_hooks_mirror
    (providerRequiresKey : ModelProvider -> bool)
    (bifrost : Bifrost) (req : BifrostRequest) (ctx : option Context)
    (requestType : RequestType) (log log' : Log)
    (stream : option StreamChan) (err : option BifrostError) :
  neverEmptyShortCircuit bifrost ->
  tryStreamRequest providerRequiresKey bifrost req ctx requestType log
    = (Returned stream err, log') ->
  exists evs,
    log' = log ++ evs
    /\ (existsb isShortCircuit evs = true ->
        exists N, (N <= List.length (bifrostPlugins bifrost))%nat
                  /\ preHooksOf evs = seq 0 N
                  /\ postHooksOf evs = rev (seq 0 N)
                  /\ (0 < N)%nat /\ In (EvShortCircuit (N - 1)) evs).
Proof.
  intros Hsc Hrun. unfold tryStreamRequest in Hrun.
  destruct (getProviderQueue bifrost (ReqProvider req)) as [e0|queue].
  { inversion Hrun; subst. exists []. split; [now rewrite app_nil_r|].
    simpl. discriminate. }
  destruct (tryStreamRequest_pre_hooks bifrost requestType
              (match ctx with Some c => c | None => backgroundCtx end) req log)
    as [tools [k H]].
  cbv zeta in H. destruct H as (Ht & Hcase & Hk & Hlog & Hpl & Hcount & Hsome).
  pose proof (fun s =>
                RunPreHooks_short_circuit_count (getPluginPipeline bifrost)
                  (match ctx with Some c => c | None => backgroundCtx end)
                  (Some (fst (addTools_tryStreamRequest bifrost requestType req log)))
                  (snd (addTools_tryStreamRequest bifrost requestType req log)) s)
    as Hpos.
  destruct (addTools_tryStreamRequest bifrost requestType req log) as [req' log0].
  simpl in Ht, Hlog, Hpl, Hcount, Hsome, Hpos.
  destruct (RunPreHooks (getPluginPipeline bifrost) _ (Some req') log0)
    as [[[[[ctx1 preReq] sc] preCount] pipeline] log1].
  simpl in Hlog, Hpl, Hcount, Hsome, Hpos.
  assert (Htp : preHooksOf tools = [] /\ postHooksOf tools = []
                /\ existsb isShortCircuit tools = false).
  { destruct Hcase; subst tools; repeat split. }
  destruct Htp as (Htpre & Htpost & Htsc).
  assert (Hclamp : clampCount pipeline (Z.of_nat k) = k).
  { apply clampCount_of_nat. now rewrite Hpl. }
  destruct (shortCircuitArgs sc) as [[scResp scErr]|] eqn:Eargs.
  - (* short-circuit *)
    pose proof (RunPostHooks_log pipeline ctx1 scResp scErr preCount log1) as Hpost.
    destruct (RunPostHooks pipeline ctx1 scResp scErr preCount log1)
      as [[[[c2 r2] e2] p2] log2].
    simpl in Hpost.
    assert (Hlog' : log' = log2) by (destruct e2; inversion Hrun; reflexivity).
    subst log'.
    exists (tools ++ preEvents 0 k sc ++ map EvPostHook (rev (seq 0 k))).
    split.
    + rewrite Hpost, Hlog, Hcount, Hclamp. log_assoc.
    + intros _. exists k. split; [exact Hk|]. split; [|split].
      * rewrite !preHooksOf_app, Htpre, preHooksOf_preEvents, preHooksOf_post.
        simpl. now rewrite app_nil_r.
      * rewrite !postHooksOf_app, Htpost, postHooksOf_preEvents, postHooksOf_post.
        reflexivity.
      * destruct sc as [s|]; [|discriminate].
        split; [specialize (Hpos s eq_refl); lia|].
        apply in_or_app. right. apply in_or_app. left.
        unfold preEvents. apply in_or_app. right. now left.
  - (* no short-circuit is acted upon: none is in the log *)
    assert (Enone : sc = None).
    { destruct sc as [s|]; [|reflexivity]. exfalso.
      destruct (Hsome s eq_refl) as [plugin [c [r [Hin Hs]]]].
      exact (shortCircuitArgs_Some s (Hsc plugin c r s Hin Hs) Eargs). }
    subst sc.
    assert (Hquiet : existsb isShortCircuit (tools ++ preEvents 0 k None) = false).
    { rewrite existsb_app, Htsc. now destruct (preEvents_None_plain 0 k) as [-> _]. }
    assert (Hprefix : log1 = log ++ tools ++ preEvents 0 k None).
    { rewrite Hlog. log_assoc. }
    assert (Hstop : log' = log1 ->
              exists evs,
                log' = log ++ evs
                /\ (existsb isShortCircuit evs = true ->
                    exists N, (N <= List.length (bifrostPlugins bifrost))%nat
                              /\ preHooksOf evs = seq 0 N
                              /\ postHooksOf evs = rev (seq 0 N)
                              /\ (0 < N)%nat
                              /\ In (EvShortCircuit (N - 1)) evs)).
    { intros ->. exists (tools ++ preEvents 0 k None).
      split; [exact Hprefix|]. rewrite Hquiet. discriminate. }
    destruct preReq as [preReq|]; [|inversion Hrun; subst; now apply Hstop].
    destruct (admission (dropExcessRequests bifrost) queue ctx1);
      [|inversion Hrun; subst; now apply Hstop ..|discriminate].
    destruct (workers queue) as [|n]; [discriminate|].
    destruct (requestWorker providerRequiresKey bifrost queue _ _)
      as [delivery log2] eqn:Ew.
    apply requestWorker_extends_log in Ew. destruct Ew as [w [Elog2 Hw]].
    assert (Hlog' : log' = log2).
    { destruct delivery; try discriminate; inversion Hrun; reflexivity. }
    subst log'.
    exists ((tools ++ preEvents 0 k None) ++ [EvEnqueue (ReqProvider req)] ++ w).
    split.
    + rewrite Elog2, Hprefix. log_assoc.
    + rewrite (existsb_app isShortCircuit (tools ++ preEvents 0 k None)), Hquiet.
      simpl. rewrite Hw. discriminate.
Qed.

(** X30.  When no plugin answers with an empty short-circuit, a call that
    returns has run its hooks as a mirror: the pre-hooks that ran are those
    of the first [N] plugins in registration order, and the post-hooks that
    ran are those of the same [N] plugins in reverse order, where [N] counts
    all the plugins when the message went on the queue and the plugins up to
    and including the one that short-circuited otherwise.  This holds for a
    non-streaming request after a short-circuit and after the message has
    been put on the queue, whether the worker succeeds or fails; and for a
    request handled as a stream after a short-circuit. *)
Theorem post_hooks_mirror_pre_hooks
    (providerRequiresKey : ModelProvider -> bool)
    (bifrost : Bifrost) (req : BifrostRequest) (ctx : option Context)
    (requestType : RequestType) (log : Log) :
  neverEmptyShortCircuit bifrost ->
  (isStreamRequestType requestType = false ->
   forall resp err log',
     tryRequest providerRequiresKey bifrost req ctx requestType log
     = (Returned resp err, log') ->
     exists evs,
       log' = log ++ evs
       /\ (existsb isShortCircuit evs || existsb isEnqueue evs = true ->
           exists N, (N <= List.length (bifrostPlugins bifrost))%nat
                     /\ preHooksOf evs = seq 0 N
                     /\ postHooksOf evs = rev (seq 0 N)
                     /\ (existsb isEnqueue evs = true
                         /\ N = List.length (bifrostPlugins bifrost)
                         \/ (0 < N)%nat /\ In (EvShortCircuit (N - 1)) evs)))
  /\ (forall stream err log',
        tryStreamRequest providerRequiresKey bifrost req ctx requestType log
        = (Returned stream err, log') ->
        exists evs,
          log' = log ++ evs
          /\ (existsb isShortCircuit evs = true ->
              exists N, (N <= List.length (bifrostPlugins bifrost))%nat
                        /\ preHooksOf evs = seq 0 N
                        /\ postHooksOf evs = rev (seq 0 N)
                        /\ (0 < N)%nat /\ In (EvShortCircuit (N - 1)) evs)).
Proof.
  intros Hsc. split.
  - intros Hns resp err log' Hrun.
    exact (tryRequest_hooks_mirror providerRequiresKey bifrost req ctx requestType
             log log' resp err Hns Hsc Hrun).
  - intros stream err log' Hrun.
    exact (tryStreamRequest_hooks_mirror providerRequiresKey bifrost req ctx
             requestType log log' stream err Hsc Hrun).
Qed.

Lemma post_hooks_mirror_pre_hooks_witness :
  (exists evs,
     [EvPreHook 0; EvPreHook 1; EvShortCircuit 1; EvPostHook 1; EvPostHook 0] = [] ++ evs
     /\ (existsb isShortCircuit evs || existsb isEnqueue evs = true ->
         exists N, (N <= List.length (bifrostPlugins Sample.cachingEngine))%nat
                   /\ preHooksOf evs = seq 0 N
                   /\ postHooksOf evs = rev (seq 0 N)
                   /\ (existsb isEnqueue evs = true
                       /\ N = List.length (bifrostPlugins Sample.cachingEngine)
                       \/ (0 < N)%nat /\ In (EvShortCircuit (N - 1)) evs)))
  /\ (exists evs,
        [EvPreHook 0; EvPreHook 1; EvShortCircuit 1; EvPostHook 1; EvPostHook 0]
        = [] ++ evs
        /\ (existsb isShortCircuit evs = true ->
            exists N, (N <= List.length (bifrostPlugins Sample.cachingEngine))%nat
                      /\ preHooksOf evs = seq 0 N
                      /\ postHooksOf evs = rev (seq 0 N)
                      /\ (0 < N)%nat /\ In (EvShortCircuit (N - 1)) evs)).
Proof.
  assert (Hsc : neverEmptyShortCircuit Sample.cachingEngine).
  { intros plugin c r sc Hin Hs. simpl in Hin.
    destruct Hin as [<-|[<-|[<-|[]]]]; simpl in Hs; try discriminate.
    injection Hs as <-. left. discriminate. }
  split.
  - apply (proj1 (post_hooks_mirror_pre_hooks Sample.requiresKey
                    Sample.cachingEngine (Sample.chat OpenAI "gpt-4o-mini" []) None
                    ChatCompletionRequest [] Hsc)
             eq_refl (Some (Sample.response "cached")) None).
    reflexivity.
  - apply (proj2 (post_hooks_mirror_pre_hooks Sample.requiresKey
                    Sample.cachingEngine (Sample.chat OpenAI "gpt-4o-mini" []) None
                    ChatCompletionStreamRequest [] Hsc)
             (Some (newBifrostMessageChan (Some (Sample.response "cached")))) None).
    reflexivity.
Defined.

(* ================================================================= *)
(** ** Handing the buffered messages over *)

Lemma transferBuffered_shape {M : Type} (oldQueue : list M) (capacity : Z) :
  forall (q : list M) (n : Z),
  let t := transferBuffered oldQueue capacity q n in
  transferredCount t - len (newQueue t) = n - len q
  /\ (List.length (timedOut t) <= 1)%nat
  /\ (timedOut t = [] -> leftInOldQueue t = [])
  /\ (len q <= capacity -> len (newQueue t) <= capacity)
  /\ (timedOut t <> [] -> capacity <= len (newQueue t)).
Proof.
  induction oldQueue as [|msg rest IH]; intros q n; simpl.
  - repeat split; try lia; try reflexivity; intros H; now elim H.
  - destruct (len q <? capacity) eqn:E.
    + apply Z.ltb_lt in E. destruct (IH (q ++ [msg]) (n + 1)) as (H1 & H2 & H3 & H4 & H5).
      assert (Hlen : len (q ++ [msg]) = len q + 1).
      { unfold len. rewrite length_app. simpl. lia. }
      repeat split; try assumption; try lia.
    + apply Z.ltb_ge in E. simpl. repeat split; try lia; try discriminate.
Qed.

(** X13.  The transfer loses and duplicates nothing, and keeps the order:
    the forwarded messages, then the one handed to a transfer goroutine (at
    most one), then those left in the old queue, are the buffered messages as
    they were; the count reported is the number forwarded. *)
Theorem transfer_accounts_for_every_message {M : Type}
    (oldQueue : list M) (capacity : Z) :
  let t := transferBuffered oldQueue capacity [] 0 in
  newQueue t ++ timedOut t ++ leftInOldQueue t = oldQueue
  /\ transferredCount t = len (newQueue t)
  /\ (List.length (timedOut t) <= 1)%nat.
Proof.
  intros t. split; [|split].
  - apply (transferBuffered_partition oldQueue capacity [] 0).
  - destruct (transferBuffered_shape oldQueue capacity [] 0) as (H & _).
    fold t in H. unfold len in *. simpl in H. lia.
  - destruct (transferBuffered_shape oldQueue capacity [] 0) as (_ & H & _). exact H.
Qed.

(** X14.  The new queue is never filled beyond its capacity, a message is
    handed to a transfer goroutine only when the new queue is full, and
    messages stay in the old queue only behind such a message. *)
Theorem transfer_respects_capacity {M : Type} (oldQueue : list M) (capacity : Z) :
  0 <= capacity ->
  let t := transferBuffered oldQueue capacity [] 0 in
  len (newQueue t) <= capacity
  /\ (timedOut t <> [] -> len (newQueue t) = capacity)
  /\ (leftInOldQueue t <> [] -> timedOut t <> []).
Proof.
  intros Hcap t.
  destruct (transferBuffered_shape oldQueue capacity [] 0) as (_ & _ & H3 & H4 & H5).
  fold t in H3, H4, H5.
  assert (Hle : len (newQueue t) <= capacity) by (apply H4; unfold len; simpl; lia).
  split; [exact Hle|]. split.
  - intros Hne. specialize (H5 Hne). lia.
  - intros Hleft Hnone. apply Hleft, H3, Hnone.
Qed.

Lemma transfer_respects_capacity_witness :
  len (newQueue (transferBuffered ["m1"; "m2"; "m3"] 1 [] 0)) <= 1
  /\ (timedOut (transferBuffered ["m1"; "m2"; "m3"] 1 [] 0) <> [] ->
      len (newQueue (transferBuffered ["m1"; "m2"; "m3"] 1 [] 0)) = 1)
  /\ (leftInOldQueue (transferBuffered ["m1"; "m2"; "m3"] 1 [] 0) <> [] ->
      timedOut (transferBuffered ["m1"; "m2"; "m3"] 1 [] 0) <> []).
Proof.
  apply (transfer_respects_capacity ["m1"; "m2"; "m3"] 1). lia.
Defined.

Lemma transferBuffered_fits {M : Type} (oldQueue : list M) (capacity : Z) :
  forall (q : list M) (n : Z),
  len q + len oldQueue <= capacity ->
  transferBuffered oldQueue capacity q n
  = {| newQueue := q ++ oldQueue; transferredCount := n + len oldQueue;
       timedOut := []; leftInOldQueue := [] |}.
Proof.
  induction oldQueue as [|msg rest IH]; intros q n Hfit; simpl.
  - rewrite app_nil_r. f_equal. unfold len. simpl. lia.
  - assert (Hlen : len (msg :: rest) = len rest + 1).
    { unfold len. simpl. lia. }
    assert (Hpos : 0 <= len rest) by (unfold len; lia).
    destruct (len q <? capacity) eqn:E; [|apply Z.ltb_ge in E; lia].
    rewrite IH.
    + rewrite <- app_assoc. simpl. f_equal. lia.
    + unfold len in *. rewrite length_app. simpl in *. lia.
Qed.

(** X15.  When the buffered messages fit into the new queue, all of them are
    forwarded, in order, and none times out or stays behind. *)
Theorem transfer_forwards_all_that_fit {M : Type}
    (oldQueue : list M) (providerConfig : ProviderConfig) :
  len oldQueue <= BufferSize (concurrencyAndBufferSize providerConfig) ->
  UpdateProviderConcurrency_transfer oldQueue providerConfig
  = Ok {| newQueue := oldQueue; transferredCount := len oldQueue;
          timedOut := []; leftInOldQueue := [] |}.
Proof.
  intros Hfit. unfold UpdateProviderConcurrency_transfer.
  assert (Hpos : 0 <= len oldQueue) by (unfold len; lia).
  destruct (BufferSize (concurrencyAndBufferSize providerConfig) <? 0) eqn:E;
    [apply Z.ltb_lt in E; lia|].
  rewrite transferBuffered_fits; [reflexivity|]. unfold len in *. simpl. lia.
Qed.

Lemma transfer_forwards_all_that_fit_witness :
  UpdateProviderConcurrency_transfer ["m1"; "m2"] (Sample.config 0)
  = Ok {| newQueue := ["m1"; "m2"]; transferredCount := 2;
          timedOut := []; leftInOldQueue := [] |}.
Proof.
  apply (transfer_forwards_all_that_fit ["m1"; "m2"] (Sample.config 0)).
  vm_compute. discriminate.
Defined.

(* ================================================================= *)
(** ** Object pools *)

(** X16.  Whatever the pool hands out, a pipeline that has been worked with
    or a new one, [getPluginPipeline] returns the pipeline the dispatcher
    starts from: the engine's plugins, no pre-hook counted, no error
    collected.  A released pipeline is in the same state but for its
    plugins. *)
Theorem getPluginPipeline_ignores_pool_state
    (bifrost : Bifrost) (pool : list PluginPipeline) (pick : option nat)
    (used : PluginPipeline) :
  fst (getPluginPipelineFromPool bifrost pool pick) = getPluginPipeline bifrost
  /\ fst (getPluginPipelineFromPool bifrost (releasePluginPipeline pool used) (Some 0%nat))
     = getPluginPipeline bifrost
  /\ snd (getPluginPipelineFromPool bifrost (releasePluginPipeline pool used) (Some 0%nat))
     = pool.
Proof.
  unfold getPluginPipelineFromPool, releasePluginPipeline, poolPut, poolGet.
  split; [|split; reflexivity].
  destruct pick as [i|]; [destruct (nth_error pool i)|]; reflexivity.
Qed.

Lemma poolGet_In {A : Type} (pool : list A) (pick : option nat) (new : A) :
  (fst (poolGet pool pick new) = new \/ In (fst (poolGet pool pick new)) pool)
  /\ forall x, In x (snd (poolGet pool pick new)) -> In x pool.
Proof.
  unfold poolGet. destruct pick as [i|]; [|split; [now left | auto]].
  destruct (nth_error pool i) as [x|] eqn:E; [|split; [now left | auto]].
  split.
  - right. eapply nth_error_In. exact E.
  - intros y Hy. simpl in Hy. apply in_app_or in Hy. destruct Hy as [Hy|Hy].
    + rewrite <- (firstn_skipn i pool). apply in_or_app. now left.
    + rewrite <- (firstn_skipn (S i) pool). apply in_or_app. now right.
Qed.

Lemma drain_of_channel {V : Type} (c : Chan1 V) : c <> None -> drain c = Some None.
Proof. destruct c; [reflexivity | congruence]. Qed.

(** X17.  While the pools are in order, a message taken with
    [getChannelMessage] has a response and an error channel that are empty,
    whatever was left in them when they were released, an empty stream
    channel if the request streams and none otherwise; and both
    [getChannelMessage] and the release of such a message keep the pools in
    order. *)
Theorem channel_message_pool_invariant
    (pools : Pools) (picks : Picks) (req : BifrostRequest) (reqType : RequestType) :
  poolsInOrder pools ->
  let msg := fst (getChannelMessage pools picks req reqType) in
  let pools' := snd (getChannelMessage pools picks req reqType) in
  checkedOut reqType msg
  /\ pmRequest msg = Some req
  /\ pmType msg = Some reqType
  /\ poolsInOrder pools'
  /\ (forall resp err used,
        used = {| pmRequest := pmRequest msg; pmContext := pmContext msg;
                  pmResponse := Some resp; pmResponseStream := pmResponseStream msg;
                  pmErr := Some err; pmType := pmType msg |} ->
        poolsInOrder (releaseChannelMessage pools' used)).
Proof.
  intros (Hmsgs & Hresp & Herr & Hstream). unfold getChannelMessage.
  destruct (poolGet_In (responseChannelPool pools) (pickResponse picks) makeChan1)
    as [Hr1 Hr2].
  destruct (poolGet (responseChannelPool pools) (pickResponse picks) makeChan1)
    as [responseChan responses]. simpl in Hr1, Hr2.
  destruct (poolGet_In (errorChannelPool pools) (pickError picks) makeChan1)
    as [He1 He2].
  destruct (poolGet (errorChannelPool pools) (pickError picks) makeChan1)
    as [errorChan errors]. simpl in He1, He2.
  destruct (poolGet_In (channelMessagePool pools) (pickMessage picks) zeroPooledMessage)
    as [Hm1 Hm2].
  destruct (poolGet (channelMessagePool pools) (pickMessage picks) zeroPooledMessage)
    as [msg messages]. simpl in Hm1, Hm2.
  destruct (poolGet_In (responseStreamPool pools) (pickStream picks) makeChan1)
    as [Hs1 Hs2].
  assert (Hrc : drain responseChan = Some None).
  { apply drain_of_channel. destruct Hr1 as [->|Hin]; [discriminate | now apply Hresp]. }
  assert (Hec : drain errorChan = Some None).
  { apply drain_of_channel. destruct He1 as [->|Hin]; [discriminate | now apply Herr]. }
  assert (Hmsg : pmResponseStream msg = None).
  { destruct Hm1 as [->|Hin]; [reflexivity | now apply Hmsgs]. }
  assert (Hmessages : forall m, In m messages ->
             pmResponse m = None /\ pmResponseStream m = None /\ pmErr m = None).
  { intros m Hin. apply Hmsgs, Hm2, Hin. }
  assert (Hresponses : forall c, In c responses -> c <> None).
  { intros c Hin. apply Hresp, Hr2, Hin. }
  assert (Herrors : forall c, In c errors -> c <> None).
  { intros c Hin. apply Herr, He2, Hin. }
  destruct (isStreamRequestType reqType) eqn:Hkind.
  - destruct (poolGet (responseStreamPool pools) (pickStream picks) makeChan1)
      as [streamChan streams]. simpl in Hs1, Hs2.
    assert (Hsc : drain streamChan = Some None).
    { apply drain_of_channel.
      destruct Hs1 as [->|Hin]; [discriminate | now apply Hstream]. }
    assert (Hstreams : forall c, In c streams -> c <> None).
    { intros c Hin. apply Hstream, Hs2, Hin. }
    rewrite Hrc, Hec, Hsc.
    cbn [fst snd]. unfold checkedOut, isEmptyChan. cbn. rewrite Hkind.
    split; [repeat split|]. split; [reflexivity|]. split; [reflexivity|].
    split; [split; [exact Hmessages | split; [exact Hresponses
                                             | split; [exact Herrors | exact Hstreams]]]|].
    intros resp err used ->. unfold releaseChannelMessage, poolsInOrder, poolPut. cbn.
    split; [|split; [|split]].
    + intros m [<-|Hin]; [repeat split | now apply Hmessages].
    + intros c [<-|Hin]; [discriminate | now apply Hresponses].
    + intros c [<-|Hin]; [discriminate | now apply Herrors].
    + intros c [<-|Hin]; [discriminate | now apply Hstreams].
  - rewrite Hrc, Hec, Hmsg.
    cbn [fst snd]. unfold checkedOut, isEmptyChan. cbn. rewrite Hkind.
    split; [repeat split|]. split; [reflexivity|]. split; [reflexivity|].
    split; [split; [exact Hmessages | split; [exact Hresponses
                                             | split; [exact Herrors | exact Hstream]]]|].
    intros resp err used ->. unfold releaseChannelMessage, poolsInOrder, poolPut. cbn.
    split; [|split; [|split]].
    + intros m [<-|Hin]; [repeat split | now apply Hmessages].
    + intros c [<-|Hin]; [discriminate | now apply Hresponses].
    + intros c [<-|Hin]; [discriminate | now apply Herrors].
    + exact Hstream.
Qed.

Lemma channel_message_pool_invariant_witness :
  let taken := getChannelMessage Installation.usedPools Installation.pooledObjects
                 (Sample.chat OpenAI "gpt-4o-mini" []) ChatCompletionStreamRequest in
  fst taken
  = {| pmRequest := Some (Sample.chat OpenAI "gpt-4o-mini" []);
       pmContext := Some Sample.cancelledCtx;
       pmResponse := Some None; pmResponseStream := Some None; pmErr := Some None;
       pmType := Some ChatCompletionStreamRequest |}
  /\ snd taken
     = {| channelMessagePool := []; responseChannelPool := [];
          errorChannelPool := [Some None]; responseStreamPool := [] |}
  /\ checkedOut ChatCompletionStreamRequest (fst taken)
  /\ poolsInOrder (snd taken)
  /\ poolsInOrder
       (releaseChannelMessage (snd taken)
          {| pmRequest := Some (Sample.chat OpenAI "gpt-4o-mini" []);
             pmContext := Some Sample.cancelledCtx;
             pmResponse := Some (Some (Some (Sample.response "r1")));
             pmResponseStream := Some None;
             pmErr := Some (Some errQueueFull);
             pmType := Some ChatCompletionStreamRequest |}).
Proof.
  assert (Horder : poolsInOrder Installation.usedPools).
  { unfold poolsInOrder. simpl. repeat split;
      try (intros c Hin; repeat (destruct Hin as [<-|Hin]; [discriminate|]);
           contradiction);
      destruct H as [<-|[]]; reflexivity. }
  destruct (channel_message_pool_invariant Installation.usedPools
              Installation.pooledObjects (Sample.chat OpenAI "gpt-4o-mini" [])
              ChatCompletionStreamRequest Horder)
    as (H1 & _ & _ & H4 & H5).
  split; [reflexivity|]. split; [reflexivity|].
  split; [exact H1|]. split; [exact H4|].
  apply (H5 (Some (Some (Sample.response "r1"))) (Some errQueueFull)). reflexivity.
Defined.

(* ================================================================= *)
(** ** Provider queues and their life cycle *)

Lemma load_store_same {M : Type} (reg : Lifecycle.Registry M)
    (k : ModelProvider) (s : Lifecycle.Slot M) :
  Lifecycle.load (Lifecycle.store reg k s) k = Some s.
Proof.
  induction reg as [|[p old] rest IH]; simpl.
  - rewrite String.eqb_refl. reflexivity.
  - destruct (String.eqb p k) eqn:E; simpl; rewrite E; [reflexivity|exact IH].
Qed.

Lemma load_store_other {M : Type} (reg : Lifecycle.Registry M)
    (k k' : ModelProvider) (s : Lifecycle.Slot M) :
  k' <> k ->
  Lifecycle.load (Lifecycle.store reg k s) k' = Lifecycle.load reg k'.
Proof.
  intros Hne. induction reg as [|[p old] rest IH]; simpl.
  - destruct (String.eqb k k') eqn:E; [apply String.eqb_eq in E; congruence|reflexivity].
  - destruct (String.eqb p k) eqn:E; simpl.
    + apply String.eqb_eq in E. subst p.
      destruct (String.eqb k k') eqn:E2; [apply String.eqb_eq in E2; congruence|reflexivity].
    + destruct (String.eqb p k'); [reflexivity|exact IH].
Qed.

Lemma makeChan_ok {M : Type} (size : Z) :
  0 <= size ->
  @Lifecycle.makeChan M size
  = Ok {| Lifecycle.chanCapacity := size; Lifecycle.chanItems := [];
          Lifecycle.chanClosed := false |}.
Proof.
  intros H. unfold Lifecycle.makeChan.
  destruct (size <? 0) eqn:E; [apply Z.ltb_lt in E; lia|reflexivity].
Qed.

Lemma makeChan_negative {M : Type} (size : Z) :
  size < 0 -> @Lifecycle.makeChan M size = Panic "makechan: size out of range".
Proof.
  intros H. unfold Lifecycle.makeChan.
  destruct (size <? 0) eqn:E; [reflexivity|apply Z.ltb_ge in E; lia].
Qed.

(** On an open old queue the loop over the channels does what
    [transferBuffered] does on the buffered messages. *)
Lemma transferLoop_open {M : Type} (zero : M) (items : list M) :
  forall (fuel : nat) (capOld : Z) (new : Lifecycle.Chan M) (n : Z),
  len (Lifecycle.chanItems new) <= Lifecycle.chanCapacity new ->
  Lifecycle.chanCapacity new - len (Lifecycle.chanItems new) < Z.of_nat fuel ->
  Lifecycle.transferLoop zero fuel
    {| Lifecycle.chanCapacity := capOld; Lifecycle.chanItems := items;
       Lifecycle.chanClosed := false |} new n
  = Some
      {| Lifecycle.oldAfter :=
           {| Lifecycle.chanCapacity := capOld;
              Lifecycle.chanItems :=
                leftInOldQueue (transferBuffered items (Lifecycle.chanCapacity new)
                                                 (Lifecycle.chanItems new) n);
              Lifecycle.chanClosed := false |};
         Lifecycle.newAfter :=
           {| Lifecycle.chanCapacity := Lifecycle.chanCapacity new;
              Lifecycle.chanItems :=
                newQueue (transferBuffered items (Lifecycle.chanCapacity new)
                                           (Lifecycle.chanItems new) n);
              Lifecycle.chanClosed := Lifecycle.chanClosed new |};
         Lifecycle.transferred :=
           transferredCount (transferBuffered items (Lifecycle.chanCapacity new)
                                              (Lifecycle.chanItems new) n);
         Lifecycle.overflow :=
           hd_error (timedOut (transferBuffered items (Lifecycle.chanCapacity new)
                                                (Lifecycle.chanItems new) n)) |}.
Proof.
  induction items as [|msg rest IH]; intros fuel capOld new n Hle Hfuel.
  - destruct fuel as [|fuel]; [simpl in Hfuel; lia|].
    destruct new as [capNew itemsNew closedNew]. reflexivity.
  - destruct fuel as [|fuel]; [simpl in Hfuel; lia|].
    destruct new as [capNew itemsNew closedNew].
    cbn [Lifecycle.transferLoop transferBuffered].
    unfold Lifecycle.tryRecv, Lifecycle.trySend.
    cbn [Lifecycle.chanItems Lifecycle.chanCapacity Lifecycle.chanClosed] in *.
    destruct (len itemsNew <? capNew) eqn:E.
    + apply Z.ltb_lt in E.
      assert (Hlen : len (itemsNew ++ [msg]) = len itemsNew + 1).
      { unfold len. rewrite length_app. simpl. lia. }
      rewrite (IH fuel capOld
                  {| Lifecycle.chanCapacity := capNew;
                     Lifecycle.chanItems := itemsNew ++ [msg];
                     Lifecycle.chanClosed := closedNew |} (n + 1));
        cbn [Lifecycle.chanItems Lifecycle.chanCapacity Lifecycle.chanClosed];
        [reflexivity|lia|lia].
    + reflexivity.
Qed.

(** The loop ends within the fuel [UpdateProviderConcurrency] is modelled
    with, whatever the old queue, and leaves the old queue open or closed
    as it was. *)
Lemma transferLoop_total {M : Type} (zero : M) :
  forall (fuel : nat) (old new : Lifecycle.Chan M) (n : Z),
  len (Lifecycle.chanItems new) <= Lifecycle.chanCapacity new ->
  Lifecycle.chanCapacity new - len (Lifecycle.chanItems new) < Z.of_nat fuel ->
  exists h, Lifecycle.transferLoop zero fuel old new n = Some h
            /\ Lifecycle.chanClosed (Lifecycle.oldAfter h) = Lifecycle.chanClosed old.
Proof.
  induction fuel as [|fuel IH]; intros old new n Hle Hfuel; [simpl in Hfuel; lia|].
  destruct old as [capOld itemsOld closedOld], new as [capNew itemsNew closedNew].
  cbn [Lifecycle.transferLoop].
  unfold Lifecycle.tryRecv, Lifecycle.trySend.
  cbn [Lifecycle.chanItems Lifecycle.chanCapacity Lifecycle.chanClosed] in *.
  assert (Hlen : forall m, len (itemsNew ++ [m]) = len itemsNew + 1).
  { intros m. unfold len. rewrite length_app. simpl. lia. }
  destruct itemsOld as [|msg rest].
  - destruct closedOld.
    + destruct (len itemsNew <? capNew) eqn:E.
      * apply Z.ltb_lt in E.
        destruct (IH {| Lifecycle.chanCapacity := capOld; Lifecycle.chanItems := [];
                        Lifecycle.chanClosed := true |}
                     {| Lifecycle.chanCapacity := capNew;
                        Lifecycle.chanItems := itemsNew ++ [zero];
                        Lifecycle.chanClosed := closedNew |} (n + 1))
          as (h & Hh & Hc); cbn [Lifecycle.chanItems Lifecycle.chanCapacity]; try (rewrite Hlen; lia).
        exists h. split; assumption.
      * eexists. split; reflexivity.
    + eexists. split; reflexivity.
  - destruct (len itemsNew <? capNew) eqn:E.
    + apply Z.ltb_lt in E.
      destruct (IH {| Lifecycle.chanCapacity := capOld; Lifecycle.chanItems := rest;
                      Lifecycle.chanClosed := closedOld |}
                   {| Lifecycle.chanCapacity := capNew;
                      Lifecycle.chanItems := itemsNew ++ [msg];
                      Lifecycle.chanClosed := closedNew |} (n + 1))
        as (h & Hh & Hc); cbn [Lifecycle.chanItems Lifecycle.chanCapacity]; try (rewrite Hlen; lia).
      exists h. split; assumption.
    + eexists. split; reflexivity.
Qed.

Lemma prepareProvider_frame {M : Type} (account : Account) (new : Lifecycle.Constructors)
    (reg reg' : Lifecycle.Registry M) (k : ModelProvider) (config : ProviderConfig)
    (err : option string) :
  Lifecycle.prepareProvider account new reg k config = Ok (err, reg') ->
  forall k', k' <> k -> Lifecycle.load reg' k' = Lifecycle.load reg k'.
Proof.
  unfold Lifecycle.prepareProvider. intros H k' Hne.
  destruct (GetConfigForProvider account k) as [e|providerConfig].
  - inversion H; subst. reflexivity.
  - destruct (Lifecycle.makeChan _) as [queue|msg|msg]; try discriminate.
    destruct (Lifecycle.createProviderFromProviderKey new k config) as [e|provider];
      inversion H; subst; repeat rewrite load_store_other by exact Hne; reflexivity.
Qed.

Lemma prepareProvider_spec {M : Type} (account : Account) (new : Lifecycle.Constructors)
    (reg : Lifecycle.Registry M) (k : ModelProvider) (providerConfig config : ProviderConfig) :
  GetConfigForProvider account k = inr providerConfig ->
  0 <= BufferSize (concurrencyAndBufferSize providerConfig) ->
  exists err reg',
    Lifecycle.prepareProvider account new reg k config = Ok (err, reg')
    /\ Lifecycle.load reg' k = Some (Lifecycle.preparedSlot new k providerConfig config)
    /\ err = match Lifecycle.createProviderFromProviderKey new k config with
             | inl e => Some ("failed to create provider for the given key: " ++ e)%string
             | inr _ => None
             end.
Proof.
  intros Hcfg Hsize. unfold Lifecycle.prepareProvider, Lifecycle.preparedSlot.
  rewrite Hcfg, (makeChan_ok _ Hsize).
  destruct (Lifecycle.createProviderFromProviderKey new k config) as [e|provider];
    eexists; eexists; (split; [reflexivity|]); split;
    try reflexivity; apply load_store_same.
Qed.

(** X18.  Once [getProviderQueue] has returned a queue for a provider, it
    returns that same queue again and changes nothing any more. *)
Theorem getProviderQueue_second_call_same_queue {M : Type}
    (account : Account) (new : Lifecycle.Constructors)
    (reg reg' : Lifecycle.Registry M) (providerKey : ModelProvider)
    (queue : Lifecycle.Chan M) :
  Lifecycle.getProviderQueue account new reg providerKey = Ok (inr queue, reg') ->
  Lifecycle.getProviderQueue account new reg' providerKey = Ok (inr queue, reg').
Proof.
  unfold Lifecycle.getProviderQueue. intros H.
  destruct (Lifecycle.load reg providerKey) as [slot|] eqn:Hload.
  - inversion H; subst. rewrite Hload. reflexivity.
  - destruct (GetConfigForProvider account providerKey) as [e|config]; [discriminate|].
    destruct (Lifecycle.prepareProvider account new reg providerKey config)
      as [[[e|] r]|msg|msg]; try discriminate.
    destruct (Lifecycle.load r providerKey) as [slot|] eqn:Hload'; [|discriminate].
    inversion H; subst. rewrite Hload'. reflexivity.
Qed.

Lemma getProviderQueue_second_call_same_queue_witness :
  Lifecycle.getProviderQueue Installation.smallAccount Installation.constructors
    Installation.preparedRegistry OpenAI
  = Ok (inr {| Lifecycle.chanCapacity := 2; Lifecycle.chanItems := [];
               Lifecycle.chanClosed := false |},
        Installation.preparedRegistry).
Proof.
  apply (getProviderQueue_second_call_same_queue Installation.smallAccount
           Installation.constructors [] Installation.preparedRegistry OpenAI).
  reflexivity.
Defined.

(** X19.  When the adapter of a provider cannot be constructed, the first
    [getProviderQueue] returns the error, but the queue it made stays
    registered, with no worker: the next call returns that queue as if the
    provider were ready. *)
Theorem getProviderQueue_failed_construction_leaves_idle_queue {M : Type}
    (account : Account) (new : Lifecycle.Constructors)
    (reg : Lifecycle.Registry M) (providerKey : ModelProvider)
    (config : ProviderConfig) (e : string) :
  Lifecycle.load reg providerKey = None ->
  GetConfigForProvider account providerKey = inr config ->
  0 <= BufferSize (concurrencyAndBufferSize config) ->
  Lifecycle.createProviderFromProviderKey new providerKey config = inl e ->
  let idle := {| Lifecycle.chanCapacity := BufferSize (concurrencyAndBufferSize config);
                 Lifecycle.chanItems := @nil M; Lifecycle.chanClosed := false |} in
  exists reg',
    Lifecycle.getProviderQueue account new reg providerKey
    = Ok (inl ("failed to create provider for the given key: " ++ e)%string, reg')
    /\ Lifecycle.load reg' providerKey
       = Some {| Lifecycle.slotQueue := idle; Lifecycle.slotWorkers := 0;
                 Lifecycle.slotProvider := None |}
    /\ Lifecycle.getProviderQueue account new reg' providerKey = Ok (inr idle, reg').
Proof.
  intros Hload Hcfg Hsize Hnew idle.
  destruct (prepareProvider_spec account new reg providerKey config config Hcfg Hsize)
    as (err & reg' & Hprep & Hslot & Herr).
  unfold Lifecycle.preparedSlot in Hslot. rewrite Hnew in Hslot, Herr. subst err.
  exists reg'. unfold Lifecycle.getProviderQueue.
  rewrite Hload, Hcfg, Hprep, Hslot. repeat split.
Qed.

Lemma getProviderQueue_failed_construction_leaves_idle_queue_witness :
  exists reg' : Lifecycle.Registry string,
    Lifecycle.getProviderQueue Installation.smallAccount Installation.constructors
      [] Ollama
    = Ok (inl "failed to create provider for the given key: base_url is required for ollama provider",
          reg')
    /\ Lifecycle.load reg' Ollama
       = Some {| Lifecycle.slotQueue :=
                   {| Lifecycle.chanCapacity := 2; Lifecycle.chanItems := [];
                      Lifecycle.chanClosed := false |};
                 Lifecycle.slotWorkers := 0; Lifecycle.slotProvider := None |}
    /\ Lifecycle.getProviderQueue Installation.smallAccount Installation.constructors
         reg' Ollama
       = Ok (inr {| Lifecycle.chanCapacity := 2; Lifecycle.chanItems := [];
                    Lifecycle.chanClosed := false |}, reg').
Proof.
  apply (getProviderQueue_failed_construction_leaves_idle_queue
           Installation.smallAccount Installation.constructors [] Ollama
           Installation.smallConfig "base_url is required for ollama provider");
    [reflexivity|reflexivity|simpl; lia|reflexivity].
Defined.

(** X20.  [getProviderQueue] leaves the queues, workers and adapters of all
    other providers as they are. *)
Theorem getProviderQueue_touches_one_provider {M : Type}
    (account : Account) (new : Lifecycle.Constructors)
    (reg reg' : Lifecycle.Registry M) (providerKey other : ModelProvider)
    (answer : string + Lifecycle.Chan M) :
  Lifecycle.getProviderQueue account new reg providerKey = Ok (answer, reg') ->
  other <> providerKey ->
  Lifecycle.load reg' other = Lifecycle.load reg other.
Proof.
  unfold Lifecycle.getProviderQueue. intros H Hne.
  destruct (Lifecycle.load reg providerKey) as [slot|] eqn:Hload.
  - inversion H; subst. reflexivity.
  - destruct (GetConfigForProvider account providerKey) as [e|config].
    + inversion H; subst. reflexivity.
    + destruct (Lifecycle.prepareProvider account new reg providerKey config)
        as [[[e|] r]|msg|msg] eqn:Hprep; try discriminate.
      * inversion H; subst. apply (prepareProvider_frame _ _ _ _ _ _ _ Hprep _ Hne).
      * destruct (Lifecycle.load r providerKey); [|discriminate].
        inversion H; subst. apply (prepareProvider_frame _ _ _ _ _ _ _ Hprep _ Hne).
Qed.

Lemma getProviderQueue_touches_one_provider_witness :
  Lifecycle.load
    (Installation.busyRegistry
     ++ [(Anthropic,
          {| Lifecycle.slotQueue :=
               {| Lifecycle.chanCapacity := 2; Lifecycle.chanItems := [];
                  Lifecycle.chanClosed := false |};
             Lifecycle.slotWorkers := 3;
             Lifecycle.slotProvider := Some (Sample.steadyAdapter Anthropic "r2") |})])
    OpenAI
  = Lifecycle.load Installation.busyRegistry OpenAI.
Proof.
  apply (getProviderQueue_touches_one_provider Installation.smallAccount
           Installation.constructors Installation.busyRegistry _ Anthropic OpenAI
           (inr {| Lifecycle.chanCapacity := 2; Lifecycle.chanItems := [];
                   Lifecycle.chanClosed := false |}));
    [reflexivity|discriminate].
Defined.

(** X21.  [UpdateProviderConcurrency] on a provider with an open queue:
    the old queue's messages are split as the transfer loop splits them, the
    provider gets a new open queue of the configured size holding the
    forwarded messages, and no other provider is touched.  With the adapter
    constructed, the configured number of workers serves the new queue;
    when the construction fails, the error is returned and the new queue,
    with the forwarded messages in it, is left without any worker. *)
Theorem UpdateProviderConcurrency_replaces_open_queue {M : Type} (zero : M)
    (account : Account) (new : Lifecycle.Constructors)
    (reg : Lifecycle.Registry M) (providerKey : ModelProvider)
    (providerConfig : ProviderConfig) (old : Lifecycle.Slot M) :
  GetConfigForProvider account providerKey = inr providerConfig ->
  Lifecycle.load reg providerKey = Some old ->
  Lifecycle.chanClosed (Lifecycle.slotQueue old) = false ->
  0 <= BufferSize (concurrencyAndBufferSize providerConfig) ->
  let bufferSize := BufferSize (concurrencyAndBufferSize providerConfig) in
  let t := transferBuffered (Lifecycle.chanItems (Lifecycle.slotQueue old)) bufferSize [] 0 in
  exists err reg' slot,
    Lifecycle.UpdateProviderConcurrency zero account new reg providerKey
    = Ok (err, reg',
          Some {| Lifecycle.forwarded := newQueue t;
                  Lifecycle.failedTransfer := hd_error (timedOut t);
                  Lifecycle.leftToOldWorkers := leftInOldQueue t |})
    /\ Lifecycle.load reg' providerKey = Some slot
    /\ Lifecycle.slotQueue slot
       = {| Lifecycle.chanCapacity := bufferSize; Lifecycle.chanItems := newQueue t;
            Lifecycle.chanClosed := false |}
    /\ match Lifecycle.createProviderFromProviderKey new providerKey providerConfig with
       | inr provider =>
           err = None
           /\ Lifecycle.slotWorkers slot = Lifecycle.workersFor providerConfig
           /\ Lifecycle.slotProvider slot = Some provider
       | inl e =>
           err = Some ("failed to create provider instance for " ++ providerKey
                       ++ ": " ++ e)%string
           /\ Lifecycle.slotWorkers slot = 0%nat
           /\ Lifecycle.slotProvider slot = None
       end
    /\ (forall other, other <> providerKey ->
        Lifecycle.load reg' other = Lifecycle.load reg other).
Proof.
  intros Hcfg Hload Hopen Hsize bufferSize t.
  unfold Lifecycle.UpdateProviderConcurrency.
  rewrite Hcfg, Hload. fold bufferSize. rewrite (makeChan_ok _ Hsize).
  destruct old as [[capOld itemsOld closedOld] workers provider].
  cbn [Lifecycle.slotQueue Lifecycle.chanClosed Lifecycle.chanItems] in *. subst closedOld.
  rewrite transferLoop_open;
    cbn [Lifecycle.chanItems Lifecycle.chanCapacity Lifecycle.chanClosed];
    [|unfold len; simpl; lia|unfold len; simpl; lia].
  fold t.
  cbn [Lifecycle.oldAfter Lifecycle.newAfter Lifecycle.overflow Lifecycle.closeChan
       Lifecycle.chanClosed Lifecycle.chanItems Lifecycle.chanCapacity].
  unfold Lifecycle.closeChan.
  cbn [Lifecycle.chanClosed Lifecycle.chanItems Lifecycle.chanCapacity].
  destruct (Lifecycle.createProviderFromProviderKey new providerKey providerConfig)
    as [e|adapter].
  - eexists. eexists. eexists. split; [reflexivity|].
    split; [apply load_store_same|]. cbn [Lifecycle.slotQueue Lifecycle.slotWorkers
                                          Lifecycle.slotProvider].
    repeat split. intros other Hne. apply load_store_other, Hne.
  - eexists. eexists. eexists. split; [reflexivity|].
    split; [apply load_store_same|]. cbn [Lifecycle.slotQueue Lifecycle.slotWorkers
                                          Lifecycle.slotProvider].
    repeat split. intros other Hne. repeat rewrite load_store_other by exact Hne.
    reflexivity.
Qed.

Lemma UpdateProviderConcurrency_replaces_open_queue_witness :
  exists err reg' slot,
    Lifecycle.UpdateProviderConcurrency "" Installation.smallAccount
      Installation.constructors Installation.busyRegistry OpenAI
    = Ok (err, reg',
          Some {| Lifecycle.forwarded := ["m1"; "m2"];
                  Lifecycle.failedTransfer := Some "m3";
                  Lifecycle.leftToOldWorkers := [] |})
    /\ Lifecycle.load reg' OpenAI = Some slot
    /\ Lifecycle.slotQueue slot
       = {| Lifecycle.chanCapacity := 2; Lifecycle.chanItems := ["m1"; "m2"];
            Lifecycle.chanClosed := false |}
    /\ (err = None
        /\ Lifecycle.slotWorkers slot = 3%nat
        /\ Lifecycle.slotProvider slot = Some (Sample.steadyAdapter OpenAI "r1"))
    /\ (forall other, other <> OpenAI ->
        Lifecycle.load reg' other = Lifecycle.load Installation.busyRegistry other).
Proof.
  apply (UpdateProviderConcurrency_replaces_open_queue "" Installation.smallAccount
           Installation.constructors Installation.busyRegistry OpenAI
           Installation.smallConfig
           {| Lifecycle.slotQueue :=
                {| Lifecycle.chanCapacity := 10;
                   Lifecycle.chanItems := ["m1"; "m2"; "m3"];
                   Lifecycle.chanClosed := false |};
              Lifecycle.slotWorkers := 2;
              Lifecycle.slotProvider := Some (Sample.steadyAdapter OpenAI "r1") |});
    [reflexivity|reflexivity|reflexivity|simpl; lia].
Defined.

(** X22.  [UpdateProviderConcurrency] on a provider whose queue has been
    closed (as [Cleanup] leaves it) panics when it closes the queue again. *)
Theorem UpdateProviderConcurrency_closed_queue_panics {M : Type} (zero : M)
    (account : Account) (new : Lifecycle.Constructors)
    (reg : Lifecycle.Registry M) (providerKey : ModelProvider)
    (providerConfig : ProviderConfig) (old : Lifecycle.Slot M) :
  GetConfigForProvider account providerKey = inr providerConfig ->
  Lifecycle.load reg providerKey = Some old ->
  Lifecycle.chanClosed (Lifecycle.slotQueue old) = true ->
  0 <= BufferSize (concurrencyAndBufferSize providerConfig) ->
  Lifecycle.UpdateProviderConcurrency zero account new reg providerKey
  = Panic "close of closed channel".
Proof.
  intros Hcfg Hload Hclosed Hsize.
  unfold Lifecycle.UpdateProviderConcurrency.
  rewrite Hcfg, Hload, (makeChan_ok _ Hsize).
  destruct (transferLoop_total zero
              (S (Z.to_nat (BufferSize (concurrencyAndBufferSize providerConfig))))
              (Lifecycle.slotQueue old)
              {| Lifecycle.chanCapacity := BufferSize (concurrencyAndBufferSize providerConfig);
                 Lifecycle.chanItems := []; Lifecycle.chanClosed := false |} 0)
    as (h & Hh & Hc);
    cbn [Lifecycle.chanItems Lifecycle.chanCapacity]; try (unfold len; simpl; lia).
  rewrite Hh. unfold Lifecycle.closeChan. rewrite Hc, Hclosed. reflexivity.
Qed.

Lemma UpdateProviderConcurrency_closed_queue_panics_witness :
  Lifecycle.UpdateProviderConcurrency "" Installation.smallAccount
    Installation.constructors Installation.closedRegistry OpenAI
  = Panic "close of closed channel".
Proof.
  apply (UpdateProviderConcurrency_closed_queue_panics "" Installation.smallAccount
           Installation.constructors Installation.closedRegistry OpenAI
           Installation.smallConfig
           {| Lifecycle.slotQueue :=
                {| Lifecycle.chanCapacity := 10;
                   Lifecycle.chanItems := ["m1"; "m2"; "m3"];
                   Lifecycle.chanClosed := true |};
              Lifecycle.slotWorkers := 2;
              Lifecycle.slotProvider := Some (Sample.steadyAdapter OpenAI "r1") |});
    [reflexivity|reflexivity|reflexivity|simpl; lia].
Defined.

Lemma Cleanup_closes {M : Type} (reg : Lifecycle.Registry M) :
  forall reg', Lifecycle.Cleanup reg = Ok reg' ->
  forall k slot, Lifecycle.load reg k = Some slot ->
  exists slot', Lifecycle.load reg' k = Some slot'
                /\ Lifecycle.chanClosed (Lifecycle.slotQueue slot') = true
                /\ Lifecycle.chanItems (Lifecycle.slotQueue slot')
                   = Lifecycle.chanItems (Lifecycle.slotQueue slot).
Proof.
  induction reg as [|[p s] rest IH]; intros reg' H k slot Hload; [discriminate|].
  simpl in H. unfold Lifecycle.closeChan in H.
  destruct (Lifecycle.chanClosed (Lifecycle.slotQueue s)); [discriminate|].
  destruct (Lifecycle.Cleanup rest) as [rest'|msg|msg]; try discriminate.
  inversion H; subst. simpl in *.
  destruct (String.eqb p k).
  - inversion Hload; subst. eexists. split; [reflexivity|]. split; reflexivity.
  - apply (IH rest' eq_refl k slot Hload).
Qed.

(** X23.  [Cleanup] can be run once: it closes the queue of every
    registered provider, keeping what is buffered, and a second [Cleanup]
    panics on the first queue it closes again. *)
Theorem Cleanup_twice_panics {M : Type} (reg reg' : Lifecycle.Registry M) :
  Lifecycle.Cleanup reg = Ok reg' ->
  reg <> [] ->
  Lifecycle.Cleanup reg' = Panic "close of closed channel"
  /\ forall providerKey slot,
       Lifecycle.load reg providerKey = Some slot ->
       exists slot', Lifecycle.load reg' providerKey = Some slot'
                     /\ Lifecycle.chanClosed (Lifecycle.slotQueue slot') = true
                     /\ Lifecycle.chanItems (Lifecycle.slotQueue slot')
                        = Lifecycle.chanItems (Lifecycle.slotQueue slot).
Proof.
  intros H Hne. split; [|apply (Cleanup_closes reg reg' H)].
  destruct reg as [|[p s] rest]; [congruence|].
  simpl in H. unfold Lifecycle.closeChan in H.
  destruct (Lifecycle.chanClosed (Lifecycle.slotQueue s)); [discriminate|].
  destruct (Lifecycle.Cleanup rest) as [rest'|msg|msg]; try discriminate.
  inversion H; subst. reflexivity.
Qed.

Lemma Cleanup_twice_panics_witness :
  Lifecycle.Cleanup Installation.closedRegistry = Panic "close of closed channel"
  /\ forall providerKey slot,
       Lifecycle.load Installation.busyRegistry providerKey = Some slot ->
       exists slot', Lifecycle.load Installation.closedRegistry providerKey = Some slot'
                     /\ Lifecycle.chanClosed (Lifecycle.slotQueue slot') = true
                     /\ Lifecycle.chanItems (Lifecycle.slotQueue slot')
                        = Lifecycle.chanItems (Lifecycle.slotQueue slot).
Proof.
  apply (Cleanup_twice_panics Installation.busyRegistry Installation.closedRegistry);
    [reflexivity|discriminate].
Defined.

Lemma initProviders_spec {M : Type} (account : Account) (new : Lifecycle.Constructors)
    (providerKeys : list ModelProvider) :
  (forall k config, In k providerKeys -> GetConfigForProvider account k = inr config ->
                    0 <= BufferSize (concurrencyAndBufferSize config)) ->
  forall reg : Lifecycle.Registry M,
  exists reg',
    Lifecycle.initProviders account new providerKeys reg = Ok reg'
    /\ forall k,
         match GetConfigForProvider account k with
         | inr config =>
             if in_dec string_dec k providerKeys
             then Lifecycle.load reg' k = Some (Lifecycle.preparedSlot new k config config)
             else Lifecycle.load reg' k = Lifecycle.load reg k
         | inl _ => Lifecycle.load reg' k = Lifecycle.load reg k
         end.
Proof.
  induction providerKeys as [|p rest IH]; intros Hsize reg.
  - exists reg. split; [reflexivity|]. intros k.
    destruct (GetConfigForProvider account k); [reflexivity|].
    destruct (in_dec string_dec k []) as [[]|]; reflexivity.
  - assert (Hrest : forall k config, In k rest ->
                      GetConfigForProvider account k = inr config ->
                      0 <= BufferSize (concurrencyAndBufferSize config)).
    { intros k config Hin. apply Hsize. right. exact Hin. }
    cbn [Lifecycle.initProviders].
    destruct (GetConfigForProvider account p) as [e|config] eqn:Hcfg.
    + destruct (IH Hrest reg) as (reg' & Hrun & Hspec).
      exists reg'. split; [exact Hrun|]. intros k. specialize (Hspec k).
      destruct (GetConfigForProvider account k) as [e'|config'] eqn:Hk; [exact Hspec|].
      destruct (in_dec string_dec k rest) as [Hin|Hout];
        destruct (in_dec string_dec k (p :: rest)) as [Hin'|Hout']; try exact Hspec.
      * exfalso. apply Hout'. right. exact Hin.
      * destruct Hin' as [Heq|Hin']; [subst; congruence|contradiction].
    + assert (Hp : 0 <= BufferSize (concurrencyAndBufferSize config)).
      { apply (Hsize p config); [left; reflexivity|exact Hcfg]. }
      destruct (prepareProvider_spec account new reg p config config Hcfg Hp)
        as (err & reg1 & Hprep & Hslot & _).
      rewrite Hprep.
      destruct (IH Hrest reg1) as (reg' & Hrun & Hspec).
      exists reg'. split; [exact Hrun|]. intros k. specialize (Hspec k).
      destruct (string_dec k p) as [Heq|Hne].
      * subst k. rewrite Hcfg in *.
        destruct (in_dec string_dec p (p :: rest)) as [_|Hout'];
          [|exfalso; apply Hout'; left; reflexivity].
        destruct (in_dec string_dec p rest); [exact Hspec|].
        rewrite Hspec. exact Hslot.
      * assert (Hframe : Lifecycle.load reg1 k = Lifecycle.load reg k).
        { apply (prepareProvider_frame _ _ _ _ _ _ _ Hprep _ Hne). }
        destruct (GetConfigForProvider account k) as [e'|config'] eqn:Hk;
          [congruence|].
        destruct (in_dec string_dec k rest) as [Hin|Hout];
          destruct (in_dec string_dec k (p :: rest)) as [Hin'|Hout'];
          try exact Hspec; try congruence.
        -- exfalso. apply Hout'. right. exact Hin.
        -- destruct Hin' as [Heq|Hin']; [congruence|contradiction].
Qed.

(** X24.  [Init] with an account whose configured providers have queue
    sizes that are not negative returns an engine in which every listed
    provider with a configuration has an empty open queue of its configured
    size, served by the configured number of workers if its adapter could be
    constructed and by none otherwise; no other provider has a queue. *)
Theorem Init_prepares_configured_providers {M : Type}
    (account : Account) (new : Lifecycle.Constructors)
    (providerKeys : list ModelProvider) :
  (forall k config, In k providerKeys -> GetConfigForProvider account k = inr config ->
                    0 <= BufferSize (concurrencyAndBufferSize config)) ->
  exists reg : Lifecycle.Registry M,
    Lifecycle.Init (Some account) (inr providerKeys) new = Ok (inr reg)
    /\ (forall k config, In k providerKeys ->
          GetConfigForProvider account k = inr config ->
          Lifecycle.load reg k = Some (Lifecycle.preparedSlot new k config config))
    /\ (forall k, ~ In k providerKeys -> Lifecycle.load reg k = None)
    /\ (forall k e, GetConfigForProvider account k = inl e -> Lifecycle.load reg k = None).
Proof.
  intros Hsize.
  destruct (initProviders_spec (M := M) account new providerKeys Hsize [])
    as (reg & Hrun & Hspec).
  exists reg. unfold Lifecycle.Init. rewrite Hrun.
  split; [reflexivity|]. split; [|split].
  - intros k config Hin Hcfg. specialize (Hspec k). rewrite Hcfg in Hspec.
    destruct (in_dec string_dec k providerKeys); [exact Hspec|contradiction].
  - intros k Hout. specialize (Hspec k).
    destruct (GetConfigForProvider account k); [exact Hspec|].
    destruct (in_dec string_dec k providerKeys); [contradiction|exact Hspec].
  - intros k e Hcfg. specialize (Hspec k). rewrite Hcfg in Hspec. exact Hspec.
Qed.

Lemma Init_prepares_configured_providers_witness :
  exists reg : Lifecycle.Registry string,
    Lifecycle.Init (Some Installation.smallAccount)
      (inr [OpenAI; Ollama; Lifecycle.Groq]) Installation.constructors = Ok (inr reg)
    /\ (forall k config, In k [OpenAI; Ollama; Lifecycle.Groq] ->
          GetConfigForProvider Installation.smallAccount k = inr config ->
          Lifecycle.load reg k
          = Some (Lifecycle.preparedSlot Installation.constructors k config config))
    /\ (forall k, ~ In k [OpenAI; Ollama; Lifecycle.Groq] -> Lifecycle.load reg k = None)
    /\ (forall k e, GetConfigForProvider Installation.smallAccount k = inl e ->
                    Lifecycle.load reg k = None).
Proof.
  apply (Init_prepares_configured_providers Installation.smallAccount
           Installation.constructors [OpenAI; Ollama; Lifecycle.Groq]).
  intros k config [<-|[<-|[<-|[]]]] H; simpl in H; inversion H; simpl; lia.
Defined.

(* ================================================================= *)
(** ** Keys from the environment *)

Lemma lookedUp_without_string (Getenv : lib.Environment) (c : lib.MCPClientConfig) :
  lib.ConnectionString c = None -> lib.lookedUp Getenv c = c.
Proof.
  destruct c as [name cs]. simpl. intros H. subst cs. reflexivity.
Qed.

Lemma readClientConfigs_available (Getenv : lib.Environment)
    (clientConfigs : list lib.MCPClientConfig) :
  Forall (lib.available Getenv) clientConfigs ->
  lib.readClientConfigs Getenv clientConfigs
  = (None, List.map (lib.lookedUp Getenv) clientConfigs).
Proof.
  induction 1 as [|c rest Hc Hrest IH]; [reflexivity|].
  cbn [lib.readClientConfigs List.map]. rewrite IH.
  destruct (lib.ConnectionString c) as [value|] eqn:Hcs.
  - unfold lib.replaceEnvValue, lib.lookedUp. rewrite Hcs.
    destruct (lib.HasPrefix value "env.") eqn:Hp; [|reflexivity].
    specialize (Hc value Hcs Hp).
    destruct (String.eqb (Getenv (lib.TrimPrefix value "env.")) "") eqn:E;
      [apply String.eqb_eq in E; contradiction|reflexivity].
  - rewrite (lookedUp_without_string Getenv c Hcs). reflexivity.
Qed.

Lemma readClientConfigs_outcome (Getenv : lib.Environment)
    (clientConfigs : list lib.MCPClientConfig) :
  match lib.readClientConfigs Getenv clientConfigs with
  | (None, _) => Forall (lib.available Getenv) clientConfigs
  | (Some err, out) =>
      exists before c value after,
        clientConfigs = before ++ c :: after
        /\ Forall (lib.available Getenv) before
        /\ lib.ConnectionString c = Some value
        /\ lib.HasPrefix value "env." = true
        /\ Getenv (lib.TrimPrefix value "env.") = ""%string
        /\ err = ("MCP client " ++ lib.Name c ++ ": environment variable "
                  ++ lib.TrimPrefix value "env."
                  ++ " not found in the environment")%string
        /\ out = List.map (lib.lookedUp Getenv) before ++ c :: after
  end.
Proof.
  induction clientConfigs as [|c rest IH]; [constructor|].
  cbn [lib.readClientConfigs].
  assert (Hcons : forall out,
            match lib.readClientConfigs Getenv rest with
            | (None, _) => Forall (lib.available Getenv) rest
            | (Some err, out) =>
                exists before c value after,
                  rest = before ++ c :: after
                  /\ Forall (lib.available Getenv) before
                  /\ lib.ConnectionString c = Some value
                  /\ lib.HasPrefix value "env." = true
                  /\ Getenv (lib.TrimPrefix value "env.") = ""%string
                  /\ err = ("MCP client " ++ lib.Name c ++ ": environment variable "
                            ++ lib.TrimPrefix value "env."
                            ++ " not found in the environment")%string
                  /\ out = List.map (lib.lookedUp Getenv) before ++ c :: after
            end ->
            lib.available Getenv c ->
            out = lib.lookedUp Getenv c ->
            match (let (err, rest') := lib.readClientConfigs Getenv rest in
                   (err, out :: rest')) with
            | (None, _) => Forall (lib.available Getenv) (c :: rest)
            | (Some err, out') =>
                exists before c' value after,
                  c :: rest = before ++ c' :: after
                  /\ Forall (lib.available Getenv) before
                  /\ lib.ConnectionString c' = Some value
                  /\ lib.HasPrefix value "env." = true
                  /\ Getenv (lib.TrimPrefix value "env.") = ""%string
                  /\ err = ("MCP client " ++ lib.Name c' ++ ": environment variable "
                            ++ lib.TrimPrefix value "env."
                            ++ " not found in the environment")%string
                  /\ out' = List.map (lib.lookedUp Getenv) before ++ c' :: after
            end).
  { intros out Hrest Hc Hout.
    destruct (lib.readClientConfigs Getenv rest) as [[err|] rest'].
    - destruct Hrest as (before & c' & value & after & H1 & H2 & H3 & H4 & H5 & H6 & H7).
      exists (c :: before), c', value, after. subst rest rest' out.
      repeat split; try assumption. constructor; assumption.
    - constructor; assumption. }
  destruct (lib.ConnectionString c) as [value|] eqn:Hcs.
  - unfold lib.replaceEnvValue.
    destruct (lib.HasPrefix value "env.") eqn:Hp.
    + destruct (String.eqb (Getenv (lib.TrimPrefix value "env.")) "") eqn:E; cbn [negb].
      * apply String.eqb_eq in E.
        exists [], c, value, rest. repeat split; try assumption. constructor.
      * apply Hcons; [exact IH| |].
        -- intros v Hv _. rewrite Hcs in Hv. inversion Hv; subst v.
           intros Hempty. rewrite Hempty in E. discriminate.
        -- unfold lib.lookedUp. rewrite Hcs, Hp. reflexivity.
    + apply Hcons; [exact IH| |].
      * intros v Hv Hpv. rewrite Hcs in Hv. inversion Hv; subst v. congruence.
      * unfold lib.lookedUp. rewrite Hcs, Hp. reflexivity.
  - apply Hcons; [exact IH| |].
    + intros v Hv. congruence.
    + symmetry. apply lookedUp_without_string, Hcs.
Qed.

(** X25.  [ReadMCPKeys] returns no error exactly when every connection
    string that begins with [env.] names a variable that is set and not
    empty; then every such string has been replaced by the variable's
    value, and names and all other strings are as they were. *)
Theorem ReadMCPKeys_succeeds_iff_variables_available
    (Getenv : lib.Environment) (mcp : lib.MCPConfig) :
  let run := lib.ReadMCPKeys Getenv {| lib.mcpConfig := Some mcp |} in
  (fst run = None <-> Forall (lib.available Getenv) (lib.ClientConfigs mcp))
  /\ (fst run = None ->
      snd run = {| lib.mcpConfig :=
                     Some {| lib.ClientConfigs :=
                               List.map (lib.lookedUp Getenv) (lib.ClientConfigs mcp) |} |}).
Proof.
  cbn zeta. unfold lib.ReadMCPKeys. cbn [lib.mcpConfig].
  pose proof (readClientConfigs_outcome Getenv (lib.ClientConfigs mcp)) as Hout.
  split; [split|].
  - destruct (lib.readClientConfigs Getenv (lib.ClientConfigs mcp)) as [[err|] out];
      simpl; [discriminate|]. intros _. exact Hout.
  - intros Hall. rewrite (readClientConfigs_available _ _ Hall). reflexivity.
  - destruct (lib.readClientConfigs Getenv (lib.ClientConfigs mcp)) as [[err|] out] eqn:E;
      simpl; [discriminate|]. intros _.
    rewrite (readClientConfigs_available _ _ Hout) in E. inversion E. reflexivity.
Qed.

Lemma ReadMCPKeys_succeeds_iff_variables_available_witness :
  snd (lib.ReadMCPKeys Installation.environment
         {| lib.mcpConfig := Some {| lib.ClientConfigs := Installation.clients |} |})
  = {| lib.mcpConfig :=
         Some {| lib.ClientConfigs :=
                   [ {| lib.Name := "files";
                        lib.ConnectionString := Some "http://localhost:3001" |};
                     {| lib.Name := "local"; lib.ConnectionString := None |};
                     {| lib.Name := "search";
                        lib.ConnectionString := Some "http://search:8080" |} ] |} |}.
Proof.
  apply (proj2 (ReadMCPKeys_succeeds_iff_variables_available Installation.environment
                  {| lib.ClientConfigs := Installation.clients |})).
  reflexivity.
Defined.

(** X26.  When [ReadMCPKeys] fails, it fails at the first client whose
    connection string names a missing variable, and says which client and
    which variable; the clients before that one have already been updated,
    that one and those after it have not. *)
Theorem ReadMCPKeys_failure_updates_a_prefix
    (Getenv : lib.Environment) (mcp : lib.MCPConfig) (err : string) :
  fst (lib.ReadMCPKeys Getenv {| lib.mcpConfig := Some mcp |}) = Some err ->
  exists before c value after,
    lib.ClientConfigs mcp = before ++ c :: after
    /\ Forall (lib.available Getenv) before
    /\ lib.ConnectionString c = Some value
    /\ lib.HasPrefix value "env." = true
    /\ Getenv (lib.TrimPrefix value "env.") = ""%string
    /\ err = ("MCP client " ++ lib.Name c ++ ": environment variable "
              ++ lib.TrimPrefix value "env." ++ " not found in the environment")%string
    /\ snd (lib.ReadMCPKeys Getenv {| lib.mcpConfig := Some mcp |})
       = {| lib.mcpConfig :=
              Some {| lib.ClientConfigs :=
                        List.map (lib.lookedUp Getenv) before ++ c :: after |} |}.
Proof.
  unfold lib.ReadMCPKeys. cbn [lib.mcpConfig].
  pose proof (readClientConfigs_outcome Getenv (lib.ClientConfigs mcp)) as Hout.
  destruct (lib.readClientConfigs Getenv (lib.ClientConfigs mcp)) as [[e|] out];
    simpl; [|discriminate].
  intros He. inversion He; subst e.
  destruct Hout as (before & c & value & after & H1 & H2 & H3 & H4 & H5 & H6 & H7).
  exists before, c, value, after. subst out. repeat split; assumption.
Qed.

Lemma ReadMCPKeys_failure_updates_a_prefix_witness :
  exists before c value after,
    Installation.brokenClients = before ++ c :: after
    /\ Forall (lib.available Installation.environment) before
    /\ lib.ConnectionString c = Some value
    /\ lib.HasPrefix value "env." = true
    /\ Installation.environment (lib.TrimPrefix value "env.") = ""
    /\ "MCP client search: environment variable SEARCH_URL not found in the environment"
       = ("MCP client " ++ lib.Name c ++ ": environment variable "
          ++ lib.TrimPrefix value "env." ++ " not found in the environment")%string
    /\ snd (lib.ReadMCPKeys Installation.environment
              {| lib.mcpConfig :=
                   Some {| lib.ClientConfigs := Installation.brokenClients |} |})
       = {| lib.mcpConfig :=
              Some {| lib.ClientConfigs :=
                        List.map (lib.lookedUp Installation.environment) before
                        ++ c :: after |} |}.
Proof.
  apply (ReadMCPKeys_failure_updates_a_prefix Installation.environment
           {| lib.ClientConfigs := Installation.brokenClients |}).
  reflexivity.
Defined.

Lemma lookedUp_settled (Getenv : lib.Environment) (c : lib.MCPClientConfig) :
  (forall key, lib.HasPrefix (Getenv key) "env." = false) ->
  lib.available Getenv c ->
  lib.available Getenv (lib.lookedUp Getenv c)
  /\ lib.lookedUp Getenv (lib.lookedUp Getenv c) = lib.lookedUp Getenv c.
Proof.
  intros Hvalues Hc. destruct c as [name [value|]]; unfold lib.available, lib.lookedUp; simpl.
  - destruct (lib.HasPrefix value "env.") eqn:Hp.
    + split.
      * intros v Hv Hpv. inversion Hv; subst v. rewrite Hvalues in Hpv. discriminate.
      * rewrite Hvalues. reflexivity.
    + split.
      * intros v Hv Hpv. inversion Hv; subst v. congruence.
      * rewrite Hp. reflexivity.
  - split; [intros v Hv; discriminate|reflexivity].
Qed.

(** X27.  If no variable's value itself begins with [env.], a second
    [ReadMCPKeys] after a successful one finds nothing to replace: it
    succeeds and leaves the configuration as the first one left it. *)
Theorem ReadMCPKeys_second_run_changes_nothing
    (Getenv : lib.Environment) (config : lib.BifrostHTTPConfig) :
  (forall key, lib.HasPrefix (Getenv key) "env." = false) ->
  fst (lib.ReadMCPKeys Getenv config) = None ->
  lib.ReadMCPKeys Getenv (snd (lib.ReadMCPKeys Getenv config))
  = (None, snd (lib.ReadMCPKeys Getenv config)).
Proof.
  intros Hvalues. destruct config as [[mcp|]]; [|reflexivity].
  unfold lib.ReadMCPKeys at 1 3 4. cbn [lib.mcpConfig].
  pose proof (readClientConfigs_outcome Getenv (lib.ClientConfigs mcp)) as Hout.
  destruct (lib.readClientConfigs Getenv (lib.ClientConfigs mcp)) as [[e|] out] eqn:E;
    simpl; [discriminate|]. intros _.
  rewrite (readClientConfigs_available _ _ Hout) in E. inversion E; subst out.
  unfold lib.ReadMCPKeys. cbn [lib.mcpConfig lib.ClientConfigs].
  assert (Hall : Forall (lib.available Getenv)
                        (List.map (lib.lookedUp Getenv) (lib.ClientConfigs mcp))
                 /\ List.map (lib.lookedUp Getenv)
                      (List.map (lib.lookedUp Getenv) (lib.ClientConfigs mcp))
                    = List.map (lib.lookedUp Getenv) (lib.ClientConfigs mcp)).
  { clear E. induction Hout as [|c rest Hc Hrest IH]; [split; [constructor|reflexivity]|].
    destruct IH as [IH1 IH2].
    destruct (lookedUp_settled Getenv c Hvalues Hc) as [H1 H2].
    split; [constructor; assumption|]. simpl. rewrite H2, IH2. reflexivity. }
  destruct Hall as [Hall Hmap].
  rewrite (readClientConfigs_available _ _ Hall), Hmap. reflexivity.
Qed.

Lemma ReadMCPKeys_second_run_changes_nothing_witness :
  lib.ReadMCPKeys Installation.environment
    (snd (lib.ReadMCPKeys Installation.environment
            {| lib.mcpConfig := Some {| lib.ClientConfigs := Installation.clients |} |}))
  = (None,
     snd (lib.ReadMCPKeys Installation.environment
            {| lib.mcpConfig := Some {| lib.ClientConfigs := Installation.clients |} |})).
Proof.
  apply (ReadMCPKeys_second_run_changes_nothing Installation.environment
           {| lib.mcpConfig := Some {| lib.ClientConfigs := Installation.clients |} |}).
  - intros key. unfold Installation.environment.
    destruct (String.eqb key "MCP_URL"); reflexivity.
  - reflexivity.
Defined.

(* ================================================================= *)
(** ** The Ollama adapter's constructor *)

Lemma TrimRight_slashes (s : string) :
  (providers.onlySlashes s = true -> providers.TrimRight s ["/"%char] = ""%string)
  /\ (providers.onlySlashes s = false ->
      providers.TrimRight s ["/"%char] <> ""%string
      /\ providers.lastChar (providers.TrimRight s ["/"%char]) <> Some "/"%char)
  /\ exists slashes,
       providers.onlySlashes slashes = true
       /\ s = (providers.TrimRight s ["/"%char] ++ slashes)%string.
Proof.
  induction s as [|c rest IH].
  - split; [reflexivity|]. split; [discriminate|]. exists ""%string. split; reflexivity.
  - destruct IH as (IH1 & IH2 & slashes & Hs & Hrest).
    cbn [providers.TrimRight providers.onlySlashes existsb].
    destruct (providers.onlySlashes rest) eqn:Hall.
    + rewrite (IH1 eq_refl) in *. rewrite Bool.orb_false_r, Bool.andb_true_r.
      destruct (Ascii.eqb c "/") eqn:Hc.
      * split; [reflexivity|]. split; [discriminate|].
        exists (String c rest). split.
        -- simpl. rewrite Hc, Hall. reflexivity.
        -- reflexivity.
      * split; [discriminate|]. split.
        -- intros _. split; [discriminate|]. simpl. intros H. inversion H; subst c.
           discriminate.
        -- exists rest. split; [exact Hall|]. simpl. reflexivity.
    + destruct (IH2 eq_refl) as [Hne Hlast]. rewrite Bool.andb_false_r.
      split; [discriminate|]. split.
      * intros _.
        destruct (providers.TrimRight rest ["/"%char]) as [|d rest'] eqn:Ht; [congruence|].
        split; [discriminate|]. exact Hlast.
      * exists slashes. split; [exact Hs|].
        destruct (providers.TrimRight rest ["/"%char]) as [|d rest'] eqn:Ht; [congruence|].
        simpl. simpl in Hrest. rewrite <- Hrest. reflexivity.
Qed.

(** X28.  [NewOllamaProvider] refuses a base URL that, after the defaults
    have been set, is empty or made of slashes only; any other base URL is
    accepted and stored without its trailing slashes. *)
Theorem NewOllamaProvider_requires_a_base_url
    (CheckAndSetDefaults : providers.OllamaConfig -> providers.OllamaConfig)
    (config : providers.OllamaConfig) :
  let url := providers.BaseURL (CheckAndSetDefaults config) in
  (providers.onlySlashes url = true ->
   providers.NewOllamaProvider CheckAndSetDefaults config
   = inl "base_url is required for ollama provider"%string)
  /\ (providers.onlySlashes url = false ->
      exists provider slashes,
        providers.NewOllamaProvider CheckAndSetDefaults config = inr provider
        /\ providers.onlySlashes slashes = true
        /\ url = (providers.BaseURL (providers.ollamaNetworkConfig provider)
                  ++ slashes)%string
        /\ providers.lastChar (providers.BaseURL (providers.ollamaNetworkConfig provider))
           <> Some "/"%char).
Proof.
  intros url. unfold providers.NewOllamaProvider. cbn [providers.BaseURL]. fold url.
  destruct (TrimRight_slashes url) as (H1 & H2 & slashes & Hs & Hurl).
  split.
  - intros Hall. rewrite (H1 Hall). reflexivity.
  - intros Hall. destruct (H2 Hall) as [Hne Hlast].
    destruct (String.eqb (providers.TrimRight url ["/"%char]) "") eqn:E;
      [apply String.eqb_eq in E; contradiction|].
    eexists. exists slashes. split; [reflexivity|].
    cbn [providers.ollamaNetworkConfig providers.BaseURL].
    split; [exact Hs|]. split; [exact Hurl|exact Hlast].
Qed.

Lemma NewOllamaProvider_requires_a_base_url_witness :
  providers.NewOllamaProvider (fun config => config) {| providers.BaseURL := "//" |}
  = inl "base_url is required for ollama provider".
Proof.
  apply (proj1 (NewOllamaProvider_requires_a_base_url (fun config => config)
                  {| providers.BaseURL := "//" |})).
  reflexivity.
Defined.

(* ================================================================= *)
(** ** The tag input *)

Lemma jsstring_eqb_eq (a b : TagInput.jsstring) :
  TagInput.jsstring_eqb a b = true <-> a = b.
Proof.
  unfold TagInput.jsstring_eqb. destruct (list_eq_dec N.eq_dec a b); split;
    intros H; try reflexivity; try assumption; try discriminate; contradiction.
Qed.

Lemma includes_In (value : list TagInput.jsstring) (tag : TagInput.jsstring) :
  TagInput.includes value tag = true <-> In tag value.
Proof.
  unfold TagInput.includes. rewrite existsb_exists. split.
  - intros (x & Hin & Heq). apply jsstring_eqb_eq in Heq. subst x. exact Hin.
  - intros Hin. exists tag. split; [exact Hin|]. apply jsstring_eqb_eq. reflexivity.
Qed.

Lemma trimStart_fixed (s : TagInput.jsstring) :
  match s with [] => True | c :: _ => TagInput.isWhiteSpace c = false end ->
  TagInput.trimStart s = s.
Proof.
  destruct s as [|c rest]; [reflexivity|]. simpl. intros H. rewrite H. reflexivity.
Qed.

Lemma trimStart_head (s : TagInput.jsstring) :
  match TagInput.trimStart s with
  | [] => True
  | c :: _ => TagInput.isWhiteSpace c = false
  end.
Proof.
  induction s as [|c rest IH]; [exact I|].
  simpl. destruct (TagInput.isWhiteSpace c) eqn:E; [exact IH|exact E].
Qed.

Lemma trimStart_keeps_last (s : TagInput.jsstring) (x : N) :
  TagInput.isWhiteSpace x = false ->
  exists pre, TagInput.trimStart (s ++ [x]) = pre ++ [x].
Proof.
  intros Hx. induction s as [|c rest IH]; simpl.
  - rewrite Hx. exists []. reflexivity.
  - destruct (TagInput.isWhiteSpace c); [exact IH|].
    exists (c :: rest). reflexivity.
Qed.

Lemma trim_idempotent (s : TagInput.jsstring) :
  TagInput.trim (TagInput.trim s) = TagInput.trim s.
Proof.
  unfold TagInput.trim.
  pose proof (trimStart_head s) as Hhead.
  destruct (TagInput.trimStart s) as [|x a'] eqn:Ha; [reflexivity|].
  change (rev (x :: a')) with (rev a' ++ [x]).
  destruct (trimStart_keeps_last (rev a') x Hhead) as [pre Hb].
  pose proof (trimStart_head (rev a' ++ [x])) as Hbhead.
  rewrite Hb in Hbhead |- *.
  assert (Hrev : rev (pre ++ [x]) = x :: rev pre) by (rewrite rev_app_distr; reflexivity).
  rewrite Hrev.
  rewrite (trimStart_fixed (x :: rev pre) Hhead).
  change (rev (x :: rev pre)) with (rev (rev pre) ++ [x]). rewrite rev_involutive.
  rewrite (trimStart_fixed (pre ++ [x]) Hbhead). exact Hrev.
Qed.

Lemma NoDup_removelast {A : Type} (l : list A) : NoDup l -> NoDup (removelast l).
Proof.
  induction 1 as [|x l Hx Hl IH]; [constructor|].
  destruct l as [|y l']; [constructor|].
  change (removelast (x :: y :: l')) with (x :: removelast (y :: l')).
  constructor; [|exact IH].
  intros Hin. apply Hx.
  assert (Hsub : forall (m : list A) z, In z (removelast m) -> In z m).
  { induction m as [|a m IHm]; intros z Hz; [exact Hz|].
    destruct m as [|b m']; [destruct Hz|].
    change (removelast (a :: b :: m')) with (a :: removelast (b :: m')) in Hz.
    destruct Hz as [Hz|Hz]; [left; exact Hz|right; apply IHm, Hz]. }
  apply Hsub, Hin.
Qed.

Lemma Forall_removelast {A : Type} (P : A -> Prop) (l : list A) :
  Forall P l -> Forall P (removelast l).
Proof.
  induction 1 as [|x l Hx Hl IH]; [constructor|].
  destruct l as [|y l']; [constructor|].
  change (removelast (x :: y :: l')) with (x :: removelast (y :: l')).
  constructor; assumption.
Qed.

(** X29.  The handlers of the tag input keep the tags well formed: if the
    tags are distinct, non-empty and without white space around them, so is
    every value passed to [onValueChange] by [handleKeyDown] or [removeTag];
    and a removed tag is no longer among them. *)
Theorem TagInput_keeps_tags_well_formed (value : list TagInput.jsstring) :
  TagInput.wellFormed value ->
  (forall inputValue key value',
     TagInput.onValueChange (TagInput.handleKeyDown value inputValue key) = Some value' ->
     TagInput.wellFormed value')
  /\ (forall tagToRemove value',
        TagInput.onValueChange (TagInput.removeTag value tagToRemove) = Some value' ->
        TagInput.wellFormed value' /\ ~ In tagToRemove value').
Proof.
  intros [Hdistinct Htags]. split.
  - intros inputValue key value'. unfold TagInput.handleKeyDown.
    destruct (TagInput.jsstring_eqb key (TagInput.js "Enter")
              || TagInput.jsstring_eqb key (TagInput.js ",")).
    + cbn [TagInput.onValueChange].
      destruct (TagInput.jsstring_eqb (TagInput.trim inputValue) []) eqn:Hempty;
        [discriminate|].
      destruct (TagInput.includes value (TagInput.trim inputValue)) eqn:Hinc;
        [discriminate|].
      cbn [negb andb]. intros H. inversion H; subst value'. split.
      * apply NoDup_app; [exact Hdistinct|repeat constructor; intros []|].
        intros x Hx [Hx'|[]]. subst x. apply includes_In in Hx. congruence.
      * apply Forall_app. split; [exact Htags|]. constructor; [|constructor]. split.
        -- intros Hnil. rewrite Hnil in Hempty.
           assert (TagInput.jsstring_eqb [] [] = true) by (apply jsstring_eqb_eq; reflexivity).
           congruence.
        -- apply trim_idempotent.
    + destruct (TagInput.jsstring_eqb key (TagInput.js "Backspace")
                && TagInput.jsstring_eqb inputValue [] && (0 <? len value));
        cbn [TagInput.onValueChange]; [|discriminate].
      intros H. inversion H; subst value'. split.
      * apply NoDup_removelast, Hdistinct.
      * apply Forall_removelast, Htags.
  - intros tagToRemove value'. unfold TagInput.removeTag. cbn [TagInput.onValueChange].
    intros H. inversion H; subst value'. split; [split|].
    + apply NoDup_filter, Hdistinct.
    + apply Forall_forall. intros x Hx. apply filter_In in Hx. destruct Hx as [Hx _].
      rewrite Forall_forall in Htags. apply Htags, Hx.
    + intros Hin. apply filter_In in Hin. destruct Hin as [_ Hneq].
      assert (TagInput.jsstring_eqb tagToRemove tagToRemove = true)
        by (apply jsstring_eqb_eq; reflexivity).
      rewrite H0 in Hneq. discriminate.
Qed.

Lemma TagInput_keeps_tags_well_formed_witness :
  TagInput.wellFormed [TagInput.js "gpt-4o"; TagInput.js "gpt-4"].
Proof.
  assert (Hwf : TagInput.wellFormed [TagInput.js "gpt-4o"]).
  { split.
    - constructor; [intros []|constructor].
    - constructor; [|constructor]. split; [discriminate|reflexivity]. }
  apply (proj1 (TagInput_keeps_tags_well_formed [TagInput.js "gpt-4o"] Hwf)
           (TagInput.js "  gpt-4  ") (TagInput.js "Enter")).
  reflexivity.
Defined.
